(** * aas-ci-lint: orchestration, discovery and template conformance

    A shallow embedding of the validation core of aas-ci-lint
    (core/orchestrator.ts, core/discovery.ts, engine-template/engine.ts)
    together with the properties its specification states about it.

    Conventions of the embedding
    - A JavaScript string is a [string]: a sequence of code units below 256.
    - A value produced by [JSON.parse] is a [json]; numbers are integers.
    - A property that is absent (JavaScript [undefined]) is [None].
    - A JavaScript [Set<string>] that the code iterates is a duplicate-free
      list in insertion order; a [Map] that is only probed is a [gmap].
    - Platform services (file system, glob expansion, path algebra, the
      collation behind [localeCompare]) are parameters. *)

From Stdlib Require Import ZArith Ascii String List Bool Lia Sorted Permutation.
From Stdlib Require Import DecimalString DecimalNat DecimalZ.
From stdpp Require Import gmap strings list.
Import ListNotations.

#[local] Set Warnings "-register-all".
Local Open Scope string_scope.
Local Open Scope Z_scope.

(** ** JavaScript values and primitives *)

Module Js.

(** Values produced by [JSON.parse]. An object is its list of own
    properties; property lookup returns the first binding of the key. *)
Inductive json : Type :=
| JNull
| JBool (b : bool)
| JNum (n : Z)
| JStr (s : string)
| JArr (items : list json)
| JObj (fields : list (string * json)).

(** What a [throw] or a rejected promise carries. *)
Inductive thrown : Type :=
| ThrownError (message : string)
| ThrownValue (v : json).

Inductive outcome (A : Type) : Type :=
| Ok (a : A)
| Throw (e : thrown).
Arguments Ok {A} a.
Arguments Throw {A} e.

Fixpoint assoc (k : string) (fields : list (string * json)) : option json :=
  match fields with
  | [] => None
  | (k', v) :: rest => if String.eqb k k' then Some v else assoc k rest
  end.

(** [v?.k] and [v[k]] for the property names the code reads: none of them
    is defined on a string, number, boolean or array prototype as a JSON
    value, so only objects answer. [null?.k] is [undefined] as well. *)
Definition get (v : json) (k : string) : option json :=
  match v with
  | JObj fields => assoc k fields
  | _ => None
  end.

Definition oget (v : option json) (k : string) : option json :=
  match v with
  | Some x => get x k
  | None => None
  end.

(** [Boolean(v)] *)
Definition truthy (v : json) : bool :=
  match v with
  | JNull => false
  | JBool b => b
  | JNum n => negb (n =? 0)
  | JStr s => negb (String.eqb s EmptyString)
  | JArr _ | JObj _ => true
  end.

Definition otruthy (v : option json) : bool :=
  match v with
  | Some x => truthy x
  | None => false
  end.

(** [Array.isArray(v) ? v : []] *)
Definition arrayOrEmpty (v : option json) : list json :=
  match v with
  | Some (JArr items) => items
  | _ => []
  end.

Definition isArray (v : option json) : bool :=
  match v with
  | Some (JArr _) => true
  | _ => false
  end.

(** [typeof v === 'object'] (true of [null], arrays and objects) *)
Definition typeofObject (v : json) : bool :=
  match v with
  | JNull | JArr _ | JObj _ => true
  | _ => false
  end.

(** [typeof v === 'string' ? v : undefined] *)
Definition asString (v : option json) : option string :=
  match v with
  | Some (JStr s) => Some s
  | _ => None
  end.

(** [a ?? b] *)
Definition nullish (a b : option json) : option json :=
  match a with
  | None | Some JNull => b
  | Some _ => a
  end.

Definition nonEmpty (s : string) : bool := negb (String.eqb s EmptyString).

(** Decimal rendering of numbers, as in [String(n)] and template
    literals. Numbers are modelled by integers; the rendering is that of
    the code below 10^21, from where the code turns to exponent
    notation. *)
Definition natToString (n : nat) : string :=
  NilEmpty.string_of_uint (Nat.to_uint n).

Definition numberToString (n : Z) : string :=
  NilEmpty.string_of_int (Z.to_int n).

Fixpoint join (sep : string) (parts : list string) : string :=
  match parts with
  | [] => EmptyString
  | [p] => p
  | p :: rest => p +:+ sep +:+ join sep rest
  end.

(** [String(v)]: arrays render their items separated by commas, with
    [null] items rendered empty; any plain object renders as
    [[object Object]]. *)
Fixpoint toString (v : json) : string :=
  match v with
  | JNull => "null"
  | JBool true => "true"
  | JBool false => "false"
  | JNum n => numberToString n
  | JStr s => s
  | JArr items =>
      join "," (List.map (fun i => match i with JNull => EmptyString | _ => toString i end) items)
  | JObj _ => "[object Object]"
  end.

(** [String.prototype.toLowerCase] on code units below 256. *)
Definition lowerChar (c : ascii) : ascii :=
  let n := N_of_ascii c in
  if ((65 <=? n) && (n <=? 90))%N then ascii_of_N (n + 32)
  else if ((192 <=? n) && (n <=? 222) && negb (n =? 215))%N then ascii_of_N (n + 32)
  else c.

Fixpoint toLowerCase (s : string) : string :=
  match s with
  | EmptyString => EmptyString
  | String c rest => String (lowerChar c) (toLowerCase rest)
  end.

Definition startsWith (s p : string) : bool := String.prefix p s.

(** [s.includes(needle)] *)
Fixpoint includes (s needle : string) : bool :=
  String.prefix needle s ||
  match s with
  | EmptyString => false
  | String _ rest => includes rest needle
  end.

(** The class [\s] on code units below 256. *)
Definition isSpace (c : ascii) : bool :=
  let n := N_of_ascii c in
  (((9 <=? n) && (n <=? 13)) || (n =? 32) || (n =? 160))%N.

Definition isDigit (c : ascii) : bool :=
  let n := N_of_ascii c in ((48 <=? n) && (n <=? 57))%N.

Definition digitValue (c : ascii) : Z := Z.of_N (N_of_ascii c) - 48.

(** [s.replace(/\s+/g, '')] *)
Fixpoint removeSpaces (s : string) : string :=
  match s with
  | EmptyString => EmptyString
  | String c rest => if isSpace c then removeSpaces rest else String c (removeSpaces rest)
  end.

Fixpoint dropSpaces (s : string) : string :=
  match s with
  | String c rest => if isSpace c then dropSpaces rest else s
  | EmptyString => EmptyString
  end.

(** Longest prefix of decimal digits, and what follows it. *)
Fixpoint spanDigits (s : string) : string * string :=
  match s with
  | String c rest =>
      if isDigit c then let '(ds, tl) := spanDigits rest in (String c ds, tl)
      else (EmptyString, s)
  | EmptyString => (EmptyString, EmptyString)
  end.

Fixpoint digitsValue (acc : Z) (ds : string) : Z :=
  match ds with
  | EmptyString => acc
  | String c rest => digitsValue (10 * acc + digitValue c) rest
  end.

(** [parseInt(s, 10)]; [None] is [NaN]. Leading white space and one sign
    are skipped, then the longest run of digits is read. The value is the
    integer that the digits denote; the code's number is the double
    nearest to it, which is that integer up to 2^53. *)
Definition parseInt (s : string) : option Z :=
  let t := dropSpaces s in
  let '(neg, body) :=
    match t with
    | String "-" rest => (true, rest)
    | String "+" rest => (false, rest)
    | _ => (false, t)
    end in
  let '(ds, _) := spanDigits body in
  match ds with
  | EmptyString => None
  | _ => Some (if neg then - digitsValue 0 ds else digitsValue 0 ds)
  end.

(** [s.endsWith(suffix)] *)
Definition endsWith (s suffix : string) : bool :=
  (String.length suffix <=? String.length s)%nat &&
  String.eqb (substring (String.length s - String.length suffix) (String.length suffix) s) suffix.

(** [Array.prototype.sort(compare)]: the sort is stable, and a comparator
    result is read by its sign. Insertion from the right keeps an element
    in front of the later elements it does not exceed. *)
Fixpoint insertSorted {A : Type} (compare : A -> A -> Z) (x : A) (l : list A) : list A :=
  match l with
  | [] => [x]
  | y :: rest =>
      if compare x y <=? 0 then x :: y :: rest
      else y :: insertSorted compare x rest
  end.

Fixpoint sort {A : Type} (compare : A -> A -> Z) (l : list A) : list A :=
  match l with
  | [] => []
  | x :: rest => insertSorted compare x (sort compare rest)
  end.

(** [s.split('/')] *)
Fixpoint segments (s : string) : list string :=
  match s with
  | EmptyString => [EmptyString]
  | String c rest =>
      if Ascii.eqb c "/" then EmptyString :: segments rest
      else match segments rest with
           | h :: t => String c h :: t
           | [] => [String c EmptyString]
           end
  end.

End Js.

Import Js.

(** ** Data model (core/types.ts) *)

Inductive Severity : Type := error | warning | note.

#[global] Instance Severity_eq_dec : EqDecision Severity.
Proof. solve_decision. Defined.

Record Location : Type := {
  filePath : string;
  internalPath : option string;
  jsonPointer : option string;
  line : option Z;
  column : option Z;
}.

Record Finding : Type := {
  ruleId : string;
  ruleName : string;
  severity : Severity;
  message : string;
  location : Location;
  source : string;
  details : option (list (string * option json));
}.

Record LintConfig : Type := {
  paths : list string;
  exclude : option (list string);
  failOn : list Severity;
  templateVersion : option string;
  templateDir : option string;
  basePath : option string;
  engines : option (gmap string bool);
}.

Record Summary : Type := {
  errors : nat;
  warnings : nat;
  notes : nat;
  filesScanned : nat;
  filesWithFindings : nat;
}.

Record LintResult : Type := {
  findings : list Finding;
  summary : Summary;
  metadata_version : string;
  metadata_config : LintConfig;
}.

(** The engine interface. An engine may keep state between calls (the
    template engine caches its index), so [validate] threads a state of
    type [W]; it either returns findings or throws. *)
Record ValidationEngine (W : Type) : Type := {
  name : string;
  description : string;
  canValidate : string -> bool;
  validate : string -> LintConfig -> W -> outcome (list Finding) * W;
}.
Arguments name {W} _.
Arguments description {W} _.
Arguments canValidate {W} _ _.
Arguments validate {W} _ _ _ _.

(** [{ filePath }] *)
Definition fileLocation (file : string) : Location :=
  {| filePath := file; internalPath := None; jsonPointer := None;
     line := None; column := None |}.

(** ** Platform services *)

Record GlobOptions : Type := {
  glob_cwd : option string;
  glob_absolute : bool;
  glob_followSymbolicLinks : bool;
  glob_ignore : list string;
  glob_onlyFiles : bool;
}.

(** What an extracted package looks like on disk. *)
Record ExtractedTree : Type := {
  tree_access : string -> bool;
  tree_readdir : string -> option (list string);
  tree_readJson : string -> option json;
}.

Record Platform : Type := {
  (** [a.localeCompare(b)] under the default locale *)
  localeCompare : string -> string -> Z;
  (** node:path *)
  path_extname : string -> string;
  path_isAbsolute : string -> bool;
  path_resolve : string -> string -> string;
  path_join : list string -> string;
  path_basename : string -> string -> string;
  (** [path.relative(a, b)] with separators turned into slashes *)
  path_relative : string -> string -> string;
  (** process and os *)
  process_cwd : string;
  env_AAS_CI_LINT_TEMPLATE_DIR : option string;
  os_homedir : string;
  os_tmpdir : string;
  (** [fs.statSync(p).isDirectory()], a throw read as [false] *)
  fs_isDirectory : string -> bool;
  (** [JSON.parse(await fs.readFile(p, 'utf-8'))]; [None] when either throws *)
  fs_readJson : string -> option json;
  (** fast-glob: the matches in the order the library delivers them *)
  fastGlob : list string -> GlobOptions -> outcome (list string);
  fs_mkdtemp : string -> outcome string;
  (** adm-zip: opening and extracting the archive to a directory *)
  zip_extractAllTo : string -> string -> outcome ExtractedTree;
}.

Definition dquote : string := String "034"%char EmptyString.

(** ** File discovery (core/discovery.ts) *)

Module Discovery.

Definition SUPPORTED_EXTENSIONS : list string := [".aasx"; ".json"; ".xml"].

Record DiscoveryOptions : Type := {
  d_basePath : string;
  d_exclude : option (list string);
  d_followSymlinks : option bool;
}.

Definition aasKeys : list string :=
  ["assetAdministrationShells"; "submodels"; "conceptDescriptions"].

(** [parsed[key]] throws on [null]; on every other value the lookup
    answers. The enclosing [try] turns any throw into [false]. *)
Definition looksLikeParsed (parsed : json) : bool :=
  match parsed with
  | JNull => false
  | _ => existsb (fun key => isArray (get parsed key)) aasKeys
  end.

Section WithPlatform.
Context (p : Platform).

Definition looksLikeAasJson (file : string) : bool :=
  match fs_readJson p file with
  | Some parsed => looksLikeParsed parsed
  | None => false
  end.

Definition extensionOf (file : string) : string :=
  toLowerCase (path_extname p file).

Definition supported (file : string) : bool :=
  existsb (String.eqb (extensionOf file)) SUPPORTED_EXTENSIONS.

Definition accepted (file : string) : bool :=
  if String.eqb (extensionOf file) ".json" then looksLikeAasJson file else true.

Definition discoverFiles (patterns : list string) (options : DiscoveryOptions)
  : outcome (list string) :=
  let exclude := default [] (d_exclude options) in
  let followSymlinks := default false (d_followSymlinks options) in
  let normalizedPatterns :=
    List.map (fun pattern => if path_isAbsolute p pattern then pattern else pattern) patterns in
  match fastGlob p normalizedPatterns
          {| glob_cwd := Some (d_basePath options);
             glob_absolute := true;
             glob_followSymbolicLinks := followSymlinks;
             glob_ignore := exclude ++ ["**/node_modules/**"; "**/.git/**"];
             glob_onlyFiles := true |} with
  | Throw e => Throw e
  | Ok files =>
      let aasFiles := List.filter supported files in
      let validatedFiles := List.filter accepted aasFiles in
      Ok (sort (localeCompare p) validatedFiles)
  end.

(** [unpackAasx]: the directory extracted into, and what it then holds *)
Definition unpackAasx (aasxPath targetDir : string) : outcome (string * ExtractedTree) :=
  let extractPath := path_join p [targetDir; path_basename p aasxPath ".aasx"] in
  match zip_extractAllTo p aasxPath extractPath with
  | Throw e => Throw e
  | Ok tree => Ok (extractPath, tree)
  end.

Definition findAasEnvironmentInAasx (tree : ExtractedTree) (unpackedDir : string)
  : option string :=
  let candidates :=
    [path_join p [unpackedDir; "aasx"; "aas-environment.json"];
     path_join p [unpackedDir; "aasx"; "aas-environment.xml"]] in
  match List.find (tree_access tree) candidates with
  | Some candidate => Some candidate
  | None =>
      let aasxDir := path_join p [unpackedDir; "aasx"] in
      match tree_readdir tree aasxDir with
      | Some files =>
          match List.find (fun f => endsWith f ".json" || endsWith f ".xml") files with
          | Some envFile => if nonEmpty envFile then Some (path_join p [aasxDir; envFile]) else None
          | None => None
          end
      | None => None
      end
  end.

End WithPlatform.

End Discovery.

(** ** Template conformance engine (engine-template/engine.ts) *)

Module TemplateEngine.

Record TemplateSpec : Type := {
  id : string;
  tname : option json;
  requiredIdShortPaths : list string;
  requiredSemanticPaths : list string;
  sourcePath : string;
}.

Record PathSets : Type := {
  idShort : list string;
  semantic : list string;
}.

Record TemplateEngineOptions : Type := {
  opt_templateDir : option string;
}.

(** The private fields of the engine object. *)
Record EngineState : Type := {
  templateIndex : option (gmap string TemplateSpec);
  loadedTemplateDir : option string;
  loadedTemplateVersion : option string;
  warnedMissingTemplates : bool;
}.

Definition initialState : EngineState :=
  {| templateIndex := None; loadedTemplateDir := None;
     loadedTemplateVersion := None; warnedMissingTemplates := false |}.

Definition engineName : string := "template-conformance".

(** [Set.prototype.has] and [Set.prototype.add] on an insertion-ordered set *)
Definition setHas (s : list string) (x : string) : bool :=
  existsb (String.eqb x) s.

Definition setAdd (s : list string) (x : string) : list string :=
  if setHas s x then s else s ++ [x].

(** *** Semantic identifiers *)

Definition hasStringValue (entry : json) : bool :=
  match asString (get entry "value") with
  | Some _ => true
  | None => false
  end.

Definition getSemanticIdValue (semanticId : option json) : option string :=
  match semanticId with
  | None => None
  | Some v =>
      if negb (truthy v) then None
      else match v with
      | JStr s => Some s
      | _ =>
          match asString (get v "value") with
          | Some s => Some s
          | None =>
              match get v "keys" with
              | Some (JArr keys) =>
                  match List.find hasStringValue keys with
                  | Some key => asString (get key "value")
                  | None => None
                  end
              | _ => None
              end
          end
      end
  end.

(** [if (!templateId)]: an absent or empty identifier *)
Definition usable (sid : option string) : option string :=
  match sid with
  | Some s => if nonEmpty s then Some s else None
  | None => None
  end.

(** *** Cardinalities and requiredness *)

Record Cardinality : Type := {
  cmin : Z;
  cmax : option Z;
}.

Fixpoint allDigits (s : string) : bool :=
  match s with
  | EmptyString => true
  | String c rest => isDigit c && allDigits rest
  end.

(** The range pattern: one or more digits, two dots, then one or more
    digits or a star, anchored at both ends. Returns the two groups. *)
Definition rangeMatch (normalized : string) : option (string * string) :=
  let '(lo, rest) := spanDigits normalized in
  if nonEmpty lo then
    match rest with
    | String "." (String "." hi) =>
        if String.eqb hi "*" || (nonEmpty hi && allDigits hi) then Some (lo, hi) else None
    | _ => None
    end
  else None.

Definition parseCardinality (value : string) : option Cardinality :=
  if negb (nonEmpty value) then None
  else
    let normalized := removeSpaces value in
    if String.eqb normalized "0" then Some {| cmin := 0; cmax := Some 0 |}
    else if String.eqb normalized "1" then Some {| cmin := 1; cmax := Some 1 |}
    else match rangeMatch normalized with
    | Some (lo, hi) =>
        Some {| cmin := digitsValue 0 lo;
                cmax := if String.eqb hi "*" then None else Some (digitsValue 0 hi) |}
    | None =>
        if startsWith normalized "zero" then Some {| cmin := 0; cmax := None |}
        else if startsWith normalized "one" then Some {| cmin := 1; cmax := None |}
        else None
    end.

(** [qualifier.type] as a string, or [qualifier.type.value], or [''] *)
Definition qualifierType (qualifier : json) : string :=
  match asString (get qualifier "type") with
  | Some s => s
  | None =>
      match asString (oget (get qualifier "type") "value") with
      | Some s => s
      | None => EmptyString
      end
  end.

(** [qualifier?.value ?? qualifier?.valueType ?? qualifier?.kind] *)
Definition qualifierValue (qualifier : json) : option json :=
  nullish (get qualifier "value")
          (nullish (get qualifier "valueType") (get qualifier "kind")).

(** [String(value ?? '')] *)
Definition stringOrEmpty (value : option json) : string :=
  match value with
  | None | Some JNull => EmptyString
  | Some v => toString v
  end.

Definition namesCardinality (typeLower : string) : bool :=
  includes typeLower "cardinality" || includes typeLower "multiplicity"
  || includes typeLower "occurrence".

(** One turn of the loop over [element.qualifiers]: [true] when the turn
    executes [return false]. *)
Definition qualifierSaysOptional (qualifier : json) : bool :=
  let typeValue := qualifierType qualifier in
  let value := qualifierValue qualifier in
  if negb (nonEmpty typeValue) && negb (bool_decide (is_Some value)) then false
  else
    let typeLower := toLowerCase typeValue in
    let valueLower := toLowerCase (stringOrEmpty value) in
    (namesCardinality typeLower &&
       match parseCardinality valueLower with
       | Some parsed => cmin parsed =? 0
       | None => false
       end)
    || (includes typeLower "min" && nonEmpty valueLower &&
       match parseInt valueLower with
       | Some min => min =? 0
       | None => false
       end).

Definition isRequired (element : json) : bool :=
  match get element "minOccurrences" with
  | Some (JNum 0) => false
  | _ =>
      match get element "qualifiers" with
      | Some (JArr qualifiers) => negb (existsb qualifierSaysOptional qualifiers)
      | _ => true
      end
  end.

(** *** Children of an element *)

Definition directArrays : list string :=
  ["submodelElements"; "value"; "elements"; "statements"; "annotations"].

Definition variableKeys : list string :=
  ["inputVariables"; "outputVariables"; "inoutputVariables"].

(** [variable?.value && typeof variable.value === 'object'] *)
Definition variableChild (variable : json) : list json :=
  match get variable "value" with
  | Some v => if truthy v && typeofObject v then [v] else []
  | None => []
  end.

Definition extractChildElements (element : json) : list json :=
  flat_map (fun key => arrayOrEmpty (get element key)) directArrays
  ++ flat_map (fun key => flat_map variableChild (arrayOrEmpty (get element key)))
       variableKeys.

(** *** The tree walk *)

(** The body of the loop over [elements], with the recursive call as a
    parameter. *)
Definition visitElement
    (descend : list json -> list string -> list string -> bool -> PathSets -> PathSets)
    (parentIdShortPath parentSemanticPath : list string)
    (parentRequired requiredOnly : bool)
    (pathSets : PathSets) (element : json) : PathSets :=
  if negb (truthy element) || negb (typeofObject element) then pathSets
  else
    let idShort' := usable (asString (get element "idShort")) in
    let semanticId := usable (getSemanticIdValue (get element "semanticId")) in
    let required := parentRequired && (if requiredOnly then isRequired element else true) in
    let nextIdShortPath :=
      match idShort' with
      | Some s => (parentIdShortPath ++ [s])%list
      | None => parentIdShortPath
      end in
    let nextSemanticPath :=
      match semanticId with
      | Some s => (parentSemanticPath ++ [s])%list
      | None => parentSemanticPath
      end in
    let added :=
      if negb requiredOnly || required then
        {| idShort :=
             match idShort' with
             | Some _ => setAdd (idShort pathSets) (join "/" nextIdShortPath)
             | None => idShort pathSets
             end;
           semantic :=
             match semanticId with
             | Some _ => setAdd (semantic pathSets) (join "/" nextSemanticPath)
             | None => semantic pathSets
             end |}
      else pathSets in
    let children := extractChildElements element in
    if (0 <? List.length children)%nat
    then descend children nextIdShortPath nextSemanticPath required added
    else added.

(** [collectPathsRecursive], with the depth of recursion still allowed as
    first argument. The two entry points below supply a depth that the
    walk cannot exhaust, see [collectPathsRecursive_enough]. *)
Fixpoint collectPathsRecursive (fuel : nat) (elements : list json)
    (parentIdShortPath parentSemanticPath : list string)
    (parentRequired : bool) (pathSets : PathSets) (requiredOnly : bool) : PathSets :=
  match fuel with
  | O => pathSets
  | S fuel' =>
      fold_left
        (visitElement
           (fun children ids sems required ps =>
              collectPathsRecursive fuel' children ids sems required ps requiredOnly)
           parentIdShortPath parentSemanticPath parentRequired requiredOnly)
        elements pathSets
  end.

(** Nesting depth of a value. *)
Fixpoint depth (v : json) : nat :=
  match v with
  | JArr items => S (fold_right (fun i acc => Nat.max (depth i) acc) O items)
  | JObj fields => S (fold_right (fun kv acc => Nat.max (depth (snd kv)) acc) O fields)
  | _ => O
  end.

Definition depthAll (items : list json) : nat :=
  fold_right (fun i acc => Nat.max (depth i) acc) O items.

Definition emptyPathSets : PathSets := {| idShort := []; semantic := [] |}.

Definition collectTemplatePaths (submodelElements : list json) : PathSets :=
  collectPathsRecursive (S (depthAll submodelElements)) submodelElements [] [] true
    emptyPathSets true.

Definition collectInstancePaths (submodelElements : list json) : PathSets :=
  collectPathsRecursive (S (depthAll submodelElements)) submodelElements [] [] true
    emptyPathSets false.

(** *** Template index *)

(** The body of the loop over [data.submodels] in [loadTemplates]. *)
Definition indexSubmodel (file : string) (templateIndex : gmap string TemplateSpec)
    (submodel : json) : gmap string TemplateSpec :=
  match usable (getSemanticIdValue (get submodel "semanticId")) with
  | None => templateIndex
  | Some templateId =>
      match templateIndex !! templateId with
      | Some _ => templateIndex
      | None =>
          let requiredPaths :=
            collectTemplatePaths (arrayOrEmpty (get submodel "submodelElements")) in
          <[templateId :=
              {| id := templateId;
                 tname := get submodel "idShort";
                 requiredIdShortPaths := idShort requiredPaths;
                 requiredSemanticPaths := semantic requiredPaths;
                 sourcePath := file |}]> templateIndex
      end
  end.

Section WithPlatform.
Context (p : Platform) (options : TemplateEngineOptions).

Definition safeReadJson (file : string) : option json := fs_readJson p file.

(** The body of the loop over [files] in [loadTemplates]. *)
Definition indexFile (normalizedVersion : option string)
    (templateIndex : gmap string TemplateSpec) (file : string)
  : gmap string TemplateSpec :=
  if match normalizedVersion with
     | Some v => negb (includes file v)
     | None => false
     end
  then templateIndex
  else
    match safeReadJson file with
    | Some data =>
        if negb (truthy data) then templateIndex
        else match get data "submodels" with
        | Some (JArr submodels) => fold_left (indexSubmodel file) submodels templateIndex
        | _ => templateIndex
        end
    | None => templateIndex
    end.

Definition normalizeVersion (templateVersion : option string) : option string :=
  match templateVersion with
  | Some v => if nonEmpty v && negb (String.eqb v "latest") then Some v else None
  | None => None
  end.

Definition loadTemplates (templateDir' : string) (templateVersion' : option string)
  : outcome (gmap string TemplateSpec) :=
  let normalizedVersion := normalizeVersion templateVersion' in
  let patterns := [path_join p [templateDir'; "**/*.json"]] in
  match fastGlob p patterns
          {| glob_cwd := None; glob_absolute := true; glob_followSymbolicLinks := true;
             glob_ignore := []; glob_onlyFiles := true |} with
  | Throw e => Throw e
  | Ok files => Ok (fold_left (indexFile normalizedVersion) files ∅)
  end.

(** *** Template directory *)

Definition dirExistsSync (targetPath : string) : bool := fs_isDirectory p targetPath.

Definition resolveTemplateRoot (explicitPath : string) : option string :=
  if negb (dirExistsSync explicitPath) then None
  else
    let publishedDir := path_join p [explicitPath; "published"] in
    if dirExistsSync publishedDir then Some publishedDir else Some explicitPath.

Definition getDefaultTemplateRepoDir : string :=
  path_join p [os_homedir p; ".cache"; "aas-ci-lint"; "submodel-templates"].

Definition getDefaultTemplateDir : string :=
  path_join p [getDefaultTemplateRepoDir; "published"].

(** [a ?? b] on optional strings *)
Definition orElse (a b : option string) : option string :=
  match a with
  | Some _ => a
  | None => b
  end.

Definition resolveTemplateDir (config : LintConfig) : option string :=
  let explicit :=
    orElse (opt_templateDir options)
      (orElse (templateDir config) (env_AAS_CI_LINT_TEMPLATE_DIR p)) in
  let fallback :=
    let defaultDir := getDefaultTemplateDir in
    if dirExistsSync defaultDir then Some defaultDir else None in
  match explicit with
  | Some e =>
      if nonEmpty e then
        if path_isAbsolute p e then resolveTemplateRoot e
        else resolveTemplateRoot (path_resolve p (process_cwd p) e)
      else fallback
  | None => fallback
  end.

Definition hasExplicitTemplateConfig (config : LintConfig) : bool :=
  match orElse (opt_templateDir options)
          (orElse (templateDir config)
             (orElse (env_AAS_CI_LINT_TEMPLATE_DIR p) (templateVersion config))) with
  | Some s => nonEmpty s
  | None => false
  end.

(** *** Instance documents *)

Definition loadEnvironment (file : string) : outcome (option (json * option string)) :=
  let ext := toLowerCase (path_extname p file) in
  if String.eqb ext ".xml" then Ok None
  else if String.eqb ext ".json" then
    match safeReadJson file with
    | Some data => if truthy data then Ok (Some (data, None)) else Ok None
    | None => Ok None
    end
  else if String.eqb ext ".aasx" then
    match fs_mkdtemp p (path_join p [os_tmpdir p; "aas-ci-lint-"]) with
    | Throw e => Throw e
    | Ok tempDir =>
        match Discovery.unpackAasx p file tempDir with
        | Throw e => Throw e
        | Ok (unpackedDir, tree) =>
            match Discovery.findAasEnvironmentInAasx p tree unpackedDir with
            | None => Ok None
            | Some envPath =>
                if negb (String.eqb (toLowerCase (path_extname p envPath)) ".json") then Ok None
                else match tree_readJson tree envPath with
                | Some data =>
                    if truthy data
                    then Ok (Some (data, Some (path_relative p unpackedDir envPath)))
                    else Ok None
                | None => Ok None
                end
            end
        end
    end
  else Ok None.

(** *** Findings *)

Definition templatesNotFoundFinding (file : string) : Finding :=
  {| ruleId := engineName +:+ "/templates-not-found";
     ruleName := "Templates Not Found";
     severity := note;
     message := "Template validation skipped: no templates directory configured. Set AAS_CI_LINT_TEMPLATE_DIR or use --template-dir to enable template checks.";
     location := fileLocation file;
     source := engineName;
     details := None |}.

(** [template.name ?? template.id], as a template literal renders it *)
Definition displayName (template : TemplateSpec) : string :=
  match tname template with
  | None | Some JNull => id template
  | Some v => toString v
  end.

Definition missingElementFinding (file : string) (internalPath' : option string)
    (index : nat) (template : TemplateSpec) (requiredPath : string) : Finding :=
  {| ruleId := engineName +:+ "/missing-element";
     ruleName := "Missing Template Element";
     severity := error;
     message := "Missing required template element " +:+ dquote +:+ requiredPath
                +:+ dquote +:+ " for template " +:+ displayName template +:+ ".";
     location := {| filePath := file; internalPath := internalPath';
                    jsonPointer := Some ("/submodels/" +:+ natToString index);
                    line := None; column := None |};
     source := engineName;
     details := Some [("templateId", Some (JStr (id template)));
                      ("templateName", tname template);
                      ("expectedPath", Some (JStr requiredPath));
                      ("templateSource", Some (JStr (sourcePath template)))] |}.

(** A required path is missing when neither instance set has it. *)
Definition missingFrom (instancePaths : PathSets) (requiredPath : string) : bool :=
  negb (setHas (idShort instancePaths) requiredPath)
  && negb (setHas (semantic instancePaths) requiredPath).

(** The template a submodel is checked against: none when the submodel has
    no usable semantic identifier or the index has no entry for it. *)
Definition matchTemplate (index' : gmap string TemplateSpec) (submodel : json)
  : option TemplateSpec :=
  match usable (getSemanticIdValue (get submodel "semanticId")) with
  | None => None
  | Some templateId => index' !! templateId
  end.

(** The callback of [submodels.forEach]. *)
Definition checkSubmodel (index' : gmap string TemplateSpec) (file : string)
    (internalPath' : option string) (index : nat) (submodel : json) : list Finding :=
  match matchTemplate index' submodel with
  | None => []
  | Some template =>
      let instancePaths :=
        collectInstancePaths (arrayOrEmpty (get submodel "submodelElements")) in
      List.map (missingElementFinding file internalPath' index template)
        (List.filter (missingFrom instancePaths) (requiredIdShortPaths template))
      ++ List.map (missingElementFinding file internalPath' index template)
           (List.filter (missingFrom instancePaths) (requiredSemanticPaths template))
  end.

Definition checkSubmodels (index' : gmap string TemplateSpec) (file : string)
    (internalPath' : option string) (submodels : list json) : list Finding :=
  concat (imap (checkSubmodel index' file internalPath') submodels).

(** *** The engine *)

Definition canValidate (file : string) : bool :=
  existsb (String.eqb (toLowerCase (path_extname p file))) [".aasx"; ".json"; ".xml"].

(** The cached index, reloaded when the directory or the version differ
    from those it was built for. *)
Definition ensureTemplateIndex (dir : string) (config : LintConfig) (st : EngineState)
  : outcome (gmap string TemplateSpec * EngineState) :=
  let reload :=
    match loadTemplates dir (templateVersion config) with
    | Throw e => Throw e
    | Ok loaded =>
        Ok (loaded, {| templateIndex := Some loaded;
                       loadedTemplateDir := Some dir;
                       loadedTemplateVersion := templateVersion config;
                       warnedMissingTemplates := warnedMissingTemplates st |})
    end in
  match templateIndex st with
  | Some cached =>
      if bool_decide (loadedTemplateDir st = Some dir)
         && bool_decide (loadedTemplateVersion st = templateVersion config)
      then Ok (cached, st)
      else reload
  | None => reload
  end.

Definition validate (file : string) (config : LintConfig) (st : EngineState)
  : outcome (list Finding) * EngineState :=
  match usable (resolveTemplateDir config) with
  | None =>
      if negb (hasExplicitTemplateConfig config) || warnedMissingTemplates st
      then (Ok [], st)
      else (Ok [templatesNotFoundFinding file],
            {| templateIndex := templateIndex st;
               loadedTemplateDir := loadedTemplateDir st;
               loadedTemplateVersion := loadedTemplateVersion st;
               warnedMissingTemplates := true |})
  | Some dir =>
      match ensureTemplateIndex dir config st with
      | Throw e => (Throw e, st)
      | Ok (index', st') =>
          if (size index' =? 0)%nat then (Ok [], st')
          else match loadEnvironment file with
          | Throw e => (Throw e, st')
          | Ok None => (Ok [], st')
          | Ok (Some (data, internalPath')) =>
              (Ok (checkSubmodels index' file internalPath'
                     (arrayOrEmpty (get data "submodels"))), st')
          end
      end
  end.

Definition engine : ValidationEngine EngineState :=
  Build_ValidationEngine EngineState engineName
    "IDTA submodel template conformance (best-effort)" canValidate validate.

End WithPlatform.

End TemplateEngine.

(** ** Orchestrator (core/orchestrator.ts) *)

Module Orchestrator.

Definition VERSION : string := "0.1.0".

Definition MAX_SAFE_INTEGER : Z := 9007199254740991.

(** The object handed to [JSON.stringify] to build the deduplication key.
    [JSON.stringify] maps different such objects to different strings, so
    the key is the tuple itself. *)
Definition Key : Type := string * option string * option Z * string * string.

Definition keyOf (finding : Finding) : Key :=
  (filePath (location finding), jsonPointer (location finding),
   line (location finding), ruleId finding, message finding).

(** The loop that fills [deduplicated], with [seen] the keys met so far. *)
Fixpoint deduplicate (seen : gset Key) (sorted : list Finding) : list Finding :=
  match sorted with
  | [] => []
  | finding :: rest =>
      if bool_decide (keyOf finding ∈ seen) then deduplicate seen rest
      else finding :: deduplicate ({[keyOf finding]} ∪ seen) rest
  end.

(** [error instanceof Error ? error.message : String(error)] *)
Definition failureMessage (e : thrown) : string :=
  match e with
  | ThrownError m => m
  | ThrownValue v => toString v
  end.

Definition countSeverity (s : Severity) (l : list Finding) : nat :=
  List.length (List.filter (fun f => bool_decide (severity f = s)) l).

Definition computeSummary (findings' : list Finding) (filesScanned' : list string) : Summary :=
  {| errors := countSeverity error findings';
     warnings := countSeverity warning findings';
     notes := countSeverity note findings';
     filesScanned := List.length filesScanned';
     filesWithFindings :=
       size (list_to_set (List.map (fun f => filePath (location f)) findings') : gset string) |}.

Section WithPlatform.
Context {W : Type} (p : Platform).

(** [registerEngine]: the registry is the list of engines in registration
    order. *)
Definition registerEngine (registry : list (ValidationEngine W)) (engine : ValidationEngine W)
  : list (ValidationEngine W) :=
  (registry ++ [engine])%list.

Definition engineErrorFinding (engine : ValidationEngine W) (file : string) (e : thrown)
  : Finding :=
  {| ruleId := name engine +:+ "/internal/engine-error";
     ruleName := "Engine Error";
     severity := error;
     message := "Validation engine " +:+ dquote +:+ name engine +:+ dquote
                +:+ " failed: " +:+ failureMessage e;
     location := fileLocation file;
     source := name engine;
     details := None |}.

(** The callback given to [applicableEngines.map]: the engine's findings,
    or the finding that reports its failure. *)
Definition runEngine (file : string) (config : LintConfig) (engine : ValidationEngine W)
    (w : W) : list Finding * W :=
  match validate engine file config w with
  | (Ok engineFindings, w') => (engineFindings, w')
  | (Throw e, w') => ([engineErrorFinding engine file e], w')
  end.

(** [Promise.all] over the callbacks: one result per engine, in the order
    of the engines. The calls are started in that order; the state is
    threaded in the same order. *)
Fixpoint runEngines (file : string) (config : LintConfig)
    (applicableEngines : list (ValidationEngine W)) (w : W) : list (list Finding) * W :=
  match applicableEngines with
  | [] => ([], w)
  | engine :: rest =>
      let '(r, w1) := runEngine file config engine w in
      let '(rs, w2) := runEngines file config rest w1 in
      (r :: rs, w2)
  end.

Definition validateFile (file : string) (engines' : list (ValidationEngine W))
    (config : LintConfig) (w : W) : list Finding * W :=
  let applicableEngines := List.filter (fun e => canValidate e file) engines' in
  let '(results, w') := runEngines file config applicableEngines w in
  (concat results, w').

(** The comparator given to [sort] in [normalizeFindings]. *)
Definition compareFindings (a b : Finding) : Z :=
  let fileCompare := localeCompare p (filePath (location a)) (filePath (location b)) in
  if negb (fileCompare =? 0) then fileCompare
  else
    let aLine := default MAX_SAFE_INTEGER (line (location a)) in
    let bLine := default MAX_SAFE_INTEGER (line (location b)) in
    if negb (aLine =? bLine) then aLine - bLine
    else localeCompare p (ruleId a) (ruleId b).

Definition normalizeFindings (findings' : list Finding) : list Finding :=
  let sorted := sort compareFindings findings' in
  deduplicate ∅ sorted.

(** The loop over the discovered files. *)
Fixpoint validateFiles (files : list string) (activeEngines : list (ValidationEngine W))
    (config : LintConfig) (w : W) : list Finding * W :=
  match files with
  | [] => ([], w)
  | file :: rest =>
      let '(fileFindings, w1) := validateFile file activeEngines config w in
      let '(more, w2) := validateFiles rest activeEngines config w1 in
      ((fileFindings ++ more)%list, w2)
  end.

(** [engineConfig[engine.name] !== false] *)
Definition enabled (config : LintConfig) (engine : ValidationEngine W) : bool :=
  negb (bool_decide (default ∅ (engines config) !! name engine = Some false)).

(** [lint]. The start time and the duration in the metadata are readings
    of the clock and are left out of the result. *)
Definition lint (registry : list (ValidationEngine W)) (config : LintConfig) (w : W)
  : outcome LintResult * W :=
  let basePath' := default (process_cwd p) (basePath config) in
  let discoveryOptions :=
    {| Discovery.d_basePath := basePath';
       Discovery.d_exclude := exclude config;
       Discovery.d_followSymlinks := None |} in
  match Discovery.discoverFiles p (paths config) discoveryOptions with
  | Throw e => (Throw e, w)
  | Ok files =>
      let activeEngines := List.filter (enabled config) registry in
      let '(allFindings, w') := validateFiles files activeEngines config w in
      let normalizedFindings := normalizeFindings allFindings in
      (Ok {| findings := normalizedFindings;
             summary := computeSummary normalizedFindings files;
             metadata_version := VERSION;
             metadata_config := config |}, w')
  end.

End WithPlatform.

End Orchestrator.

(** * Specification vocabulary *)

Module SemanticIdForms.
Import TemplateEngine.

(** The three ways a document writes the identifier [X]. *)
Inductive formOf (X : string) : json -> Prop :=
| form_bare : formOf X (JStr X)
| form_value (fields : list (string * json)) :
    assoc "value" fields = Some (JStr X) -> formOf X (JObj fields)
| form_keys (fields : list (string * json)) (keys : list json) (key : json) :
    asString (assoc "value" fields) = None ->
    assoc "keys" fields = Some (JArr keys) ->
    List.find hasStringValue keys = Some key ->
    get key "value" = Some (JStr X) ->
    formOf X (JObj fields).

End SemanticIdForms.

Module Requiredness.
Import TemplateEngine.




(** Every path of [a] is a path of [b]. *)
Definition included (a b : PathSets) : Prop :=
  (forall x, x ∈ idShort a -> x ∈ idShort b)
  /\ (forall x, x ∈ semantic a -> x ∈ semantic b).

(** The segment an element appends to the idShort path and to the
    semantic path of its children. *)
Definition idSegment (element : json) : list string :=
  match usable (asString (get element "idShort")) with
  | Some s => [s]
  | None => []
  end.

Definition semanticSegment (element : json) : list string :=
  match usable (getSemanticIdValue (get element "semanticId")) with
  | Some s => [s]
  | None => []
  end.


End Requiredness.

Module Ordering.

(** Order of two optional line numbers in which a missing line comes after
    every line. *)
Definition lineBefore (a b : option Z) : Prop :=
  match a, b with
  | Some x, Some y => x < y
  | Some _, None => True
  | None, _ => False
  end.

(** The order the specification gives to the findings of a result: by
    file, then by line with findings without a line last, then by rule. *)
Definition inOrder (compare : string -> string -> Z) (a b : Finding) : Prop :=
  let files := compare (filePath (location a)) (filePath (location b)) in
  files < 0 \/
  (files = 0 /\
   (lineBefore (line (location a)) (line (location b)) \/
    (line (location a) = line (location b) /\ compare (ruleId a) (ruleId b) <= 0))).

(** Code-unit lexicographic order, the order of a default [sort()]. *)
Definition lexLe (a b : string) : Prop := String.compare a b <> Gt.

(** What makes a comparator usable for sorting: opposite signs for swapped
    arguments, and transitivity. *)
Record Consistent (compare : string -> string -> Z) : Prop := {
  compare_swap : forall a b, Z.sgn (compare b a) = - Z.sgn (compare a b);
  compare_trans : forall a b c, compare a b <= 0 -> compare b c <= 0 -> compare a c <= 0;
}.

(** The rule identifier format: the engine name, then exactly two more
    segments. *)
Definition hasRuleFormat (engineName ruleId' : string) : Prop :=
  exists category code, segments ruleId' = (segments engineName ++ [category; code])%list.

(** What an engine contributes to the findings of a file: the findings
    its [validate] returned, or the one finding that reports its failure. *)
Definition contributionOf {W : Type} (file : string) (config : LintConfig)
    (engine : ValidationEngine W) (r : list Finding) : Prop :=
  exists w w',
    validate engine file config w = (Ok r, w')
    \/ exists e, validate engine file config w = (Throw e, w')
                 /\ r = [Orchestrator.engineErrorFinding engine file e].

(** Engines that locate every finding they return at the file they were
    asked to validate. *)
Definition reportOnGivenFile {W : Type} (registry : list (ValidationEngine W))
    (config : LintConfig) : Prop :=
  forall engine file w fs w',
    engine ∈ registry ->
    validate engine file config w = (Ok fs, w') ->
    forall f, f ∈ fs -> filePath (location f) = file.

(** The comparator of a default [sort()]: code units, position by
    position. *)
Definition codeUnitCompare (a b : string) : Z :=
  match String.compare a b with
  | Lt => -1
  | Eq => 0
  | Gt => 1
  end.

End Ordering.

(** * Sample platforms and documents *)

Module Sample.
Import TemplateEngine.

Definition isUpperAscii (c : ascii) : bool :=
  let n := N_of_ascii c in ((65 <=? n) && (n <=? 90))%N.

Definition foldAscii (c : ascii) : N :=
  let n := N_of_ascii c in if isUpperAscii c then (n + 32)%N else n.

(** Primary level: letters compare without regard to case. *)
Fixpoint comparePrimary (a b : string) : comparison :=
  match a, b with
  | EmptyString, EmptyString => Eq
  | EmptyString, String _ _ => Lt
  | String _ _, EmptyString => Gt
  | String x a', String y b' =>
      match (foldAscii x ?= foldAscii y)%N with
      | Eq => comparePrimary a' b'
      | c => c
      end
  end.

(** Case level: at the first difference the lower-case letter comes first. *)
Fixpoint compareCase (a b : string) : comparison :=
  match a, b with
  | String x a', String y b' =>
      match isUpperAscii x, isUpperAscii y with
      | false, true => Lt
      | true, false => Gt
      | _, _ => compareCase a' b'
      end
  | _, _ => Eq
  end.

(** The default collation of [localeCompare] on strings made of ASCII
    letters, digits, hyphen, dot and slash: letters are first compared
    without regard to case, and only strings equal in that respect are
    told apart by case, lower case first. *)
Definition collate (a b : string) : Z :=
  match comparePrimary a b with
  | Lt => -1
  | Gt => 1
  | Eq => match compareCase a b with Lt => -1 | Gt => 1 | Eq => 0 end
  end.

Fixpoint revString (acc s : string) : string :=
  match s with
  | EmptyString => acc
  | String c rest => revString (String c acc) rest
  end.

Fixpoint dropSlashes (s : string) : string :=
  match s with
  | String "/" rest => dropSlashes rest
  | _ => s
  end.

(** Characters up to the first [stop], and what follows that character. *)
Fixpoint breakAt (stop : ascii) (s : string) : string * option string :=
  match s with
  | EmptyString => (EmptyString, None)
  | String c rest =>
      if Ascii.eqb c stop then (EmptyString, Some rest)
      else let '(before, after) := breakAt stop rest in (String c before, after)
  end.

Definition lastSegment (path : string) : string :=
  revString EmptyString (fst (breakAt "/" (dropSlashes (revString EmptyString path)))).

(** POSIX [path.extname]: from the last dot of the last segment, unless
    that dot opens the segment or the segment is [..]. *)
Definition extname (path : string) : string :=
  let base := lastSegment path in
  match breakAt "." (revString EmptyString base) with
  | (_, None) => EmptyString
  | (extReversed, Some stemReversed) =>
      if String.eqb stemReversed EmptyString || String.eqb base ".." then EmptyString
      else String "." (revString EmptyString extReversed)
  end.

Definition isAbsolute (path : string) : bool := startsWith path "/".

Definition basename (path ext : string) : string :=
  let base := lastSegment path in
  if endsWith base ext
  then substring 0 (String.length base - String.length ext) base
  else base.

Definition relative (from to : string) : string :=
  if startsWith to (from +:+ "/")
  then substring (S (String.length from)) (String.length to) to
  else to.

(** A platform over a fixed set of directories and JSON documents, whose
    glob expansion delivers [enumeration]. No environment override is set
    and no archive can be opened. *)
Definition platform (directories : list string) (documents : list (string * json))
    (enumeration : list string) : Platform :=
  {| localeCompare := collate;
     path_extname := extname;
     path_isAbsolute := isAbsolute;
     path_resolve := fun cwd rel => cwd +:+ "/" +:+ rel;
     path_join := join "/";
     path_basename := basename;
     path_relative := relative;
     process_cwd := "/repo";
     env_AAS_CI_LINT_TEMPLATE_DIR := None;
     os_homedir := "/home/ci";
     os_tmpdir := "/tmp";
     fs_isDirectory := fun d => existsb (String.eqb d) directories;
     fs_readJson := fun f => assoc f documents;
     fastGlob := fun _ _ => Ok enumeration;
     fs_mkdtemp := fun prefix => Ok (prefix +:+ "Ab12Cd");
     zip_extractAllTo := fun _ _ => Throw (ThrownError "Invalid or unsupported zip format") |}.

Definition config : LintConfig :=
  {| paths := ["**/*"]; exclude := None; failOn := [error];
     templateVersion := None; templateDir := None; basePath := None;
     engines := None |}.

Definition noOptions : TemplateEngineOptions := {| opt_templateDir := None |}.

(** A template with an optional element (cardinality [0..1]) that has a
    child, and a required element. *)
Definition optionalElement : json :=
  JObj [("idShort", JStr "Notes");
        ("qualifiers", JArr [JObj [("type", JStr "Cardinality"); ("value", JStr "0..1")]]);
        ("value", JArr [JObj [("idShort", JStr "Line")]])].

Definition requiredElement : json :=
  JObj [("idShort", JStr "Serial");
        ("semanticId", JObj [("keys", JArr [JObj [("value", JStr "urn:serial")]])])].


Definition templateDoc : json :=
  JObj [("submodels",
         JArr [JObj [("idShort", JStr "Nameplate");
                     ("semanticId", JStr "urn:nameplate");
                     ("submodelElements", JArr [optionalElement; requiredElement])]])].

(** An instance of that template, written with another form of the
    semantic identifier, that lacks the required element. *)
Definition instanceSubmodel : json :=
  JObj [("idShort", JStr "MyPlate");
        ("semanticId", JObj [("value", JStr "urn:nameplate")]);
        ("submodelElements", JArr [JObj [("idShort", JStr "Other")]])].

Definition instanceDoc : json := JObj [("submodels", JArr [instanceSubmodel])].

Definition templated : Platform :=
  platform ["/templates"]
    [("/templates/nameplate.json", templateDoc); ("/repo/plate.json", instanceDoc)]
    ["/templates/nameplate.json"].

Definition templatedConfig : LintConfig :=
  {| paths := ["**/*"]; exclude := None; failOn := [error];
     templateVersion := None; templateDir := Some "/templates"; basePath := None;
     engines := None |}.

(** Two template files that define the same semantic identifier with
    different required elements, enumerated in either order. *)
Definition templateA : json :=
  JObj [("submodels",
         JArr [JObj [("idShort", JStr "First"); ("semanticId", JStr "urn:x");
                     ("submodelElements", JArr [JObj [("idShort", JStr "A")]])]])].

Definition templateB : json :=
  JObj [("submodels",
         JArr [JObj [("idShort", JStr "Second"); ("semanticId", JStr "urn:x");
                     ("submodelElements", JArr [JObj [("idShort", JStr "B")]])]])].

Definition overlapping (enumeration : list string) : Platform :=
  platform ["/templates"]
    [("/templates/a.json", templateA); ("/templates/b.json", templateB)] enumeration.

(** Template checking asked for by version, with no directory to be
    found. *)
Definition pinnedConfig : LintConfig :=
  {| paths := ["**/*"]; exclude := None; failOn := [error];
     templateVersion := Some "IDTA-02006-2-0"; templateDir := None; basePath := None;
     engines := None |}.

(** Findings as an engine outside this repository may report them. *)
Definition finding (file : string) (line' : option Z) (rule text : string) : Finding :=
  {| ruleId := rule; ruleName := "Check"; severity := warning; message := text;
     location := {| filePath := file; internalPath := None; jsonPointer := None;
                    line := line'; column := None |};
     source := "external"; details := None |}.

Definition unlocated : Finding :=
  finding "/repo/a.json" None "external/check/one" "no position".

Definition farLine : Finding :=
  finding "/repo/a.json" (Some 9007199254740992) "external/check/one" "far away".

(** Engines without state. *)
Definition steady (engineName' : string) (result : list Finding) : ValidationEngine unit :=
  Build_ValidationEngine unit engineName' "returns fixed findings"
    (fun _ => true) (fun _ _ w => (Ok result, w)).

Definition broken : ValidationEngine unit :=
  Build_ValidationEngine unit "broken" "always throws"
    (fun _ => true) (fun _ _ w => (Throw (ThrownError "spawn ENOENT"), w)).

(** An engine that reports on the file it is given. *)
Definition local : ValidationEngine unit :=
  Build_ValidationEngine unit "local" "reports on the file it is given"
    (fun _ => true)
    (fun file _ w => (Ok [finding file (Some 3) "local/check/one" "here"], w)).

(** An engine that reports on files other than the one it is given. *)
Definition rogue : ValidationEngine unit :=
  steady "rogue"
    [finding "/elsewhere/x.json" None "rogue/check/one" "x";
     finding "/elsewhere/y.json" None "rogue/check/one" "y"].

Definition discoveryOptions : Discovery.DiscoveryOptions :=
  {| Discovery.d_basePath := "/repo"; Discovery.d_exclude := None;
     Discovery.d_followSymlinks := None |}.

End Sample.

(** * The engines' callers and the second engine *)

(** ** Further JavaScript primitives *)

Module JsText.

(** [s.split(sep)] for a separator of one code unit *)
Fixpoint splitOn (sep : ascii) (s : string) : list string :=
  match s with
  | EmptyString => [EmptyString]
  | String c rest =>
      if Ascii.eqb c sep then EmptyString :: splitOn sep rest
      else match splitOn sep rest with
           | h :: t => String c h :: t
           | [] => [String c EmptyString]
           end
  end.

(** White space dropped from the end: the string, or nothing when only
    white space is left. *)
Fixpoint trimEnd (s : string) : string :=
  match s with
  | EmptyString => EmptyString
  | String c rest =>
      match trimEnd rest with
      | EmptyString => if isSpace c then EmptyString else String c EmptyString
      | kept => String c kept
      end
  end.

(** [s.trim()] *)
Definition trim (s : string) : string := trimEnd (dropSpaces s).

(** The characters before the first one that satisfies [stop] *)
Fixpoint takeUntil (stop : ascii -> bool) (s : string) : string :=
  match s with
  | EmptyString => EmptyString
  | String c rest => if stop c then EmptyString else String c (takeUntil stop rest)
  end.

(** [ToInt32]: the value wrapped into the signed 32-bit range *)
Definition toInt32 (z : Z) : Z := (z + 2147483648) mod 4294967296 - 2147483648.

Definition hexDigit (n : Z) : ascii :=
  if n <? 10 then ascii_of_N (Z.to_N (48 + n)) else ascii_of_N (Z.to_N (87 + n)).

(** [n.toString(16)] for a non-negative integer; [digits] bounds the
    number of digits produced, and 16 digits cover every value below
    2^64. *)
Fixpoint toHex (digits : nat) (n : Z) : string :=
  match digits with
  | O => EmptyString
  | S digits' =>
      if n <? 16 then String (hexDigit n) EmptyString
      else toHex digits' (n / 16) +:+ String (hexDigit (n mod 16)) EmptyString
  end.

Fixpoint repeatChar (c : ascii) (n : nat) : string :=
  match n with
  | O => EmptyString
  | S n' => String c (repeatChar c n')
  end.

(** [s.padStart(width, c)] for a pad of one code unit *)
Definition padStart (width : nat) (c : ascii) (s : string) : string :=
  repeatChar c (width - String.length s) +:+ s.

End JsText.

(** ** The wrapper of the AAS test engines (engine-python/engine.ts) *)

Module AasTestEngines.
Import JsText.

Definition engineName : string := "aas-test-engines".

Record TestEngineViolation : Type := {
  v_message : string;
  v_level : option string;
  v_path : option string;
}.

Record TestEngineOutput : Type := {
  out_valid : bool;
  out_violations : option (list TestEngineViolation);
}.

Definition mapSeverity (level : option string) : Severity :=
  match level with
  | Some l =>
      if String.eqb l "error" then error
      else if String.eqb l "warning" then warning
      else if String.eqb l "info" then note
      else error
  | None => error
  end.

Definition generateRuleId (message' : string) : string :=
  let lowerMessage := toLowerCase message' in
  if includes lowerMessage "required" || includes lowerMessage "mandatory"
  then engineName +:+ "/constraint/required-property"
  else if includes lowerMessage "type" || includes lowerMessage "expected"
  then engineName +:+ "/constraint/type-mismatch"
  else if includes lowerMessage "semantic" || includes lowerMessage "reference"
  then engineName +:+ "/semantic/invalid-reference"
  else if includes lowerMessage "structure" || includes lowerMessage "invalid"
  then engineName +:+ "/structure/invalid-structure"
  else engineName +:+ "/validation/generic".

(** One of the characters of the class in the sentence pattern: full stop,
    exclamation mark, question mark. *)
Definition endsSentence (c : ascii) : bool :=
  Ascii.eqb c "." || Ascii.eqb c "!" || Ascii.eqb c "?".

Definition extractRuleName (message' : string) : string :=
  let firstSentence := takeUntil endsSentence message' in
  if (String.length firstSentence <=? 50)%nat then firstSentence
  else substring 0 47 firstSentence +:+ "...".

(** The callback of [violations.map] in [parseOutput]. *)
Definition violationFinding (file : string) (index : nat) (violation : TestEngineViolation)
  : Finding :=
  {| ruleId := generateRuleId (v_message violation);
     ruleName := extractRuleName (v_message violation);
     severity := mapSeverity (v_level violation);
     message := v_message violation;
     location := {| filePath := file; internalPath := None;
                    jsonPointer := v_path violation; line := None; column := None |};
     source := engineName;
     details := Some [("violationIndex", Some (JNum (Z.of_nat index)))] |}.

Definition parseOutput (output : TestEngineOutput) (file : string) : list Finding :=
  match out_violations output with
  | None => []
  | Some violations =>
      if out_valid output || (List.length violations =? 0)%nat then []
      else imap (violationFinding file) violations
  end.

Definition escapeChar : ascii := "027"%char.

Definition isParameter (c : ascii) : bool := isDigit c || Ascii.eqb c ";".

(** The longest run of digits and semicolons is passed over. *)
Fixpoint skipParameters (s : string) : string :=
  match s with
  | EmptyString => EmptyString
  | String c rest => if isParameter c then skipParameters rest else s
  end.

(** A match of the colour-code pattern (escape, opening bracket, digits
    and semicolons, the letter m) at the start of [s]: what follows it. *)
Definition codeAt (s : string) : option string :=
  match s with
  | String c0 (String c1 rest) =>
      if Ascii.eqb c0 escapeChar && Ascii.eqb c1 "["
      then match skipParameters rest with
           | String c2 rest' => if Ascii.eqb c2 "m" then Some rest' else None
           | EmptyString => None
           end
      else None
  | _ => None
  end.

(** The global replacement of the pattern by nothing: a match is dropped
    and the scan goes on behind it, any other character is kept. Every
    turn consumes a character, so the length of the text is fuel enough. *)
Fixpoint stripFrom (fuel : nat) (s : string) : string :=
  match fuel with
  | O => s
  | S fuel' =>
      match codeAt s with
      | Some rest => stripFrom fuel' rest
      | None =>
          match s with
          | EmptyString => EmptyString
          | String c rest => String c (stripFrom fuel' rest)
          end
      end
  end.

Definition stripAnsi (s : string) : string := stripFrom (String.length s) s.

(** A line that is empty or a section header *)
Definition skipped (trimmed : string) : bool :=
  negb (nonEmpty trimmed) || String.eqb trimmed "Check"
  || startsWith trimmed "Check " || startsWith trimmed "Skipped".

(** A line that reads like an issue *)
Definition reportsIssue (trimmed : string) : bool :=
  includes trimmed "@"
  || includes (toLowerCase trimmed) "not allowed"
  || includes (toLowerCase trimmed) "missing"
  || includes (toLowerCase trimmed) "invalid".

Definition lineFeed : ascii := "010"%char.

Definition parseTextOutput (output : string) : list TestEngineViolation :=
  let cleanOutput := stripAnsi output in
  let lines := splitOn lineFeed cleanOutput in
  flat_map
    (fun line' =>
       let trimmed := trim line' in
       if skipped trimmed then []
       else if reportsIssue trimmed
       then [{| v_message := trimmed; v_level := Some "error"; v_path := None |}]
       else [])
    lines.

(** What the subprocess did first: it could not be started, or it closed
    with an exit code (none when a signal ended it) and its two outputs. *)
Inductive ProcessResult : Type :=
| SpawnError (message' : string)
| Closed (code : option Z) (stdout stderr : string).

Section Engine.
Context {W : Type} (p : Platform).
(** [spawn(executable, args)] run to its first event. *)
Context (spawn : string -> list string -> ProcessResult).
(** [parseJsonOutput]: the probing of a text for a JSON payload, taken at
    its declared type. *)
Context (parseJsonOutput : string -> option TestEngineOutput).
Context (executablePath : string).

Definition canValidate (file : string) : bool :=
  existsb (String.eqb (toLowerCase (path_extname p file))) [".aasx"; ".json"; ".xml"].

Definition inputFormatOf (file : string) : string :=
  let ext := toLowerCase (path_extname p file) in
  if String.eqb ext ".xml" then "xml"
  else if String.eqb ext ".aasx" then "aasx"
  else "json".

Definition firstPayload (a b c : option TestEngineOutput) : option TestEngineOutput :=
  match a with
  | Some _ => a
  | None => match b with Some _ => b | None => c end
  end.

Definition invokeTestEngines (file : string) : outcome TestEngineOutput :=
  let args := ["check_file"; file; "--format"; inputFormatOf file] in
  match spawn executablePath args with
  | SpawnError reason =>
      Throw (ThrownError
        ("Failed to invoke aas_test_engines: " +:+ reason +:+ ". "
         +:+ "Is it installed? Run: pip install aas-test-engines"))
  | Closed code stdout stderr =>
      let combined := stdout +:+ String lineFeed EmptyString +:+ stderr in
      match firstPayload (parseJsonOutput combined) (parseJsonOutput stdout)
              (parseJsonOutput stderr) with
      | Some jsonOutput => Ok jsonOutput
      | None =>
          let violations := parseTextOutput combined in
          Ok {| out_valid :=
                  match code with
                  | Some n => (n =? 0) && (List.length violations =? 0)%nat
                  | None => false
                  end;
                out_violations := Some violations |}
      end
  end.

Definition validate (file : string) (_config : LintConfig) (w : W)
  : outcome (list Finding) * W :=
  match invokeTestEngines file with
  | Throw e => (Throw e, w)
  | Ok output => (Ok (parseOutput output file), w)
  end.

Definition engine : ValidationEngine W :=
  Build_ValidationEngine W engineName "Official AAS Test Engines (admin-shell-io)"
    canValidate validate.

End Engine.

End AasTestEngines.

(** ** SARIF (sarif/generator.ts) *)

Module Sarif.
Import JsText.

Record SarifRule : Type := {
  rule_id : string;
  rule_name : string;
  rule_shortDescription : string;
  rule_level : string;
}.

Record Region : Type := {
  startLine : Z;
  startColumn : option Z;
}.

Record SarifResult : Type := {
  res_ruleId : string;
  res_level : string;
  res_message : string;
  res_uri : string;
  res_uriBaseId : string;
  res_region : option Region;
  res_logicalLocations : option (list string);
  res_fingerprint : string;
}.

(** The object that [generateSarif] serializes. The start time of the run
    is a reading of the clock and is left out, as in [LintResult]. *)
Record SarifLog : Type := {
  log_schema : string;
  log_version : string;
  driver_name : string;
  driver_version : string;
  driver_informationUri : string;
  driver_rules : list SarifRule;
  run_results : list SarifResult;
  invocation_executionSuccessful : bool;
}.

Record SarifOptions : Type := {
  so_basePath : option string;
  so_informationUri : option string;
}.

Definition severityToSarifLevel (s : Severity) : string :=
  match s with
  | error => "error"
  | warning => "warning"
  | note => "note"
  end.

(** One turn of the loop of [generateFingerprint] *)
Definition hashStep (hash : Z) (c : ascii) : Z :=
  toInt32 (toInt32 (hash * 32) - hash + Z.of_N (N_of_ascii c)).

Fixpoint hashString (hash : Z) (str : string) : Z :=
  match str with
  | EmptyString => hash
  | String c rest => hashString (hashStep hash c) rest
  end.

Definition fingerprintParts (finding : Finding) : list string :=
  [ruleId finding;
   match jsonPointer (location finding) with
   | Some pointer => pointer
   | None =>
       match line (location finding) with
       | Some n => numberToString n
       | None => EmptyString
       end
   end;
   substring 0 100 (message finding)].

Definition generateFingerprint (finding : Finding) : string :=
  let hash := hashString 0 (join "::" (fingerprintParts finding)) in
  padStart 8 "0" (toHex 16 (Z.abs hash)).

(** [ruleMap.has(id)] and the rules in insertion order *)
Definition hasRule (rules : list SarifRule) (id' : string) : bool :=
  existsb (fun r => String.eqb (rule_id r) id') rules.

Definition ruleOf (finding : Finding) : SarifRule :=
  {| rule_id := ruleId finding;
     rule_name := ruleName finding;
     rule_shortDescription := ruleName finding;
     rule_level := severityToSarifLevel (severity finding) |}.

Definition collectRules (findings' : list Finding) : list SarifRule :=
  fold_left
    (fun rules finding =>
       if hasRule rules (ruleId finding) then rules else (rules ++ [ruleOf finding])%list)
    findings' [].

Section WithPlatform.
Context (p : Platform).
(** [path.sep] *)
Context (path_sep : ascii).

(** [s.split(path.sep).join('/')] *)
Definition toSlashes (s : string) : string := join "/" (splitOn path_sep s).

Definition extractRules (findings' : list Finding) : list SarifRule :=
  sort (fun a b => localeCompare p (rule_id a) (rule_id b)) (collectRules findings').

(** [path.relative] followed by the change of separators is
    [path_relative]; a path that is not absolute only has its separators
    changed. *)
Definition findingToSarifResult (finding : Finding) (basePath' : string) : SarifResult :=
  let file := filePath (location finding) in
  let relativeUri :=
    if path_isAbsolute p file then path_relative p basePath' file else toSlashes file in
  {| res_ruleId := ruleId finding;
     res_level := severityToSarifLevel (severity finding);
     res_message := message finding;
     res_uri := relativeUri;
     res_uriBaseId := "%SRCROOT%";
     res_region :=
       match line (location finding) with
       | Some n => Some {| startLine := n; startColumn := column (location finding) |}
       | None => None
       end;
     res_logicalLocations :=
       match jsonPointer (location finding) with
       | Some pointer => if nonEmpty pointer then Some [pointer] else None
       | None => None
       end;
     res_fingerprint := generateFingerprint finding |}.

Definition generateSarif (result : LintResult) (options : SarifOptions) : SarifLog :=
  let basePath' := default (process_cwd p) (so_basePath options) in
  let informationUri :=
    default "https://github.com/hadijannat/aas-ci-lint" (so_informationUri options) in
  {| log_schema := "https://raw.githubusercontent.com/oasis-tcs/sarif-spec/main/sarif-2.1/schema/sarif-schema-2.1.0.json";
     log_version := "2.1.0";
     driver_name := "aas-ci-lint";
     driver_version := metadata_version result;
     driver_informationUri := informationUri;
     driver_rules := extractRules (findings result);
     run_results := List.map (fun finding => findingToSarifResult finding basePath')
                      (findings result);
     invocation_executionSuccessful := true |}.

End WithPlatform.

End Sarif.

(** ** Command line (cli/cli.ts) *)

Module Cli.
Import JsText.

Record Options : Type := {
  o_sarif : option string;
  o_json : bool;
  o_failOn : string;
  o_exclude : option string;
  o_basePath : string;
  o_templateVersion : option string;
  o_templateDir : option string;
  o_template : option bool;
  o_color : option bool;
}.

Definition severityName (s : Severity) : string :=
  match s with
  | error => "error"
  | warning => "warning"
  | note => "note"
  end.

Definition severityNamed (s : string) : option Severity :=
  if String.eqb s "error" then Some error
  else if String.eqb s "warning" then Some warning
  else if String.eqb s "note" then Some note
  else None.

(** [text.split(',').map(s => s.trim())] *)
Definition commaList (text : string) : list string :=
  List.map trim (splitOn "," text).

Section WithPlatform.
Context (p : Platform) (path_sep : ascii).
Context (spawn : string -> list string -> AasTestEngines.ProcessResult).
Context (parseJsonOutput : string -> option AasTestEngines.TestEngineOutput).
(** [fs.writeFile(file, sarif)], the text given as the log it renders *)
Context (writeFile : string -> Sarif.SarifLog -> outcome unit).

Definition configOf (paths' : list string) (options : Options) : LintConfig :=
  {| paths := paths';
     exclude := option_map commaList (o_exclude options);
     failOn := omap severityNamed (commaList (o_failOn options));
     templateVersion := o_templateVersion options;
     templateDir := o_templateDir options;
     basePath := Some (o_basePath options);
     engines := None |}.

(** The orchestrator of a run with its engines registered: the wrapper
    with its default executable, and the template engine unless
    [--no-template] was given. *)
Definition registryOf (options : Options)
  : list (ValidationEngine TemplateEngine.EngineState) :=
  let registry :=
    Orchestrator.registerEngine []
      (AasTestEngines.engine p spawn parseJsonOutput "aas_test_engines") in
  if bool_decide (o_template options = Some false) then registry
  else Orchestrator.registerEngine registry
         (TemplateEngine.engine p
            {| TemplateEngine.opt_templateDir := o_templateDir options |}).

Definition lintOf (paths' : list string) (options : Options) : outcome LintResult :=
  fst (Orchestrator.lint p (registryOf options) (configOf paths' options)
         TemplateEngine.initialState).

(** [failOn.includes(f.severity)] for some finding *)
Definition hasFailingFindings (failOn' : list string) (result : LintResult) : bool :=
  existsb (fun f => existsb (String.eqb (severityName (severity f))) failOn')
    (findings result).

(** [run]: the exit code. What is printed is left out. The names given to
    [--fail-on] are compared with the severities of the findings as they
    are; a name that is no severity has no counterpart in the [failOn] of
    the configuration, which is only kept as a record. *)
Definition run (paths' : list string) (options : Options) : outcome Z :=
  let failOn' := commaList (o_failOn options) in
  match lintOf paths' options with
  | Throw e => Throw e
  | Ok result =>
      let written :=
        match o_sarif options with
        | Some file =>
            if nonEmpty file
            then writeFile file
                   (Sarif.generateSarif p path_sep result
                      {| Sarif.so_basePath := Some (o_basePath options);
                         Sarif.so_informationUri := None |})
            else Ok tt
        | None => Ok tt
        end in
      match written with
      | Throw e => Throw e
      | Ok _ => Ok (if hasFailingFindings failOn' result then 1 else 0)
      end
  end.

(** The action of the command: the code the process exits with. *)
Definition exitCode (paths' : list string) (options : Options) : Z :=
  match run paths' options with
  | Ok code => code
  | Throw _ => 2
  end.

End WithPlatform.

End Cli.

(** * Further vocabulary and sample inputs *)

Module SarifVocabulary.

(** A digit or one of the letters a to f *)
Definition isLowerHex (c : ascii) : bool :=
  let n := N_of_ascii c in
  isDigit c || ((97 <=? n) && (n <=? 102))%N.

(** [f] is the first finding of [l] that has its rule identifier. *)
Definition firstOfItsRule (l : list Finding) (f : Finding) : Prop :=
  exists before after,
    l = (before ++ f :: after)%list /\ forall g, g ∈ before -> ruleId g <> ruleId f.

(** The rules collected from the findings read so far: no identifier
    twice, a rule for every finding, each rule made from the first finding
    of its identifier. *)
Definition covers (pre : list Finding) (acc : list Sarif.SarifRule) : Prop :=
  NoDup (List.map Sarif.rule_id acc)
  /\ (forall f, f ∈ pre -> exists r, r ∈ acc /\ Sarif.rule_id r = ruleId f)
  /\ (forall r, r ∈ acc -> exists f, firstOfItsRule pre f /\ r = Sarif.ruleOf f).

(** The range of a signed 32-bit integer *)
Definition int32 (z : Z) : Prop := -2147483648 <= z < 2147483648.

End SarifVocabulary.


Module Provenance.

(** The finding [f] was obtained for [file] from an engine of [registry]
    that the configuration leaves enabled and that accepts the file:
    either the engine returned it or it reports the engine's failure. *)
Definition producedBy {W : Type} (registry : list (ValidationEngine W))
    (config : LintConfig) (file : string) (f : Finding) : Prop :=
  exists engine r,
    engine ∈ registry
    /\ Orchestrator.enabled config engine = true
    /\ canValidate engine file = true
    /\ Ordering.contributionOf file config engine r
    /\ f ∈ r.

End Provenance.

Module WalkVocabulary.
Import TemplateEngine Requiredness.

(** [chain] lists the ancestors of [element] below the top-level elements
    [roots], outermost first; every ancestor is an array or an object. *)
Fixpoint reaches (roots : list json) (chain : list json) (element : json) : Prop :=
  match chain with
  | [] => element ∈ roots
  | ancestor :: rest =>
      ancestor ∈ roots
      /\ truthy ancestor = true /\ typeofObject ancestor = true
      /\ reaches (extractChildElements ancestor) rest element
  end.

(** [path] is the idShort path of an element of the tree below [roots]:
    the idShorts of its ancestors and its own, joined by slashes. *)
Definition isIdShortPathOf (roots : list json) (path : string) : Prop :=
  exists chain element s,
    reaches roots chain element
    /\ usable (asString (get element "idShort")) = Some s
    /\ path = join "/" (flat_map idSegment chain ++ [s])%list.

(** [path] is the semantic path of an element of the tree below [roots]. *)
Definition isSemanticPathOf (roots : list json) (path : string) : Prop :=
  exists chain element s,
    reaches roots chain element
    /\ usable (getSemanticIdValue (get element "semanticId")) = Some s
    /\ path = join "/" (flat_map semanticSegment chain ++ [s])%list.

End WalkVocabulary.

Module EngineRuns.
Import TemplateEngine.

(** One engine instance asked to validate several files in turn, as the
    orchestrator does during a run: the outcome of each call, and the
    state of the engine after the last. *)
Fixpoint validateEach (p : Platform) (options : TemplateEngineOptions)
    (config : LintConfig) (files : list string) (st : EngineState)
  : list (outcome (list Finding)) * EngineState :=
  match files with
  | [] => ([], st)
  | file :: rest =>
      let '(r, st1) := validate p options file config st in
      let '(rs, st2) := validateEach p options config rest st1 in
      (r :: rs, st2)
  end.

(** The findings among the outcomes. *)
Definition returned (outcomes : list (outcome (list Finding))) : list Finding :=
  flat_map (fun r => match r with Ok fs => fs | Throw _ => [] end) outcomes.

End EngineRuns.

Module IndexVocabulary.
Import TemplateEngine.

(** [file] is read when indexing with the given version filter: it is
    enumerated, its path contains the pinned version if one is pinned, and
    it holds a document with a [submodels] array. *)
Definition isTemplateFile (p : Platform) (version : option string) (files : list string)
    (file : string) (submodels : list json) : Prop :=
  file ∈ files
  /\ (forall v, normalizeVersion version = Some v -> includes file v = true)
  /\ exists data,
       fs_readJson p file = Some data /\ truthy data = true
       /\ get data "submodels" = Some (JArr submodels).

(** The entry [spec] stored under [k] was made from a submodel of a
    template file that carries the semantic identifier [k]. *)
Definition indexedFrom (p : Platform) (version : option string) (files : list string)
    (k : string) (spec : TemplateSpec) : Prop :=
  id spec = k
  /\ nonEmpty k = true
  /\ exists submodels submodel,
       isTemplateFile p version files (sourcePath spec) submodels
       /\ submodel ∈ submodels
       /\ usable (getSemanticIdValue (get submodel "semanticId")) = Some k
       /\ tname spec = get submodel "idShort"
       /\ requiredIdShortPaths spec
          = idShort (collectTemplatePaths (arrayOrEmpty (get submodel "submodelElements")))
       /\ requiredSemanticPaths spec
          = semantic (collectTemplatePaths (arrayOrEmpty (get submodel "submodelElements"))).

(** Every entry of an index was made that way. *)
Definition wellIndexed (p : Platform) (version : option string) (files : list string)
    (idx : gmap string TemplateSpec) : Prop :=
  forall k spec, idx !! k = Some spec -> indexedFrom p version files k spec.

End IndexVocabulary.

Module Cases.

(** A platform like [Sample.platform] whose collation is the code-unit
    order. *)
Definition ordered (directories : list string) (documents : list (string * json))
    (enumeration : list string) : Platform :=
  let base := Sample.platform directories documents enumeration in
  {| localeCompare := Ordering.codeUnitCompare;
     path_extname := path_extname base;
     path_isAbsolute := path_isAbsolute base;
     path_resolve := path_resolve base;
     path_join := path_join base;
     path_basename := path_basename base;
     path_relative := path_relative base;
     process_cwd := process_cwd base;
     env_AAS_CI_LINT_TEMPLATE_DIR := env_AAS_CI_LINT_TEMPLATE_DIR base;
     os_homedir := os_homedir base;
     os_tmpdir := os_tmpdir base;
     fs_isDirectory := fs_isDirectory base;
     fs_readJson := fs_readJson base;
     fastGlob := fastGlob base;
     fs_mkdtemp := fs_mkdtemp base;
     zip_extractAllTo := zip_extractAllTo base |}.

Definition mixed : list Finding :=
  [Sample.finding "/repo/b.json" None "external/check/one" "b";
   Sample.finding "/repo/a.json" None "external/check/two" "late";
   Sample.finding "/repo/a.json" (Some 7) "external/check/two" "seven";
   Sample.finding "/repo/a.json" (Some 7) "external/check/one" "seven";
   Sample.finding "/repo/a.json" (Some 7) "external/check/two" "seven"].

(** What extracting the sample package leaves on disk: an environment at
    the canonical place. *)
Definition extracted : ExtractedTree :=
  {| tree_access := String.eqb "/tmp/aas-ci-lint-Ab12Cd/model/aasx/aas-environment.json";
     tree_readdir := fun _ => None;
     tree_readJson := fun f =>
       if String.eqb f "/tmp/aas-ci-lint-Ab12Cd/model/aasx/aas-environment.json"
       then Some Sample.instanceDoc else None |}.

(** A platform like [Sample.templated] on which packages can be opened. *)
Definition packaged : Platform :=
  let base := Sample.templated in
  {| localeCompare := localeCompare base;
     path_extname := path_extname base;
     path_isAbsolute := path_isAbsolute base;
     path_resolve := path_resolve base;
     path_join := path_join base;
     path_basename := path_basename base;
     path_relative := path_relative base;
     process_cwd := process_cwd base;
     env_AAS_CI_LINT_TEMPLATE_DIR := env_AAS_CI_LINT_TEMPLATE_DIR base;
     os_homedir := os_homedir base;
     os_tmpdir := os_tmpdir base;
     fs_isDirectory := fs_isDirectory base;
     fs_readJson := fs_readJson base;
     fastGlob := fastGlob base;
     fs_mkdtemp := fs_mkdtemp base;
     zip_extractAllTo := fun _ _ => Ok extracted |}.

(** The tool run on a file: it prints a header and one issue, without
    colours or JSON, and exits with success. *)
Definition printing : string -> list string -> AasTestEngines.ProcessResult :=
  fun _ _ =>
    AasTestEngines.Closed (Some 0)
      ("Check meta model" +:+ String AasTestEngines.lineFeed
         "  Property idShort is missing @ /submodels/0")
      EmptyString.

(** The tool is not installed. *)
Definition absent : string -> list string -> AasTestEngines.ProcessResult :=
  fun _ _ => AasTestEngines.SpawnError "spawn aas_test_engines ENOENT".

(** No text holds a JSON payload. *)
Definition noPayload : string -> option AasTestEngines.TestEngineOutput :=
  fun _ => None.

(** The command run with its defaults in [/repo]. *)
Definition defaults : Cli.Options :=
  {| Cli.o_sarif := None; Cli.o_json := false; Cli.o_failOn := "error";
     Cli.o_exclude := None; Cli.o_basePath := "/repo";
     Cli.o_templateVersion := None; Cli.o_templateDir := None;
     Cli.o_template := None; Cli.o_color := None |}.

Definition writable : string -> Sarif.SarifLog -> outcome unit := fun _ _ => Ok tt.

(** A directory in which discovery finds one XML file. *)
Definition oneFile : Platform := Sample.platform [] [] ["/repo/a.xml"].

End Cases.

(** * Properties *)

(** ** Lists *)

Module ListFacts.

Lemma elem_of_List_filter {A : Type} (f : A -> bool) (l : list A) (x : A) :
  x ∈ List.filter f l <-> f x = true /\ x ∈ l.
Proof. rewrite !list_elem_of_In, filter_In. tauto. Qed.

Lemma elem_of_List_map {A B : Type} (f : A -> B) (l : list A) (y : B) :
  y ∈ List.map f l <-> exists x, y = f x /\ x ∈ l.
Proof.
  rewrite list_elem_of_In, in_map_iff. split; intros (x & H1 & H2); exists x.
  - split; [done | by apply list_elem_of_In].
  - split; [done | by apply list_elem_of_In].
Qed.

Lemma elem_of_concat {A : Type} (ls : list (list A)) (x : A) :
  x ∈ concat ls <-> exists l, l ∈ ls /\ x ∈ l.
Proof.
  rewrite list_elem_of_In, in_concat. split; intros (l & H1 & H2); exists l.
  - split; by apply list_elem_of_In.
  - split; by apply list_elem_of_In.
Qed.

End ListFacts.

(** ** Insertion-ordered sets *)

Module SetFacts.
Import TemplateEngine.

Lemma setHas_true (s : list string) (x : string) : setHas s x = true <-> x ∈ s.
Proof.
  unfold setHas. rewrite existsb_exists. split.
  - intros (y & Hy & Heq). apply String.eqb_eq in Heq. subst y.
    by apply list_elem_of_In.
  - intros Hx. exists x. split; [by apply list_elem_of_In | apply String.eqb_refl].
Qed.

Lemma setHas_false (s : list string) (x : string) : setHas s x = false <-> x ∉ s.
Proof.
  rewrite <- setHas_true. destruct (setHas s x); split; congruence.
Qed.

Lemma setAdd_has (s : list string) (x : string) : x ∈ setAdd s x.
Proof.
  unfold setAdd. destruct (setHas s x) eqn:E.
  - by apply setHas_true.
  - apply elem_of_app. right. by apply list_elem_of_singleton.
Qed.

Lemma setAdd_keeps (s : list string) (x y : string) : y ∈ s -> y ∈ setAdd s x.
Proof.
  intros Hy. unfold setAdd. destruct (setHas s x); [done |].
  apply elem_of_app. by left.
Qed.

Lemma setAdd_NoDup (s : list string) (x : string) : NoDup s -> NoDup (setAdd s x).
Proof.
  intros Hs. unfold setAdd. destruct (setHas s x) eqn:E; [done |].
  apply NoDup_app. split; [done |]. split.
  - intros y Hy Hin. apply list_elem_of_singleton in Hin. subst y.
    by apply setHas_false in E.
  - apply NoDup_singleton.
Qed.

End SetFacts.

(** ** Semantic identifiers *)

Module SemanticId.
Import TemplateEngine SemanticIdForms.

Lemma nonEmpty_true (s : string) : nonEmpty s = true <-> s <> EmptyString.
Proof.
  unfold nonEmpty. rewrite negb_true_iff. split.
  - intros H Heq. subst s. discriminate.
  - intros H. apply String.eqb_neq. exact H.
Qed.

Lemma getSemanticIdValue_form (X : string) (v : json) :
  X <> EmptyString -> formOf X v -> getSemanticIdValue (Some v) = Some X.
Proof.
  intros HX Hform. apply nonEmpty_true in HX.
  destruct Hform as [| fields Hv | fields keys key Hnv Hk Hfind Hkey]; simpl.
  - unfold nonEmpty in HX. by rewrite HX.
  - by rewrite Hv.
  - rewrite Hnv, Hk, Hfind, Hkey. reflexivity.
Qed.

Lemma usable_form (X : string) (v : json) :
  X <> EmptyString -> formOf X v -> usable (getSemanticIdValue (Some v)) = Some X.
Proof.
  intros HX Hform. rewrite (getSemanticIdValue_form X v HX Hform). simpl.
  apply nonEmpty_true in HX. by rewrite HX.
Qed.

End SemanticId.

(** ** Requiredness in the template walk *)

Module RequirednessFacts.
Import TemplateEngine Requiredness SetFacts.

Lemma included_refl (a : PathSets) : included a a.
Proof. split; auto. Qed.

Lemma included_trans (a b c : PathSets) : included a b -> included b c -> included a c.
Proof. intros [H1 H2] [H3 H4]. split; auto. Qed.






Section Inflationary.
Context (descend : list json -> list string -> list string -> bool -> PathSets -> PathSets).
Hypothesis descend_included :
  forall children ids sems required ps, included ps (descend children ids sems required ps).

Lemma visit_included ids sems parentRequired requiredOnly pathSets element :
  included pathSets
    (visitElement descend ids sems parentRequired requiredOnly pathSets element).
Proof.
  unfold visitElement.
  destruct (negb (truthy element) || negb (typeofObject element)); [apply included_refl |].
  set (added := if negb requiredOnly || _ then _ else pathSets).
  assert (Hadd : included pathSets added).
  { subst added. destruct (negb requiredOnly || _); [| apply included_refl].
    split; simpl; intros x Hx.
    - destruct (usable (asString _)); [by apply setAdd_keeps | done].
    - destruct (usable (getSemanticIdValue _)); [by apply setAdd_keeps | done]. }
  destruct (0 <? _)%nat; [| exact Hadd].
  eapply included_trans; [exact Hadd | apply descend_included].
Qed.

Lemma fold_visit_included ids sems parentRequired requiredOnly elements :
  forall pathSets,
    included pathSets
      (fold_left (visitElement descend ids sems parentRequired requiredOnly)
         elements pathSets).
Proof.
  induction elements as [| element rest IH]; intros pathSets; [apply included_refl |].
  simpl. eapply included_trans; [apply visit_included | apply IH].
Qed.

(** A visited element that is required leaves its two paths in the sets. *)
Lemma visit_adds ids sems requiredOnly pathSets element :
  truthy element = true -> typeofObject element = true ->
  (requiredOnly = true -> isRequired element = true) ->
  let result := visitElement descend ids sems true requiredOnly pathSets element in
  (forall s, usable (asString (get element "idShort")) = Some s ->
             join "/" (ids ++ [s]) ∈ idShort result)
  /\ (forall s, usable (getSemanticIdValue (get element "semanticId")) = Some s ->
                join "/" (sems ++ [s]) ∈ semantic result).
Proof.
  intros Ht Ho Hreq. unfold visitElement. rewrite Ht, Ho. simpl.
  assert (Hcond : negb requiredOnly || (if requiredOnly then isRequired element else true) = true).
  { destruct requiredOnly; [by rewrite Hreq | reflexivity]. }
  rewrite Hcond.
  split; intros s Hs'; rewrite Hs'.
  - destruct (0 <? _)%nat; [apply descend_included |]; simpl; apply setAdd_has.
  - destruct (0 <? _)%nat; [apply descend_included |]; simpl; apply setAdd_has.
Qed.

End Inflationary.

Lemma collect_included (fuel : nat) :
  forall elements ids sems required pathSets requiredOnly,
    included pathSets
      (collectPathsRecursive fuel elements ids sems required pathSets requiredOnly).
Proof.
  induction fuel as [| fuel IH]; intros; [apply included_refl |].
  simpl. apply fold_visit_included. intros. apply IH.
Qed.

End RequirednessFacts.

(** ** The walk never exhausts the depth it is given *)

Module WalkDepth.
Import TemplateEngine.

Lemma depthAll_bound (items : list json) (n : nat) :
  (forall c, c ∈ items -> (depth c <= n)%nat) -> (depthAll items <= n)%nat.
Proof.
  induction items as [| i rest IH]; intros H; simpl; [lia |].
  apply Nat.max_lub.
  - apply H. by left.
  - apply IH. intros c Hc. apply H. by right.
Qed.

Lemma depthAll_elem (items : list json) (c : json) :
  c ∈ items -> (depth c <= depthAll items)%nat.
Proof.
  induction items as [| i rest IH]; intros Hc.
  - by apply elem_of_nil in Hc.
  - apply elem_of_cons in Hc as [-> | Hc]; simpl; [lia |].
    specialize (IH Hc). lia.
Qed.

Lemma depth_assoc (k : string) (fields : list (string * json)) (v : json) :
  assoc k fields = Some v -> (depth v < depth (JObj fields))%nat.
Proof.
  simpl. induction fields as [| [k' v'] rest IH]; simpl; [discriminate |].
  destruct (String.eqb k k').
  - intros [= ->]. lia.
  - intros H. specialize (IH H). lia.
Qed.

Lemma depth_get (element : json) (k : string) (v : json) :
  get element k = Some v -> (depth v < depth element)%nat.
Proof. destruct element; simpl; try discriminate. apply depth_assoc. Qed.

Lemma depth_item (items : list json) (c : json) :
  c ∈ items -> (depth c < depth (JArr items))%nat.
Proof. intros Hc. apply depthAll_elem in Hc. simpl. unfold depthAll in Hc. lia. Qed.

Lemma depth_arrayOrEmpty (element : json) (k : string) (c : json) :
  c ∈ arrayOrEmpty (get element k) -> (depth c < depth element)%nat.
Proof.
  destruct (get element k) as [[| | | | items |] |] eqn:E; simpl; intros Hc;
    try by apply elem_of_nil in Hc.
  apply depth_get in E. apply depth_item in Hc. lia.
Qed.

Lemma depth_variableChild (variable c : json) :
  c ∈ variableChild variable -> (depth c < depth variable)%nat.
Proof.
  unfold variableChild. destruct (get variable "value") as [v |] eqn:E.
  - destruct (truthy v && typeofObject v); intros Hc.
    + apply list_elem_of_singleton in Hc. subst c. by apply depth_get in E.
    + by apply elem_of_nil in Hc.
  - intros Hc. by apply elem_of_nil in Hc.
Qed.

Lemma depth_child (element c : json) :
  c ∈ extractChildElements element -> (depth c < depth element)%nat.
Proof.
  unfold extractChildElements. rewrite elem_of_app. intros [H | H].
  - apply list_elem_of_In, in_flat_map in H as (k & _ & H).
    apply list_elem_of_In in H. by apply depth_arrayOrEmpty in H.
  - apply list_elem_of_In, in_flat_map in H as (k & _ & H).
    apply in_flat_map in H as (variable & Hv & H).
    apply list_elem_of_In in Hv, H.
    apply depth_arrayOrEmpty in Hv. apply depth_variableChild in H. lia.
Qed.

Lemma depthAll_children (element : json) :
  (0 < List.length (extractChildElements element))%nat ->
  (depthAll (extractChildElements element) < depth element)%nat.
Proof.
  intros Hlen.
  destruct (extractChildElements element) as [| c rest] eqn:E; [simpl in Hlen; lia |].
  assert (Hc : (depth c < depth element)%nat).
  { apply depth_child. rewrite E. by left. }
  assert (H : (depthAll (c :: rest) <= depth element - 1)%nat).
  { apply depthAll_bound. intros c' Hc'. rewrite <- E in Hc'.
    apply depth_child in Hc'. lia. }
  lia.
Qed.

Lemma fold_left_agree {A B : Type} (f g : A -> B -> A) (l : list B) :
  (forall x, x ∈ l -> forall a, f a x = g a x) ->
  forall a, fold_left f l a = fold_left g l a.
Proof.
  induction l as [| x rest IH]; intros H a; [reflexivity |].
  simpl. rewrite (H x); [| by left]. apply IH. intros y Hy. apply H. by right.
Qed.

(** Any two depths above the nesting of the elements give the same walk:
    the depth supplied by the entry points is never used up. *)
Lemma collectPathsRecursive_enough (fuel : nat) :
  forall fuel' elements ids sems required pathSets requiredOnly,
    (depthAll elements < fuel)%nat -> (depthAll elements < fuel')%nat ->
    collectPathsRecursive fuel elements ids sems required pathSets requiredOnly
    = collectPathsRecursive fuel' elements ids sems required pathSets requiredOnly.
Proof.
  induction fuel as [| fuel IH]; intros fuel' elements ids sems required pathSets
    requiredOnly H1 H2; [lia |].
  destruct fuel' as [| fuel']; [lia |].
  simpl. apply fold_left_agree. intros element Hin ps.
  unfold visitElement.
  destruct (negb (truthy element) || negb (typeofObject element)); [reflexivity |].
  destruct (0 <? _)%nat eqn:Hlen; [| reflexivity].
  apply Nat.ltb_lt in Hlen. apply depthAll_children in Hlen.
  apply depthAll_elem in Hin.
  apply IH; lia.
Qed.

End WalkDepth.

(** ** Elements below required ancestors *)

Module ChainFacts.
Import TemplateEngine Requiredness RequirednessFacts SetFacts WalkDepth.




End ChainFacts.

(** ** Template index and matching *)

Module IndexFacts.
Import TemplateEngine SemanticIdForms SemanticId.

(** Registering a submodel never replaces an entry. *)
Lemma indexSubmodel_keeps (file : string) (index' : gmap string TemplateSpec)
    (submodel : json) (k : string) (spec : TemplateSpec) :
  index' !! k = Some spec -> indexSubmodel file index' submodel !! k = Some spec.
Proof.
  intros Hk. unfold indexSubmodel.
  destruct (usable _) as [templateId |]; [| done].
  destruct (index' !! templateId) eqn:E; [done |].
  rewrite lookup_insert_ne; [done |]. intros ->. congruence.
Qed.

Lemma indexSubmodels_keep (file : string) (submodels : list json) :
  forall (index' : gmap string TemplateSpec) (k : string) (spec : TemplateSpec),
    index' !! k = Some spec ->
    fold_left (indexSubmodel file) submodels index' !! k = Some spec.
Proof.
  induction submodels as [| sm rest IH]; intros index' k spec Hk; [done |].
  simpl. apply IH. by apply indexSubmodel_keeps.
Qed.

Lemma indexFile_keeps (p : Platform) (version : option string)
    (index' : gmap string TemplateSpec) (file k : string) (spec : TemplateSpec) :
  index' !! k = Some spec -> indexFile p version index' file !! k = Some spec.
Proof.
  intros Hk. unfold indexFile.
  destruct (match version with Some v => _ | None => _ end); [done |].
  destruct (safeReadJson p file) as [data |]; [| done].
  destruct (negb (truthy data)); [done |].
  destruct (get data "submodels") as [[| | | | submodels |] |]; try done.
  by apply indexSubmodels_keep.
Qed.

(** First occurrence wins: an entry made while indexing a prefix of the
    enumeration survives the rest of it. *)
Lemma indexFiles_first_wins (p : Platform) (version : option string) (files : list string) :
  forall (index' : gmap string TemplateSpec) (k : string) (spec : TemplateSpec),
    index' !! k = Some spec ->
    fold_left (indexFile p version) files index' !! k = Some spec.
Proof.
  induction files as [| f rest IH]; intros index' k spec Hk; [done |].
  simpl. apply IH. by apply indexFile_keeps.
Qed.

Lemma indexSubmodel_registers (file : string) (index' : gmap string TemplateSpec)
    (submodel : json) (X : string) :
  usable (getSemanticIdValue (get submodel "semanticId")) = Some X ->
  exists spec, indexSubmodel file index' submodel !! X = Some spec
    /\ (index' !! X = None -> id spec = X /\ sourcePath spec = file).
Proof.
  intros HX. unfold indexSubmodel. rewrite HX.
  destruct (index' !! X) as [old |] eqn:E.
  - exists old. split; [done | discriminate].
  - eexists. rewrite lookup_insert_eq. split; [reflexivity |]. intros _. by split.
Qed.

End IndexFacts.

(** ** Claims about the template conformance engine *)

Module TemplateClaims.
Import TemplateEngine SemanticIdForms SemanticId Requiredness RequirednessFacts
  SetFacts IndexFacts Ordering ListFacts ChainFacts.



(** C5, the input at which it fails: the empty identifier written bare is
    read as no identifier, written as an object with a [value] field it is
    read as the empty string. *)
Lemma semantic_id_empty_forms_differ :
  getSemanticIdValue (Some (JStr EmptyString)) = None
  /\ getSemanticIdValue (Some (JObj [("value", JStr EmptyString)])) = Some EmptyString.
Proof. split; reflexivity. Qed.

(** C5, amended. For every non-empty identifier [X], the bare string, an
    object whose [value] is [X], and a reference whose first key with a
    string value carries [X] are all read as [X]; so a template registered
    from a submodel that uses one form is the template matched for an
    instance submodel that uses any other. *)
Theorem semantic_id_forms_agree (X : string) (v1 v2 : json) :
  X <> EmptyString -> formOf X v1 -> formOf X v2 ->
  getSemanticIdValue (Some v1) = Some X
  /\ getSemanticIdValue (Some v2) = Some X
  /\ forall file index' template instance,
       get template "semanticId" = Some v1 ->
       get instance "semanticId" = Some v2 ->
       is_Some (indexSubmodel file index' template !! X)
       /\ matchTemplate (indexSubmodel file index' template) instance
          = indexSubmodel file index' template !! X.
Proof.
  intros HX H1 H2.
  split; [by apply getSemanticIdValue_form |].
  split; [by apply getSemanticIdValue_form |].
  intros file index' template instance Ht Hi. split.
  - destruct (indexSubmodel_registers file index' template X) as (spec & Hspec & _).
    + rewrite Ht. by apply usable_form.
    + by exists spec.
  - unfold matchTemplate. rewrite Hi. by rewrite (usable_form X v2 HX H2).
Qed.

Lemma semantic_id_forms_agree_witness :
  getSemanticIdValue (Some (JStr "urn:nameplate")) = Some "urn:nameplate"
  /\ getSemanticIdValue
       (Some (JObj [("keys", JArr [JObj [("type", JStr "GlobalReference")];
                                   JObj [("value", JStr "urn:nameplate")]])]))
     = Some "urn:nameplate".
Proof.
  assert (Hne : "urn:nameplate" <> EmptyString) by discriminate.
  assert (Hkeys : formOf "urn:nameplate"
            (JObj [("keys", JArr [JObj [("type", JStr "GlobalReference")];
                                  JObj [("value", JStr "urn:nameplate")]])])).
  { eapply form_keys; reflexivity. }
  pose proof (semantic_id_forms_agree "urn:nameplate" _ _ Hne
                (form_bare "urn:nameplate") Hkeys) as (Ha & Hb & _).
  split; [exact Ha | exact Hb].
Defined.

(** *** Per-file validation *)

Lemma validate_resolved (p : Platform) (options : TemplateEngineOptions)
    (file dir : string) (config : LintConfig) (st st' : EngineState)
    (index' : gmap string TemplateSpec) :
  usable (resolveTemplateDir p options config) = Some dir ->
  ensureTemplateIndex p dir config st = Ok (index', st') ->
  validate p options file config st =
    if (size index' =? 0)%nat then (Ok [], st')
    else match loadEnvironment p file with
         | Throw e => (Throw e, st')
         | Ok None => (Ok [], st')
         | Ok (Some (data, internalPath')) =>
             (Ok (checkSubmodels index' file internalPath'
                    (arrayOrEmpty (get data "submodels"))), st')
         end.
Proof. intros Hdir Hidx. unfold validate. by rewrite Hdir, Hidx. Qed.




Lemma elem_of_checkSubmodel index' file ip i submodel finding :
  finding ∈ checkSubmodel index' file ip i submodel <->
  exists template rp,
    matchTemplate index' submodel = Some template
    /\ (rp ∈ requiredIdShortPaths template \/ rp ∈ requiredSemanticPaths template)
    /\ missingFrom (collectInstancePaths (arrayOrEmpty (get submodel "submodelElements")))
         rp = true
    /\ finding = missingElementFinding file ip i template rp.
Proof.
  unfold checkSubmodel. destruct (matchTemplate index' submodel) as [template |].
  - rewrite elem_of_app, !elem_of_List_map. split.
    + intros [(rp & -> & Hrp) | (rp & -> & Hrp)];
        apply elem_of_List_filter in Hrp as [Hmiss Hrp];
        exists template, rp; tauto.
    + intros (t & rp & [= <-] & [Hrp | Hrp] & Hmiss & ->); [left | right];
        exists rp; (split; [done |]); by apply elem_of_List_filter.
  - split; [intros H; by apply elem_of_nil in H |].
    intros (t & rp & Hno & _). discriminate.
Qed.

Lemma elem_of_checkSubmodels index' file ip submodels finding :
  finding ∈ checkSubmodels index' file ip submodels <->
  exists i submodel,
    submodels !! i = Some submodel /\ finding ∈ checkSubmodel index' file ip i submodel.
Proof.
  unfold checkSubmodels. rewrite elem_of_concat. split.
  - intros (l & Hl & Hin). apply elem_of_lookup_imap in Hl as (i & submodel & -> & Hi).
    by exists i, submodel.
  - intros (i & submodel & Hi & Hin). exists (checkSubmodel index' file ip i submodel).
    split; [| done]. by apply elem_of_lookup_imap_2.
Qed.




(** C10. A path with extension [.xml] (in any letter case) is accepted by
    [canValidate]; yet once a template directory is resolved and the index
    built for it is not empty, [validate] returns no findings for it,
    because [loadEnvironment] yields nothing for XML. Whatever the
    configuration, the findings returned for such a path are none or the
    one templates-not-found note, never a missing-element finding. *)
Theorem xml_accepted_but_never_checked (p : Platform) (options : TemplateEngineOptions)
    (file : string) :
  toLowerCase (path_extname p file) = ".xml" ->
  canValidate p file = true
  /\ loadEnvironment p file = Ok None
  /\ (forall config st dir index' st',
       usable (resolveTemplateDir p options config) = Some dir ->
       ensureTemplateIndex p dir config st = Ok (index', st') ->
       size index' <> 0%nat ->
       validate p options file config st = (Ok [], st'))
  /\ (forall config st fs st',
       validate p options file config st = (Ok fs, st') ->
       fs = [] \/ fs = [templatesNotFoundFinding file]).
Proof.
  intros Hext.
  assert (Henv : loadEnvironment p file = Ok None).
  { unfold loadEnvironment. by rewrite Hext. }
  split; [unfold canValidate; by rewrite Hext |].
  split; [exact Henv |]. split.
  - intros config st dir index' st' Hdir Hidx Hsize.
    rewrite (validate_resolved p options file dir config st st' index' Hdir Hidx).
    apply Nat.eqb_neq in Hsize. by rewrite Hsize, Henv.
  - intros config st fs st'. unfold validate.
    destruct (usable (resolveTemplateDir p options config)) as [dir |].
    + destruct (ensureTemplateIndex p dir config st) as [[index' st1] | e];
        [| discriminate].
      rewrite Henv. destruct (size index' =? 0)%nat; intros [= <- _]; by left.
    + destruct (negb (hasExplicitTemplateConfig p options config)
                || warnedMissingTemplates st); intros [= <- _]; [by left | by right].
Qed.

Lemma xml_accepted_but_never_checked_witness :
  canValidate Sample.templated "/repo/Plate.XML" = true
  /\ exists st',
       validate Sample.templated Sample.noOptions "/repo/Plate.XML"
         Sample.templatedConfig initialState = (Ok [], st').
Proof.
  destruct (xml_accepted_but_never_checked Sample.templated Sample.noOptions
              "/repo/Plate.XML" eq_refl) as (Hcan & _ & Hval & _).
  split; [exact Hcan |].
  eexists. eapply (Hval Sample.templatedConfig initialState "/templates").
  - reflexivity.
  - reflexivity.
  - vm_compute. discriminate.
Defined.

(** C7, evaluated at the failing input. Two template files define the
    semantic identifier [urn:x]. The directory content is the same in both
    runs; only the order in which the glob delivers the two files differs,
    and with it the template that is indexed. *)
Theorem template_index_follows_enumeration :
  exists i1 i2 s1 s2,
    loadTemplates (Sample.overlapping ["/templates/a.json"; "/templates/b.json"])
      "/templates" None = Ok i1
    /\ loadTemplates (Sample.overlapping ["/templates/b.json"; "/templates/a.json"])
         "/templates" None = Ok i2
    /\ i1 !! "urn:x" = Some s1 /\ i2 !! "urn:x" = Some s2
    /\ sourcePath s1 = "/templates/a.json" /\ requiredIdShortPaths s1 = ["A"]
    /\ sourcePath s2 = "/templates/b.json" /\ requiredIdShortPaths s2 = ["B"].
Proof.
  eexists _, _, _, _.
  split; [reflexivity |]. split; [reflexivity |].
  split; [vm_compute; reflexivity |]. split; [vm_compute; reflexivity |].
  repeat split.
Qed.

Lemma segments_nonempty (s : string) : segments s <> [].
Proof.
  destruct s as [| c s]; simpl; [discriminate |].
  destruct (Ascii.eqb c "/"); [discriminate |].
  destruct (segments s); discriminate.
Qed.

Lemma segments_slash (a b : string) :
  segments (a +:+ String "/" b) = (segments a ++ segments b)%list.
Proof.
  induction a as [| c a IH]; [reflexivity |].
  simpl. rewrite IH.
  destruct (Ascii.eqb c "/"); [reflexivity |].
  pose proof (segments_nonempty a). destruct (segments a); [done | reflexivity].
Qed.

(** C9, evaluated at the failing input. The two rule identifiers of the
    template engine consist of the engine name and one more segment, not
    two; the first is what [validate] returns when template checking was
    asked for and no directory is found. *)
Theorem template_rule_ids_have_two_segments (file : string) (ip : option string)
    (i : nat) (template : TemplateSpec) (rp : string) :
  segments (ruleId (templatesNotFoundFinding file))
    = ["template-conformance"; "templates-not-found"]
  /\ segments (ruleId (missingElementFinding file ip i template rp))
      = ["template-conformance"; "missing-element"]
  /\ ~ hasRuleFormat engineName (ruleId (templatesNotFoundFinding file))
  /\ ~ hasRuleFormat engineName (ruleId (missingElementFinding file ip i template rp))
  /\ fst (validate (Sample.platform [] [] []) Sample.noOptions "/repo/plate.json"
            Sample.pinnedConfig initialState)
     = Ok [templatesNotFoundFinding "/repo/plate.json"].
Proof.
  split; [reflexivity |]. split; [reflexivity |].
  split; [| split; [| reflexivity]].
  - intros (category & code & H). discriminate H.
  - intros (category & code & H). discriminate H.
Qed.

End TemplateClaims.

(** ** Sorting *)

Module SortFacts.

Section Sort.
Context {A : Type} (compare : A -> A -> Z).

Lemma insertSorted_perm (x : A) (l : list A) :
  Permutation (insertSorted compare x l) (x :: l).
Proof.
  induction l as [| y rest IH]; simpl; [reflexivity |].
  destruct (compare x y <=? 0); [reflexivity |].
  rewrite IH. apply perm_swap.
Qed.

Lemma sort_perm (l : list A) : Permutation (sort compare l) l.
Proof.
  induction l as [| x rest IH]; simpl; [reflexivity |].
  rewrite insertSorted_perm. by constructor.
Qed.

Lemma elem_of_sort (l : list A) (x : A) : x ∈ sort compare l <-> x ∈ l.
Proof. by rewrite (sort_perm l). Qed.

Lemma length_sort (l : list A) : List.length (sort compare l) = List.length l.
Proof. apply Permutation_length, sort_perm. Qed.

Hypothesis compare_total : forall a b, compare a b <= 0 \/ compare b a <= 0.
Hypothesis compare_le_trans :
  forall a b c, compare a b <= 0 -> compare b c <= 0 -> compare a c <= 0.

Lemma insertSorted_sorted (x : A) (l : list A) :
  StronglySorted (fun a b => compare a b <= 0) l ->
  StronglySorted (fun a b => compare a b <= 0) (insertSorted compare x l).
Proof.
  induction l as [| y rest IH]; intros Hs; simpl.
  - constructor; [constructor | constructor].
  - inversion Hs as [| ? ? Hrest Hall]; subst.
    destruct (compare x y <=? 0) eqn:E.
    + apply Z.leb_le in E. constructor; [exact Hs |].
      constructor; [exact E |].
      eapply Forall_impl; [exact Hall |]. intros z Hz. by eapply compare_le_trans.
    + apply Z.leb_gt in E. constructor; [by apply IH |].
      assert (Hyx : compare y x <= 0) by (destruct (compare_total x y); lia).
      apply Forall_forall. intros z Hz.
      rewrite insertSorted_perm in Hz.
      apply elem_of_cons in Hz as [-> | Hz]; [exact Hyx |].
      rewrite Forall_forall in Hall. by apply Hall.
Qed.

Lemma sort_sorted (l : list A) :
  StronglySorted (fun a b => compare a b <= 0) (sort compare l).
Proof.
  induction l as [| x rest IH]; simpl; [constructor |].
  by apply insertSorted_sorted.
Qed.

End Sort.

End SortFacts.

(** ** Orchestrator: normalization and failure isolation *)

Module OrchestratorFacts.
Import Orchestrator Ordering SortFacts ListFacts.

Lemma deduplicate_subset (sorted : list Finding) :
  forall seen f, f ∈ deduplicate seen sorted -> f ∈ sorted.
Proof.
  induction sorted as [| g rest IH]; intros seen f Hf; simpl in Hf; [done |].
  case_bool_decide.
  - right. by eapply IH.
  - apply elem_of_cons in Hf as [-> | Hf]; [by left | right; by eapply IH].
Qed.

Lemma deduplicate_fresh (sorted : list Finding) :
  forall seen f, f ∈ deduplicate seen sorted -> keyOf f ∉ seen.
Proof.
  induction sorted as [| g rest IH]; intros seen f Hf; simpl in Hf.
  - by apply elem_of_nil in Hf.
  - case_bool_decide as Hseen; [by eapply IH |].
    apply elem_of_cons in Hf as [-> | Hf]; [done |].
    apply IH in Hf. intros Hin. apply Hf. by apply elem_of_union_r.
Qed.

(** No two findings kept by the loop have the same key. *)
Lemma deduplicate_keys_NoDup (sorted : list Finding) :
  forall seen, NoDup (List.map keyOf (deduplicate seen sorted)).
Proof.
  induction sorted as [| g rest IH]; intros seen; simpl; [constructor |].
  case_bool_decide as Hseen; [apply IH |].
  simpl. constructor; [| apply IH].
  intros Hin. apply elem_of_List_map in Hin as (f & Hkey & Hf).
  apply deduplicate_fresh in Hf. apply Hf. rewrite <- Hkey.
  apply elem_of_union_l. by apply elem_of_singleton.
Qed.

(** The loop keeps the order of the findings it keeps. *)
Lemma deduplicate_sorted (R : Finding -> Finding -> Prop) (sorted : list Finding) :
  StronglySorted R sorted -> forall seen, StronglySorted R (deduplicate seen sorted).
Proof.
  induction 1 as [| g rest Hrest IH Hall]; intros seen; simpl; [constructor |].
  case_bool_decide; [apply IH |].
  constructor; [apply IH |].
  rewrite Forall_forall in *. intros f Hf. apply Hall. by eapply deduplicate_subset.
Qed.

Section WithPlatform.
Context {W : Type} (p : Platform).

(** Every finding of the normalized sequence is a finding of the input. *)
Lemma normalizeFindings_subset (l : list Finding) (f : Finding) :
  f ∈ normalizeFindings p l -> f ∈ l.
Proof.
  unfold normalizeFindings. intros Hf. apply deduplicate_subset in Hf.
  by apply elem_of_sort in Hf.
Qed.

Lemma normalizeFindings_keys_NoDup (l : list Finding) :
  NoDup (List.map keyOf (normalizeFindings p l)).
Proof. apply deduplicate_keys_NoDup. Qed.

Lemma compareFindings_le (a b : Finding) :
  compareFindings p a b <= 0 <->
  let files := localeCompare p (filePath (location a)) (filePath (location b)) in
  let aLine := default MAX_SAFE_INTEGER (line (location a)) in
  let bLine := default MAX_SAFE_INTEGER (line (location b)) in
  files < 0 \/
  (files = 0 /\
   (aLine < bLine \/ (aLine = bLine /\ localeCompare p (ruleId a) (ruleId b) <= 0))).
Proof.
  unfold compareFindings. simpl.
  destruct (localeCompare p (filePath (location a)) (filePath (location b)) =? 0) eqn:Ef;
    simpl.
  - apply Z.eqb_eq in Ef. rewrite Ef.
    destruct (default MAX_SAFE_INTEGER (line (location a))
                =? default MAX_SAFE_INTEGER (line (location b))) eqn:El; simpl.
    + apply Z.eqb_eq in El. lia.
    + apply Z.eqb_neq in El. lia.
  - apply Z.eqb_neq in Ef. lia.
Qed.

Section Consistent.
Hypothesis collation : Consistent (localeCompare p).

Lemma collation_total (a b : string) :
  localeCompare p a b <= 0 \/ localeCompare p b a <= 0.
Proof. pose proof (compare_swap _ collation a b). lia. Qed.

Lemma collation_zero_sym (a b : string) :
  localeCompare p a b = 0 -> localeCompare p b a = 0.
Proof. pose proof (compare_swap _ collation a b). lia. Qed.

Lemma collation_lt_le (a b c : string) :
  localeCompare p a b < 0 -> localeCompare p b c <= 0 -> localeCompare p a c < 0.
Proof.
  intros Hab Hbc.
  assert (Hac : localeCompare p a c <= 0)
    by (apply (compare_trans _ collation a b c); lia).
  destruct (Z.eq_dec (localeCompare p a c) 0) as [E |]; [| lia].
  apply collation_zero_sym in E.
  assert (Hba : localeCompare p b a <= 0)
    by (apply (compare_trans _ collation b c a); lia).
  pose proof (compare_swap _ collation a b). lia.
Qed.

Lemma collation_le_lt (a b c : string) :
  localeCompare p a b <= 0 -> localeCompare p b c < 0 -> localeCompare p a c < 0.
Proof.
  intros Hab Hbc.
  assert (Hac : localeCompare p a c <= 0)
    by (apply (compare_trans _ collation a b c); lia).
  destruct (Z.eq_dec (localeCompare p a c) 0) as [E |]; [| lia].
  apply collation_zero_sym in E.
  assert (Hcb : localeCompare p c b <= 0)
    by (apply (compare_trans _ collation c a b); lia).
  pose proof (compare_swap _ collation b c). lia.
Qed.

Lemma collation_zero_trans (a b c : string) :
  localeCompare p a b = 0 -> localeCompare p b c = 0 -> localeCompare p a c = 0.
Proof.
  intros Hab Hbc.
  assert (localeCompare p a c <= 0)
    by (apply (compare_trans _ collation a b c); lia).
  assert (localeCompare p c a <= 0).
  { apply collation_zero_sym in Hab, Hbc.
    apply (compare_trans _ collation c b a); lia. }
  pose proof (compare_swap _ collation a c). lia.
Qed.

Lemma compareFindings_total (a b : Finding) :
  compareFindings p a b <= 0 \/ compareFindings p b a <= 0.
Proof.
  rewrite !compareFindings_le. simpl.
  pose proof (compare_swap _ collation (filePath (location a)) (filePath (location b))).
  pose proof (compare_swap _ collation (ruleId a) (ruleId b)).
  lia.
Qed.

Lemma compareFindings_trans (a b c : Finding) :
  compareFindings p a b <= 0 -> compareFindings p b c <= 0 -> compareFindings p a c <= 0.
Proof.
  rewrite !compareFindings_le. simpl.
  intros [Hab | (Hab & Hl1)] [Hbc | (Hbc & Hl2)].
  - left. apply (collation_lt_le _ (filePath (location b))); lia.
  - left. apply (collation_lt_le _ (filePath (location b))); lia.
  - left. apply (collation_le_lt _ (filePath (location b))); lia.
  - right. split; [by apply (collation_zero_trans _ (filePath (location b))) |].
    destruct Hl1 as [Hl1 | (Hl1 & Hr1)], Hl2 as [Hl2 | (Hl2 & Hr2)]; try lia.
    right. split; [lia |]. by apply (compare_trans _ collation _ (ruleId b)).
Qed.

(** With a consistent collation the normalized findings are in the order
    of the comparator. *)
Lemma normalizeFindings_sorted (l : list Finding) :
  StronglySorted (fun a b => compareFindings p a b <= 0) (normalizeFindings p l).
Proof.
  unfold normalizeFindings. apply deduplicate_sorted.
  apply sort_sorted; [apply compareFindings_total | apply compareFindings_trans].
Qed.

Lemma compareFindings_inOrder (a b : Finding) :
  (forall n, line (location a) = Some n -> n < MAX_SAFE_INTEGER) ->
  (forall n, line (location b) = Some n -> n < MAX_SAFE_INTEGER) ->
  compareFindings p a b <= 0 -> inOrder (localeCompare p) a b.
Proof.
  intros Ha Hb. rewrite compareFindings_le. unfold inOrder. simpl.
  intros [H | (H & Hl)]; [by left | right]. split; [done |].
  destruct (line (location a)) as [x |] eqn:Ea, (line (location b)) as [y |] eqn:Eb;
    simpl in *.
  - destruct Hl as [Hl | (-> & Hr)]; [by left | right; by split].
  - by left.
  - specialize (Hb y eq_refl). lia.
  - right. split; [done | lia].
Qed.

Lemma StronglySorted_within {A : Type} (R R' : A -> A -> Prop) (l : list A) :
  (forall a b, a ∈ l -> b ∈ l -> R a b -> R' a b) ->
  StronglySorted R l -> StronglySorted R' l.
Proof.
  intros Himp Hs. induction Hs as [| x rest Hrest IH Hall]; [constructor |].
  constructor.
  - apply IH. intros a b Ha Hb. apply Himp; by right.
  - rewrite Forall_forall in *. intros y Hy. apply Himp; [by left | by right |].
    by apply Hall.
Qed.

(** X30. With a consistent collation, when every line number is below
    [Number.MAX_SAFE_INTEGER] the normalized findings are in the specified
    order: by file, then by line with the findings without a line last,
    then by rule. *)
Lemma normalizeFindings_inOrder (l : list Finding) :
  (forall f n, f ∈ l -> line (location f) = Some n -> n < MAX_SAFE_INTEGER) ->
  StronglySorted (inOrder (localeCompare p)) (normalizeFindings p l).
Proof.
  intros Hbound.
  apply (StronglySorted_within (fun a b => compareFindings p a b <= 0));
    [| apply normalizeFindings_sorted].
  intros a b Ha Hb. apply normalizeFindings_subset in Ha, Hb.
  apply compareFindings_inOrder; intros n; by apply Hbound.
Qed.

End Consistent.

End WithPlatform.

End OrchestratorFacts.

(** ** Claims about the orchestrator *)

Module OrchestratorClaims.
Import Orchestrator Ordering SortFacts ListFacts OrchestratorFacts.

Lemma append_assoc' (a b c : string) : (a +:+ b) +:+ c = a +:+ b +:+ c.
Proof.
  induction a as [| x a IH]; [reflexivity |].
  change (String x ((a +:+ b) +:+ c) = String x (a +:+ b +:+ c)). by rewrite IH.
Qed.

Section Isolation.
Context {W : Type}.


Lemma runEngine_contribution (file : string) (config : LintConfig)
    (engine : ValidationEngine W) (w w' : W) (r : list Finding) :
  runEngine file config engine w = (r, w') -> contributionOf file config engine r.
Proof.
  unfold runEngine. destruct (validate engine file config w) as [[fs | e] w1] eqn:E;
    intros [= <- <-]; exists w, w1; [by left | right; by exists e].
Qed.



End Isolation.


(** *** Summary *)

Lemma size_list_to_set_le (l : list string) :
  (size (list_to_set l : gset string) <= List.length l)%nat.
Proof.
  induction l as [| x rest IH].
  - by rewrite list_to_set_nil, size_empty.
  - rewrite list_to_set_cons, size_union_alt, size_singleton. simpl.
    assert (size (list_to_set rest ∖ {[x]} : gset string)
              <= size (list_to_set rest : gset string))%nat.
    { apply subseteq_size. intros y Hy. by apply elem_of_difference in Hy as [Hy _]. }
    lia.
Qed.

Section Summary.
Context {W : Type} (p : Platform).

Lemma runEngines_paths (file : string) (config : LintConfig)
    (es : list (ValidationEngine W)) :
  (forall engine w fs w', engine ∈ es -> validate engine file config w = (Ok fs, w') ->
                          forall f, f ∈ fs -> filePath (location f) = file) ->
  forall w rs w', runEngines file config es w = (rs, w') ->
                  forall f, f ∈ concat rs -> filePath (location f) = file.
Proof.
  induction es as [| engine rest IH]; intros Hloc w rs w'; simpl.
  - intros [= <- <-] f Hf. by apply elem_of_nil in Hf.
  - unfold runEngine at 1.
    destruct (validate engine file config w) as [[fs | e] w1] eqn:E;
      destruct (runEngines file config rest w1) as [rs' w2] eqn:E2;
      intros [= <- <-] f Hf; rewrite concat_cons in Hf;
      apply elem_of_app in Hf as [Hf | Hf].
    + eapply Hloc; [by left | exact E | exact Hf].
    + eapply IH; [| exact E2 | exact Hf]. intros. eapply Hloc; [by right | done..].
    + apply list_elem_of_singleton in Hf. by subst f.
    + eapply IH; [| exact E2 | exact Hf]. intros. eapply Hloc; [by right | done..].
Qed.

Lemma validateFiles_paths (registry : list (ValidationEngine W)) (config : LintConfig)
    (files : list string) :
  reportOnGivenFile registry config ->
  forall w fs w', validateFiles files registry config w = (fs, w') ->
                  forall f, f ∈ fs -> filePath (location f) ∈ files.
Proof.
  intros Hloc. induction files as [| file rest IH]; intros w fs w'; simpl.
  - intros [= <- <-] f Hf. by apply elem_of_nil in Hf.
  - unfold validateFile.
    destruct (runEngines file config _ w) as [rs w1] eqn:E1.
    destruct (validateFiles rest registry config w1) as [more w2] eqn:E2.
    intros [= <- <-] f Hf. apply elem_of_app in Hf as [Hf | Hf].
    + apply elem_of_cons. left. eapply runEngines_paths; [| exact E1 | exact Hf].
      intros engine w0 fs0 w0' Hin. apply elem_of_List_filter in Hin as [_ Hin].
      by eapply Hloc.
    + right. by eapply IH.
Qed.

(** C8, amended. When every engine locates the findings it returns at the
    file it was asked to validate, the result of [lint] has at most as
    many files with findings as files scanned. *)
Theorem files_with_findings_bounded (registry : list (ValidationEngine W))
    (config : LintConfig) (w w' : W) (result : LintResult) :
  reportOnGivenFile registry config ->
  lint p registry config w = (Ok result, w') ->
  (filesWithFindings (summary result) <= filesScanned (summary result))%nat.
Proof.
  intros Hloc. unfold lint.
  destruct (Discovery.discoverFiles p (paths config) _) as [files | e]; [| discriminate].
  destruct (validateFiles files _ config w) as [allFindings w1] eqn:E.
  intros [= <- <-]. simpl.
  etrans; [| apply size_list_to_set_le].
  apply subseteq_size. intros path Hpath.
  apply elem_of_list_to_set in Hpath. apply elem_of_list_to_set.
  apply elem_of_List_map in Hpath as (f & -> & Hf).
  apply normalizeFindings_subset in Hf.
  eapply validateFiles_paths; [| exact E | exact Hf].
  intros engine file w0 fs w0' Hin. apply elem_of_List_filter in Hin as [_ Hin].
  by eapply Hloc.
Qed.

End Summary.

Lemma files_with_findings_bounded_witness :
  exists result,
    fst (lint (Sample.platform [] [] ["/repo/a.xml"; "/repo/b.xml"])
           [Sample.local; Sample.broken] Sample.config tt) = Ok result
    /\ (filesWithFindings (summary result) <= filesScanned (summary result))%nat.
Proof.
  eexists. split; [reflexivity |].
  eapply (files_with_findings_bounded
            (Sample.platform [] [] ["/repo/a.xml"; "/repo/b.xml"])
            [Sample.local; Sample.broken] Sample.config tt tt).
  - intros engine file w fs w' Hin Hval f Hf.
    apply elem_of_cons in Hin as [-> | Hin].
    + injection Hval as <- _. apply list_elem_of_singleton in Hf. by subst f.
    + apply list_elem_of_singleton in Hin. subst engine. discriminate Hval.
  - reflexivity.
Defined.

(** C8, the input at which it fails: one file is scanned, and an engine
    returns findings located at two other files. *)
Lemma files_with_findings_exceed_scanned :
  exists result,
    fst (lint (Sample.platform [] [] ["/repo/a.xml"]) [Sample.rogue] Sample.config tt)
      = Ok result
    /\ filesScanned (summary result) = 1%nat
    /\ filesWithFindings (summary result) = 2%nat
    /\ ~ (filesWithFindings (summary result) <= filesScanned (summary result))%nat.
Proof.
  eexists. split; [reflexivity |].
  split; [reflexivity |]. split; [vm_compute; reflexivity |].
  vm_compute. lia.
Qed.

(** C1, evaluated at the failing input. Two findings of one file, one
    without a line and one at line 2^53: the finding without a line comes
    first in the normalized sequence, which is not the specified order. *)
Theorem unlocated_finding_precedes_far_line :
  normalizeFindings (Sample.platform [] [] []) [Sample.farLine; Sample.unlocated]
    = [Sample.unlocated; Sample.farLine]
  /\ line (location Sample.unlocated) = None
  /\ line (location Sample.farLine) = Some (MAX_SAFE_INTEGER + 1)
  /\ filePath (location Sample.unlocated) = filePath (location Sample.farLine)
  /\ ~ inOrder Sample.collate Sample.unlocated Sample.farLine.
Proof.
  split; [vm_compute; reflexivity |].
  repeat split.
  unfold inOrder. vm_compute. intros [H | [_ [H | [H _]]]]; congruence.
Qed.

(** The rule identifier of the finding that reports an engine failure has
    the engine name followed by exactly two segments. *)
Lemma engine_error_rule_format {W : Type} (engine : ValidationEngine W)
    (file : string) (e : thrown) :
  hasRuleFormat (name engine) (ruleId (engineErrorFinding engine file e)).
Proof.
  exists "internal", "engine-error". simpl.
  change (name engine +:+ "/internal/engine-error")
    with (name engine +:+ String "/" "internal/engine-error").
  by rewrite TemplateClaims.segments_slash.
Qed.

End OrchestratorClaims.

(** ** Claims about discovery *)

Module DiscoveryClaims.
Import Discovery Ordering SortFacts ListFacts.

Section WithPlatform.
Context (p : Platform).

Lemma discoverFiles_from_glob (patterns : list string) (options : DiscoveryOptions)
    (files : list string) (f : string) :
  discoverFiles p patterns options = Ok files -> f ∈ files ->
  supported p f = true /\ accepted p f = true.
Proof.
  unfold discoverFiles. destruct (fastGlob p _ _) as [globbed | e]; [| discriminate].
  intros [= <-] Hf. apply elem_of_sort in Hf.
  apply elem_of_List_filter in Hf as [Hacc Hf].
  by apply elem_of_List_filter in Hf as [Hsup _].
Qed.

(** Every discovered path has one of the supported extensions, in any
    letter case. *)
Lemma discoverFiles_supported (patterns : list string) (options : DiscoveryOptions)
    (files : list string) (f : string) :
  discoverFiles p patterns options = Ok files -> f ∈ files ->
  toLowerCase (path_extname p f) ∈ SUPPORTED_EXTENSIONS.
Proof.
  intros Hd Hf. destruct (discoverFiles_from_glob _ _ _ _ Hd Hf) as [Hsup _].
  unfold supported in Hsup. apply existsb_exists in Hsup as (ext & Hin & Heq).
  apply String.eqb_eq in Heq. unfold extensionOf in Heq. rewrite Heq.
  by apply list_elem_of_In.
Qed.

(** A discovered [.json] path holds a document that parses and in which
    one of the three keys maps to an array. *)
Lemma discoverFiles_json_sniffed (patterns : list string) (options : DiscoveryOptions)
    (files : list string) (f : string) :
  discoverFiles p patterns options = Ok files -> f ∈ files ->
  toLowerCase (path_extname p f) = ".json" ->
  exists parsed key,
    fs_readJson p f = Some parsed /\ key ∈ aasKeys /\ isArray (get parsed key) = true.
Proof.
  intros Hd Hf Hext. destruct (discoverFiles_from_glob _ _ _ _ Hd Hf) as [_ Hacc].
  unfold accepted, extensionOf in Hacc. rewrite Hext in Hacc. simpl in Hacc.
  unfold looksLikeAasJson in Hacc.
  destruct (fs_readJson p f) as [parsed |]; [| discriminate].
  assert (Hex : existsb (fun key => isArray (get parsed key)) aasKeys = true).
  { destruct parsed; exact Hacc. }
  apply existsb_exists in Hex as (key & Hin & Harr).
  exists parsed, key. split; [done |]. split; [by apply list_elem_of_In | done].
Qed.

(** With a consistent collation the discovered paths ascend in the order
    of [localeCompare]. *)
Lemma discoverFiles_sorted (patterns : list string) (options : DiscoveryOptions)
    (files : list string) :
  Consistent (localeCompare p) ->
  discoverFiles p patterns options = Ok files ->
  StronglySorted (fun a b => localeCompare p a b <= 0) files.
Proof.
  intros Hc. unfold discoverFiles.
  destruct (fastGlob p _ _) as [globbed | e]; [| discriminate].
  intros [= <-]. apply sort_sorted.
  - intros a b. pose proof (compare_swap _ Hc a b). lia.
  - apply (compare_trans _ Hc).
Qed.

End WithPlatform.

(** C6, evaluated at the failing input. Two files whose names differ in
    letter case: the list returned puts [a.xml] before [B.xml], while in
    code-unit lexicographic order [B.xml] comes first. *)
Theorem discovery_order_is_not_lexicographic :
  discoverFiles (Sample.platform [] [] ["/repo/B.xml"; "/repo/a.xml"]) ["**/*"]
    Sample.discoveryOptions
  = Ok ["/repo/a.xml"; "/repo/B.xml"]
  /\ ~ lexLe "/repo/a.xml" "/repo/B.xml"
  /\ sort codeUnitCompare ["/repo/a.xml"; "/repo/B.xml"] = ["/repo/B.xml"; "/repo/a.xml"].
Proof.
  split; [reflexivity |]. split; [| reflexivity].
  unfold lexLe. vm_compute. intros H. by apply H.
Qed.

(** The code-unit comparator is consistent: the hypotheses of the sorting
    lemmas can be met. *)
Lemma codeUnitCompare_consistent : Consistent codeUnitCompare.
Proof.
  split.
  - intros a b. unfold codeUnitCompare. rewrite (String.compare_antisym b a).
    destruct (String.compare a b); reflexivity.
  - intros a b c. unfold codeUnitCompare.
    pose proof (@transitivity _ String.le _ a b c) as Htrans.
    unfold String.le, String.leb in Htrans.
    destruct (String.compare a b), (String.compare b c), (String.compare a c);
      simpl in *; try lia; intros _ _; exfalso; by apply Htrans.
Qed.

End DiscoveryClaims.

(** * Further properties of the code *)

(** ** Orchestrator: what normalization keeps, and where findings come from *)

Module OrchestratorExtras.
Import Orchestrator Ordering Provenance SortFacts ListFacts OrchestratorFacts.

Lemma deduplicate_covers (sorted : list Finding) :
  forall seen f, f ∈ sorted ->
    keyOf f ∈ seen \/ exists g, g ∈ deduplicate seen sorted /\ keyOf g = keyOf f.
Proof.
  induction sorted as [| h rest IH]; intros seen f Hf; [by apply elem_of_nil in Hf |].
  simpl. apply elem_of_cons in Hf as [-> | Hf].
  - case_bool_decide as Hseen; [by left |]. right. exists h. split; [by left | done].
  - case_bool_decide as Hseen.
    + destruct (IH seen f Hf) as [? | (g & Hg & Hk)]; [by left |]. right. by exists g.
    + destruct (IH ({[keyOf h]} ∪ seen) f Hf) as [Hin | (g & Hg & Hk)].
      * apply elem_of_union in Hin as [Hin | Hin]; [| by left].
        apply elem_of_singleton in Hin. right. exists h. split; [by left | done].
      * right. exists g. split; [by right | done].
Qed.

Lemma deduplicate_length (sorted : list Finding) :
  forall seen, (List.length (deduplicate seen sorted) <= List.length sorted)%nat.
Proof.
  induction sorted as [| h rest IH]; intros seen; simpl; [lia |].
  case_bool_decide; simpl; [specialize (IH seen) | specialize (IH ({[keyOf h]} ∪ seen))]; lia.
Qed.

(** X1. Normalization drops duplicates and nothing else: the result has
    one finding for every key of the input and no key twice, every finding
    of the result is a finding of the input, and the result is no longer
    than the input. This holds for every collation. *)
Theorem normalization_keeps_one_finding_per_key (p : Platform) (l : list Finding) :
  let result := normalizeFindings p l in
  (forall f, f ∈ l -> exists g, g ∈ result /\ keyOf g = keyOf f)
  /\ NoDup (List.map keyOf result)
  /\ (forall g, g ∈ result -> g ∈ l)
  /\ (List.length result <= List.length l)%nat.
Proof.
  simpl. split; [| split; [| split]].
  - intros f Hf. unfold normalizeFindings.
    destruct (deduplicate_covers (sort (compareFindings p) l) ∅ f) as [Hin | Hg].
    + by apply elem_of_sort.
    + by apply not_elem_of_empty in Hin.
    + exact Hg.
  - apply deduplicate_keys_NoDup.
  - intros g Hg. unfold normalizeFindings in Hg. apply deduplicate_subset in Hg.
    by apply elem_of_sort in Hg.
  - unfold normalizeFindings. etrans; [apply deduplicate_length |].
    by rewrite length_sort.
Qed.

Lemma insertSorted_head {A : Type} (compare : A -> A -> Z) (x : A) (l : list A) :
  Forall (fun y => compare x y <= 0) l -> insertSorted compare x l = x :: l.
Proof.
  destruct l as [| y rest]; [reflexivity |]. intros H. simpl.
  apply Forall_cons in H as [H _]. apply Z.leb_le in H. by rewrite H.
Qed.

Lemma sort_of_sorted {A : Type} (compare : A -> A -> Z) (l : list A) :
  StronglySorted (fun a b => compare a b <= 0) l -> sort compare l = l.
Proof.
  induction 1 as [| x rest Hrest IH Hall]; [reflexivity |].
  simpl. rewrite IH. by apply insertSorted_head.
Qed.

Lemma deduplicate_of_distinct (l : list Finding) :
  forall seen, NoDup (List.map keyOf l) -> (forall f, f ∈ l -> keyOf f ∉ seen) ->
               deduplicate seen l = l.
Proof.
  induction l as [| h rest IH]; intros seen Hnd Hfresh; [reflexivity |].
  simpl. simpl in Hnd. apply NoDup_cons in Hnd as [Hh Hnd].
  case_bool_decide as Hseen.
  - exfalso. apply (Hfresh h); [by left | done].
  - f_equal. apply IH; [done |]. intros f Hf Hin.
    apply elem_of_union in Hin as [Hin | Hin].
    + apply elem_of_singleton in Hin. apply Hh. rewrite <- Hin.
      apply elem_of_List_map. by exists f.
    + apply (Hfresh f); [by right | done].
Qed.

(** X2. With a consistent collation, normalizing a normalized sequence
    changes nothing. *)
Theorem normalization_is_idempotent (p : Platform) (l : list Finding) :
  Consistent (localeCompare p) ->
  normalizeFindings p (normalizeFindings p l) = normalizeFindings p l.
Proof.
  intros Hc. unfold normalizeFindings at 1.
  rewrite sort_of_sorted; [| by apply normalizeFindings_sorted].
  apply deduplicate_of_distinct; [apply normalizeFindings_keys_NoDup |].
  intros f _. apply not_elem_of_empty.
Qed.

Lemma countSeverity_total (l : list Finding) :
  (countSeverity error l + countSeverity warning l + countSeverity note l
   = List.length l)%nat.
Proof.
  unfold countSeverity. induction l as [| f rest IH]; [reflexivity |].
  simpl. destruct (severity f); simpl; lia.
Qed.

(** X3. The three severity counts of a summary add up to the number of
    findings; the number of files with findings is at most the number of
    findings, and is zero exactly when there are no findings. *)
Theorem summary_counts_add_up (l : list Finding) (files : list string) :
  let s := computeSummary l files in
  (errors s + warnings s + notes s = List.length l)%nat
  /\ (filesWithFindings s <= List.length l)%nat
  /\ (filesWithFindings s = 0%nat <-> l = [])
  /\ filesScanned s = List.length files.
Proof.
  simpl. split; [apply countSeverity_total |]. split; [| split; [| reflexivity]].
  - etrans; [apply OrchestratorClaims.size_list_to_set_le |]. by rewrite length_map.
  - split.
    + intros H. apply size_empty_inv in H. destruct l as [| f rest]; [done |].
      exfalso. apply (not_elem_of_empty (C := gset string) (filePath (location f))).
      apply H. apply elem_of_list_to_set. by left.
    + intros ->. change (size (list_to_set [] : gset string) = 0%nat).
      by rewrite list_to_set_nil, size_empty.
Qed.

Section Provenance.
Context {W : Type} (p : Platform).

Lemma runEngines_provenance (file : string) (config : LintConfig)
    (es : list (ValidationEngine W)) :
  forall w rs w', runEngines file config es w = (rs, w') ->
    forall f, f ∈ concat rs ->
      exists engine r, engine ∈ es /\ contributionOf file config engine r /\ f ∈ r.
Proof.
  induction es as [| engine rest IH]; intros w rs w'; simpl.
  - intros [= <- <-] f Hf. by apply elem_of_nil in Hf.
  - destruct (runEngine file config engine w) as [r w1] eqn:E1.
    destruct (runEngines file config rest w1) as [rs' w2] eqn:E2.
    intros [= <- <-] f Hf. rewrite concat_cons in Hf.
    apply elem_of_app in Hf as [Hf | Hf].
    + exists engine, r. split; [by left |]. split; [| done].
      by eapply OrchestratorClaims.runEngine_contribution.
    + destruct (IH w1 rs' w2 E2 f Hf) as (e' & r' & Hin & Hc & Hfr).
      exists e', r'. split; [by right | by split].
Qed.

Lemma validateFiles_provenance (registry active : list (ValidationEngine W))
    (config : LintConfig) (files : list string) :
  (forall engine, engine ∈ active ->
                  engine ∈ registry /\ enabled config engine = true) ->
  forall w fs w', validateFiles files active config w = (fs, w') ->
    forall f, f ∈ fs -> exists file, file ∈ files /\ producedBy registry config file f.
Proof.
  intros Hactive. induction files as [| file rest IH]; intros w fs w'; simpl.
  - intros [= <- <-] f Hf. by apply elem_of_nil in Hf.
  - unfold validateFile.
    destruct (runEngines file config _ w) as [rs w1] eqn:E1.
    destruct (validateFiles rest active config w1) as [more w2] eqn:E2.
    intros [= <- <-] f Hf. apply elem_of_app in Hf as [Hf | Hf].
    + destruct (runEngines_provenance file config _ w rs w1 E1 f Hf)
        as (engine & r & Hin & Hc & Hfr).
      apply elem_of_List_filter in Hin as [Hcan Hin].
      destruct (Hactive engine Hin) as [Hreg Hen].
      exists file. split; [by left |]. by exists engine, r.
    + destruct (IH w1 more w2 E2 f Hf) as (file' & Hfile & Hp).
      exists file'. split; [by right | done].
Qed.

(** X4. The orchestrator invents no finding and alters none: every finding
    of a lint result was obtained, for one of the discovered files, from a
    registered engine that the configuration leaves enabled and that
    accepts that file; it is a finding the engine returned, or the one
    finding that reports the engine's failure on the file. *)
Theorem lint_findings_come_from_engines (registry : list (ValidationEngine W))
    (config : LintConfig) (w w' : W) (result : LintResult) :
  lint p registry config w = (Ok result, w') ->
  exists files,
    Discovery.discoverFiles p (paths config)
      {| Discovery.d_basePath := default (process_cwd p) (basePath config);
         Discovery.d_exclude := exclude config;
         Discovery.d_followSymlinks := None |} = Ok files
    /\ filesScanned (summary result) = List.length files
    /\ forall f, f ∈ findings result ->
         exists file, file ∈ files /\ producedBy registry config file f.
Proof.
  unfold lint.
  destruct (Discovery.discoverFiles p (paths config) _) as [files | e]; [| discriminate].
  destruct (validateFiles files _ config w) as [allFindings w1] eqn:E.
  intros [= <- <-]. exists files. split; [reflexivity |]. split; [reflexivity |].
  simpl. intros f Hf. apply normalizeFindings_subset in Hf.
  eapply validateFiles_provenance; [| exact E | exact Hf].
  intros engine Hin. by apply elem_of_List_filter in Hin as [Hen Hin].
Qed.


End Provenance.

Lemma mixed_lines_bounded (f : Finding) (n : Z) :
  f ∈ Cases.mixed -> line (location f) = Some n -> n < MAX_SAFE_INTEGER.
Proof.
  intros Hf Hline. unfold Cases.mixed in Hf.
  repeat (apply elem_of_cons in Hf as [-> | Hf]);
    try (by apply elem_of_nil in Hf);
    simpl in Hline; try discriminate; injection Hline as <-; reflexivity.
Qed.

Lemma normalizeFindings_inOrder_witness :
  StronglySorted (inOrder codeUnitCompare)
    (normalizeFindings (Cases.ordered [] [] []) Cases.mixed).
Proof.
  apply (normalizeFindings_inOrder (Cases.ordered [] [] [])
           DiscoveryClaims.codeUnitCompare_consistent Cases.mixed).
  exact mixed_lines_bounded.
Defined.

Lemma normalization_is_idempotent_witness :
  normalizeFindings (Cases.ordered [] [] [])
    (normalizeFindings (Cases.ordered [] [] []) Cases.mixed)
  = normalizeFindings (Cases.ordered [] [] []) Cases.mixed.
Proof.
  apply (normalization_is_idempotent (Cases.ordered [] [] []) Cases.mixed
           DiscoveryClaims.codeUnitCompare_consistent).
Defined.

Lemma lint_findings_come_from_engines_witness :
  exists result files,
    fst (lint (Sample.platform [] [] ["/repo/a.xml"; "/repo/b.xml"])
           [Sample.local; Sample.broken] Sample.config tt) = Ok result
    /\ filesScanned (summary result) = List.length files
    /\ forall f, f ∈ findings result ->
         exists file, file ∈ files
           /\ producedBy [Sample.local; Sample.broken] Sample.config file f.
Proof.
  destruct (lint_findings_come_from_engines
              (Sample.platform [] [] ["/repo/a.xml"; "/repo/b.xml"])
              [Sample.local; Sample.broken] Sample.config tt tt _ eq_refl)
    as (files & _ & Hn & Hall).
  eexists _, files. split; [reflexivity |]. by split.
Defined.

End OrchestratorExtras.

(** ** Discovery and packages *)

Module DiscoveryExtras.
Import Discovery Ordering SortFacts ListFacts.

Lemma normalizedPatterns_unchanged (p : Platform) (patterns : list string) :
  List.map (fun pattern => if path_isAbsolute p pattern then pattern else pattern) patterns
  = patterns.
Proof.
  induction patterns as [| x rest IH]; [reflexivity |]. simpl. rewrite IH.
  by destruct (path_isAbsolute p x).
Qed.

(** X6. [discoverFiles] hands the patterns to the glob unchanged, asks for
    files only, and always ignores [node_modules] and [.git] besides the
    caller's excludes. Of what the glob delivers it returns, each as often
    as delivered, exactly the paths with a supported extension that, when
    the extension is [.json], pass the content check; a package or XML
    file is returned without being read. *)
Theorem discovery_returns_the_accepted_matches (p : Platform) (patterns : list string)
    (options : DiscoveryOptions) (globbed : list string) :
  fastGlob p patterns
    {| glob_cwd := Some (d_basePath options);
       glob_absolute := true;
       glob_followSymbolicLinks := default false (d_followSymlinks options);
       glob_ignore := default [] (d_exclude options)
                        ++ ["**/node_modules/**"; "**/.git/**"];
       glob_onlyFiles := true |} = Ok globbed ->
  exists files,
    discoverFiles p patterns options = Ok files
    /\ Permutation files (List.filter (accepted p) (List.filter (supported p) globbed))
    /\ (forall f, f ∈ files <->
          f ∈ globbed
          /\ toLowerCase (path_extname p f) ∈ SUPPORTED_EXTENSIONS
          /\ (toLowerCase (path_extname p f) = ".json" -> looksLikeAasJson p f = true))
    /\ (forall f, f ∈ globbed ->
          toLowerCase (path_extname p f) = ".xml"
          \/ toLowerCase (path_extname p f) = ".aasx" -> f ∈ files).
Proof.
  intros Hglob. unfold discoverFiles.
  rewrite normalizedPatterns_unchanged, Hglob.
  eexists. split; [reflexivity |].
  assert (Hmem : forall f,
             f ∈ sort (localeCompare p)
                   (List.filter (accepted p) (List.filter (supported p) globbed)) <->
             f ∈ globbed
             /\ toLowerCase (path_extname p f) ∈ SUPPORTED_EXTENSIONS
             /\ (toLowerCase (path_extname p f) = ".json" -> looksLikeAasJson p f = true)).
  { intros f. rewrite elem_of_sort, !elem_of_List_filter.
    unfold supported, accepted, extensionOf. split.
    - intros (Hacc & Hsup & Hin). split; [done |]. split.
      + apply existsb_exists in Hsup as (ext & Hext & Heq).
        apply String.eqb_eq in Heq. rewrite Heq. by apply list_elem_of_In.
      + intros Hjson. by rewrite Hjson in Hacc.
    - intros (Hin & Hsup & Hjson). split; [| split; [| done]].
      + destruct (String.eqb _ ".json") eqn:E; [| done].
        apply String.eqb_eq in E. by apply Hjson.
      + apply existsb_exists. exists (toLowerCase (path_extname p f)).
        split; [by apply list_elem_of_In | apply String.eqb_refl]. }
  split; [apply sort_perm |]. split; [exact Hmem |].
  intros f Hin Hext. apply Hmem. split; [done |].
  destruct Hext as [-> | ->]; (split; [| discriminate]); unfold SUPPORTED_EXTENSIONS.
  - right. right. by left.
  - by left.
Qed.

Lemma discovery_returns_the_accepted_matches_witness :
  discoverFiles
    (Sample.platform []
       [("/repo/n.json", JObj [("foo", JStr "bar")]); ("/repo/v.json", Sample.instanceDoc)]
       ["/repo/v.json"; "/repo/x.txt"; "/repo/n.json"; "/repo/m.AASX"])
    ["**/*"] Sample.discoveryOptions
  = Ok ["/repo/m.AASX"; "/repo/v.json"].
Proof.
  destruct (discovery_returns_the_accepted_matches
              (Sample.platform []
                 [("/repo/n.json", JObj [("foo", JStr "bar")]);
                  ("/repo/v.json", Sample.instanceDoc)]
                 ["/repo/v.json"; "/repo/x.txt"; "/repo/n.json"; "/repo/m.AASX"])
              ["**/*"] Sample.discoveryOptions _ eq_refl) as (files & Hd & _).
  reflexivity.
Defined.

(** X8. Where the environment of an extracted package is looked for: the
    canonical JSON file if it can be accessed, else the canonical XML
    file, else the first entry of the [aasx] directory, in the order the
    directory is read, whose name ends in [.json] or [.xml]; nothing when
    that directory cannot be read or has no such entry. *)
Theorem environment_lookup_order (p : Platform) (tree : ExtractedTree) (dir : string) :
  let canonicalJson := path_join p [dir; "aasx"; "aas-environment.json"] in
  let canonicalXml := path_join p [dir; "aasx"; "aas-environment.xml"] in
  let aasxDir := path_join p [dir; "aasx"] in
  let found := findAasEnvironmentInAasx p tree dir in
  (tree_access tree canonicalJson = true -> found = Some canonicalJson)
  /\ (tree_access tree canonicalJson = false -> tree_access tree canonicalXml = true ->
      found = Some canonicalXml)
  /\ (tree_access tree canonicalJson = false -> tree_access tree canonicalXml = false ->
      match tree_readdir tree aasxDir with
      | None => found = None
      | Some entries =>
          (forall before entry after,
              entries = (before ++ entry :: after)%list ->
              (forall e, e ∈ before -> endsWith e ".json" = false /\ endsWith e ".xml" = false) ->
              endsWith entry ".json" = true \/ endsWith entry ".xml" = true ->
              found = Some (path_join p [aasxDir; entry]))
          /\ ((forall e, e ∈ entries -> endsWith e ".json" = false /\ endsWith e ".xml" = false) ->
              found = None)
      end).
Proof.
  simpl. unfold findAasEnvironmentInAasx. simpl.
  split; [| split].
  - intros H. by rewrite H.
  - intros H1 H2. by rewrite H1, H2.
  - intros H1 H2. rewrite H1, H2.
    destruct (tree_readdir tree (path_join p [dir; "aasx"])) as [entries |]; [| done].
    split.
    + intros before entry after -> Hbefore Hentry.
      assert (Hfind : List.find (fun f => endsWith f ".json" || endsWith f ".xml")
                        (before ++ entry :: after) = Some entry).
      { induction before as [| b rest IH]; simpl.
        - apply orb_true_iff in Hentry. by rewrite Hentry.
        - destruct (Hbefore b ltac:(by left)) as [-> ->]. simpl.
          apply IH. intros e He. apply Hbefore. by right. }
      rewrite Hfind.
      assert (Hne : nonEmpty entry = true).
      { destruct entry; [| reflexivity]. destruct Hentry; discriminate. }
      by rewrite Hne.
    + intros Hnone.
      assert (Hfind : List.find (fun f => endsWith f ".json" || endsWith f ".xml") entries
                      = None).
      { induction entries as [| b rest IH]; [reflexivity |]. simpl.
        destruct (Hnone b ltac:(by left)) as [-> ->]. simpl.
        apply IH. intros e He. apply Hnone. by right. }
      by rewrite Hfind.
Qed.

Lemma environment_lookup_order_witness :
  findAasEnvironmentInAasx Cases.packaged Cases.extracted "/tmp/aas-ci-lint-Ab12Cd/model"
  = Some "/tmp/aas-ci-lint-Ab12Cd/model/aasx/aas-environment.json".
Proof.
  apply (proj1 (environment_lookup_order Cases.packaged Cases.extracted
                  "/tmp/aas-ci-lint-Ab12Cd/model")).
  reflexivity.
Defined.

End DiscoveryExtras.

(** ** Cardinality strings *)

Module CardinalityExtras.
Import TemplateEngine.

Lemma removeSpaces_idempotent (s : string) : removeSpaces (removeSpaces s) = removeSpaces s.
Proof.
  induction s as [| c rest IH]; [reflexivity |]. simpl.
  destruct (isSpace c) eqn:E; [exact IH |]. simpl. by rewrite E, IH.
Qed.

(** X9. White space is ignored wherever it stands in a cardinality string:
    a string and the string without its white space parse alike. *)
Theorem cardinality_ignores_white_space (value : string) :
  parseCardinality value = parseCardinality (removeSpaces value).
Proof.
  unfold parseCardinality. rewrite removeSpaces_idempotent.
  destruct (nonEmpty value) eqn:Hv; simpl.
  - destruct (nonEmpty (removeSpaces value)) eqn:Hn; simpl; [reflexivity |].
    unfold nonEmpty in Hn. apply negb_false_iff, String.eqb_eq in Hn.
    rewrite Hn. reflexivity.
  - unfold nonEmpty in Hv. apply negb_false_iff, String.eqb_eq in Hv. subst value.
    reflexivity.
Qed.

Lemma digitsValue_of_uint (d : Decimal.uint) :
  forall acc : nat,
    digitsValue (Z.of_nat acc) (NilEmpty.string_of_uint d)
    = Z.of_nat (Nat.of_uint_acc d acc).
Proof.
  induction d as [| d IH | d IH | d IH | d IH | d IH | d IH | d IH | d IH | d IH | d IH];
    intros acc; [reflexivity | ..];
    cbn [NilEmpty.string_of_uint digitsValue Nat.of_uint_acc];
    rewrite <- IH; f_equal; rewrite Nat.tail_mul_spec; unfold digitValue; simpl; lia.
Qed.

Lemma digitsValue_natToString (n : nat) : digitsValue 0 (natToString n) = Z.of_nat n.
Proof.
  unfold natToString.
  pose proof (digitsValue_of_uint (Nat.to_uint n) 0%nat) as H.
  change (Z.of_nat 0) with 0 in H. rewrite H.
  change (Nat.of_uint_acc (Nat.to_uint n) 0) with (Nat.of_uint (Nat.to_uint n)).
  by rewrite Unsigned.of_to.
Qed.

Lemma allDigits_of_uint (d : Decimal.uint) : allDigits (NilEmpty.string_of_uint d) = true.
Proof. induction d; simpl; auto. Qed.

Lemma natToString_nonEmpty (n : nat) : nonEmpty (natToString n) = true.
Proof.
  unfold natToString. destruct (Nat.to_uint n) eqn:E; try reflexivity.
  exfalso. pose proof (f_equal Nat.of_uint E) as E0. rewrite Unsigned.of_to in E0.
  simpl in E0. subst n. vm_compute in E. discriminate.
Qed.

Lemma spanDigits_digits (ds rest : string) :
  allDigits ds = true ->
  match rest with String c _ => isDigit c = false | EmptyString => True end ->
  spanDigits (ds +:+ rest) = (ds, rest).
Proof.
  intros Hds Hrest. induction ds as [| c ds IH].
  - change (EmptyString +:+ rest) with rest. destruct rest as [| c r]; [reflexivity |].
    simpl. by rewrite Hrest.
  - simpl in Hds. apply andb_true_iff in Hds as [Hc Hds].
    change (String c ds +:+ rest) with (String c (ds +:+ rest)).
    simpl. by rewrite Hc, (IH Hds).
Qed.

Lemma digit_is_no_space (c : ascii) : isDigit c = true -> isSpace c = false.
Proof.
  unfold isDigit, isSpace. intros Hc.
  apply andb_true_iff in Hc as [H1 H2]. apply N.leb_le in H1, H2.
  repeat rewrite orb_false_iff. repeat split.
  - apply andb_false_iff. right. apply N.leb_gt. lia.
  - apply N.eqb_neq. lia.
  - apply N.eqb_neq. lia.
Qed.

Lemma removeSpaces_digits (ds rest : string) :
  allDigits ds = true -> removeSpaces (ds +:+ rest) = ds +:+ removeSpaces rest.
Proof.
  intros Hds. induction ds as [| c ds IH]; [reflexivity |].
  simpl in Hds. apply andb_true_iff in Hds as [Hc Hds].
  change (String c ds +:+ rest) with (String c (ds +:+ rest)).
  change (String c ds +:+ removeSpaces rest) with (String c (ds +:+ removeSpaces rest)).
  simpl. by rewrite (IH Hds), (digit_is_no_space c Hc).
Qed.

Lemma removeSpaces_allDigits (ds : string) : allDigits ds = true -> removeSpaces ds = ds.
Proof.
  induction ds as [| c ds IH]; [reflexivity |]. simpl. intros Hds.
  apply andb_true_iff in Hds as [Hc Hds]. by rewrite (digit_is_no_space c Hc), (IH Hds).
Qed.

Lemma range_is_longer (ds tail d : string) :
  nonEmpty ds = true -> String.length d = 1%nat ->
  String.eqb (ds +:+ String "." tail) d = false.
Proof.
  intros Hds Hlen. apply String.eqb_neq. intros <-.
  destruct ds as [| c ds]; [discriminate |].
  change (String c ds +:+ String "." tail) with (String c (ds +:+ String "." tail)) in Hlen.
  simpl in Hlen. destruct ds; discriminate.
Qed.

Lemma parse_range (lo hi : string) :
  nonEmpty lo = true -> allDigits lo = true ->
  removeSpaces hi = hi ->
  String.eqb hi "*" || (nonEmpty hi && allDigits hi) = true ->
  parseCardinality (lo +:+ String "." (String "." hi))
  = Some {| cmin := digitsValue 0 lo;
            cmax := if String.eqb hi "*" then None else Some (digitsValue 0 hi) |}.
Proof.
  intros Hne Hd Hhi Hcond. unfold parseCardinality.
  assert (Hwhole : nonEmpty (lo +:+ String "." (String "." hi)) = true).
  { destruct lo; [discriminate | reflexivity]. }
  rewrite Hwhole. cbn [negb].
  rewrite (removeSpaces_digits _ _ Hd). cbn [removeSpaces].
  change (isSpace "."%char) with false. cbv iota. rewrite Hhi.
  rewrite (range_is_longer lo _ "0" Hne eq_refl), (range_is_longer lo _ "1" Hne eq_refl).
  unfold rangeMatch.
  rewrite (spanDigits_digits lo (String "." (String "." hi)) Hd eq_refl), Hne, Hcond.
  reflexivity.
Qed.

(** X10. A range written with decimal numbers is read back as written,
    for numbers up to [Number.MAX_SAFE_INTEGER], which [parseInt] reads
    exactly: [a..b] parses to minimum [a] and maximum [b], and [a..*] to
    minimum [a] without a maximum. Nothing requires the minimum to be at
    most the maximum. *)
Theorem cardinality_range_round_trip (a b : nat) :
  Z.of_nat a <= Orchestrator.MAX_SAFE_INTEGER ->
  Z.of_nat b <= Orchestrator.MAX_SAFE_INTEGER ->
  parseCardinality (natToString a +:+ ".." +:+ natToString b)
    = Some {| cmin := Z.of_nat a; cmax := Some (Z.of_nat b) |}
  /\ parseCardinality (natToString a +:+ "..*")
     = Some {| cmin := Z.of_nat a; cmax := None |}.
Proof.
  intros _ _.
  pose proof (natToString_nonEmpty a) as Hna.
  pose proof (allDigits_of_uint (Nat.to_uint a)) as Hda. fold (natToString a) in Hda.
  pose proof (natToString_nonEmpty b) as Hnb.
  pose proof (allDigits_of_uint (Nat.to_uint b)) as Hdb. fold (natToString b) in Hdb.
  split.
  - change (natToString a +:+ ".." +:+ natToString b)
      with (natToString a +:+ String "." (String "." (natToString b))).
    rewrite (parse_range _ _ Hna Hda (removeSpaces_allDigits _ Hdb)).
    + rewrite !digitsValue_natToString.
      assert (Hstar : String.eqb (natToString b) "*" = false).
      { apply String.eqb_neq. intros E. rewrite E in Hdb. discriminate. }
      by rewrite Hstar.
    + by rewrite Hnb, Hdb, orb_true_r.
  - change (natToString a +:+ "..*")
      with (natToString a +:+ String "." (String "." "*")).
    rewrite (parse_range (natToString a) "*" Hna Hda eq_refl eq_refl).
    by rewrite digitsValue_natToString.
Qed.

Lemma cardinality_range_round_trip_witness :
  parseCardinality "2..5" = Some {| cmin := 2; cmax := Some 5 |}
  /\ parseCardinality "2..*" = Some {| cmin := 2; cmax := None |}.
Proof.
  apply (cardinality_range_round_trip 2 5); vm_compute; discriminate.
Defined.

End CardinalityExtras.

(** ** What the instance walk collects *)

Module WalkExtras.
Import TemplateEngine Requiredness WalkVocabulary RequirednessFacts SetFacts WalkDepth
  ChainFacts ListFacts.

Lemma elem_of_setAdd (s : list string) (x y : string) :
  y ∈ setAdd s x <-> y = x \/ y ∈ s.
Proof.
  unfold setAdd. destruct (setHas s x) eqn:E.
  - apply setHas_true in E. split; [by right | by intros [-> | ?]].
  - rewrite elem_of_app, list_elem_of_singleton. tauto.
Qed.

Lemma reaches_weaken (roots roots' : list json) (chain : list json) (element : json) :
  (forall e, e ∈ roots -> e ∈ roots') ->
  reaches roots chain element -> reaches roots' chain element.
Proof.
  intros Hsub. destruct chain as [| a rest]; simpl; [by apply Hsub |].
  intros (Hin & Ht & Ho & Hrest). by split; [apply Hsub |].
Qed.

Lemma reaches_children_nonempty (children chain : list json) (element : json) :
  reaches children chain element -> (0 < List.length children)%nat.
Proof.
  destruct chain as [| a rest]; simpl.
  - intros H. destruct children; [by apply elem_of_nil in H | simpl; lia].
  - intros [H _]. destruct children; [by apply elem_of_nil in H | simpl; lia].
Qed.

Lemma visit_instance_ancestor
    (descend : list json -> list string -> list string -> bool -> PathSets -> PathSets)
    (ids sems : list string) (pathSets : PathSets) (ancestor : json) :
  truthy ancestor = true -> typeofObject ancestor = true ->
  (0 < List.length (extractChildElements ancestor))%nat ->
  exists added,
    visitElement descend ids sems true false pathSets ancestor
    = descend (extractChildElements ancestor) (ids ++ idSegment ancestor)%list
        (sems ++ semanticSegment ancestor)%list true added.
Proof.
  intros Ht Ho Hlen. unfold visitElement. rewrite Ht, Ho. simpl.
  apply Nat.ltb_lt in Hlen. rewrite Hlen.
  unfold idSegment, semanticSegment.
  destruct (usable (asString _)), (usable (getSemanticIdValue _));
    rewrite ?app_nil_r; eexists; reflexivity.
Qed.

(** Completeness: every element of the tree leaves its paths. *)
Lemma instance_walk_complete (chain : list json) :
  forall element roots fuel ids sems pathSets,
    reaches roots chain element ->
    (depthAll roots < fuel)%nat ->
    let result := collectPathsRecursive fuel roots ids sems true pathSets false in
    (forall s, usable (asString (get element "idShort")) = Some s ->
               join "/" (ids ++ flat_map idSegment chain ++ [s])%list ∈ idShort result)
    /\ (forall s, usable (getSemanticIdValue (get element "semanticId")) = Some s ->
                  join "/" (sems ++ flat_map semanticSegment chain ++ [s])%list
                    ∈ semantic result).
Proof.
  induction chain as [| ancestor rest IH];
    intros element roots fuel ids sems pathSets Hreach Hfuel.
  - simpl in Hreach. destruct fuel as [| fuel]; [lia |].
    apply list_elem_of_split in Hreach as (before & after & ->).
    cbn zeta. simpl collectPathsRecursive. rewrite fold_left_app. simpl fold_left.
    set (descend := fun children ids' sems' required ps =>
                      collectPathsRecursive fuel children ids' sems' required ps false).
    set (ps0 := fold_left _ before pathSets).
    assert (Hdesc : forall children ids' sems' required ps,
               included ps (descend children ids' sems' required ps)).
    { intros. apply collect_included. }
    pose proof (fold_visit_included descend Hdesc ids sems true false after
                  (visitElement descend ids sems true false ps0 element)) as [Hi Hs].
    split; intros s Hs'.
    + apply Hi. assert (truthy element = true /\ typeofObject element = true) as [Ht Ho].
      { destruct element; simpl in Hs'; try discriminate. by split. }
      by apply (visit_adds descend Hdesc ids sems false ps0 element Ht Ho).
    + apply Hs. assert (truthy element = true /\ typeofObject element = true) as [Ht Ho].
      { destruct element; simpl in Hs'; try discriminate. by split. }
      by apply (visit_adds descend Hdesc ids sems false ps0 element Ht Ho).
  - destruct Hreach as (Hin & Ht & Ho & Hrest).
    destruct fuel as [| fuel]; [lia |].
    pose proof (reaches_children_nonempty _ _ _ Hrest) as Hlen.
    pose proof (depthAll_children ancestor Hlen) as Hdepth.
    pose proof (depthAll_elem roots ancestor Hin) as Hroot.
    apply list_elem_of_split in Hin as (before & after & ->).
    cbn zeta. simpl collectPathsRecursive. rewrite fold_left_app. simpl fold_left.
    set (descend := fun children ids' sems' required ps =>
                      collectPathsRecursive fuel children ids' sems' required ps false).
    set (ps0 := fold_left _ before pathSets).
    assert (Hdesc : forall children ids' sems' required ps,
               included ps (descend children ids' sems' required ps)).
    { intros. apply collect_included. }
    destruct (visit_instance_ancestor descend ids sems ps0 ancestor Ht Ho Hlen)
      as (added & ->).
    pose proof (fold_visit_included descend Hdesc ids sems true false after
                  (descend (extractChildElements ancestor) (ids ++ idSegment ancestor)%list
                     (sems ++ semanticSegment ancestor)%list true added)) as [Hi Hs].
    destruct (IH element (extractChildElements ancestor) fuel
                (ids ++ idSegment ancestor)%list
                (sems ++ semanticSegment ancestor)%list added Hrest ltac:(lia))
      as [Hid Hsem].
    split; intros s Hs'.
    + apply Hi. specialize (Hid s Hs'). simpl flat_map.
      by rewrite <- !app_assoc in Hid |- *.
    + apply Hs. specialize (Hsem s Hs'). simpl flat_map.
      by rewrite <- !app_assoc in Hsem |- *.
Qed.

(** Soundness: whatever a walk adds is the path of an element of the
    tree, in either mode. *)
Lemma walk_sound (fuel : nat) :
  forall roots ids sems required pathSets requiredOnly,
    let result :=
      collectPathsRecursive fuel roots ids sems required pathSets requiredOnly in
    (forall x, x ∈ idShort result ->
       x ∈ idShort pathSets
       \/ exists chain element s,
            reaches roots chain element
            /\ usable (asString (get element "idShort")) = Some s
            /\ x = join "/" (ids ++ flat_map idSegment chain ++ [s])%list)
    /\ (forall x, x ∈ semantic result ->
       x ∈ semantic pathSets
       \/ exists chain element s,
            reaches roots chain element
            /\ usable (getSemanticIdValue (get element "semanticId")) = Some s
            /\ x = join "/" (sems ++ flat_map semanticSegment chain ++ [s])%list).
Proof.
  induction fuel as [| fuel IH]; intros roots ids sems required pathSets requiredOnly;
    [simpl; split; intros x Hx; by left |].
  cbn zeta. simpl collectPathsRecursive.
  set (descend := fun children ids' sems' required' ps =>
                    collectPathsRecursive fuel children ids' sems' required' ps
                      requiredOnly).
  revert pathSets. induction roots as [| e rest IHr]; intros pathSets;
    [simpl; split; intros x Hx; by left |].
  simpl fold_left.
  destruct (IHr (visitElement descend ids sems required requiredOnly pathSets e))
    as [Hid Hsem].
  assert (Hlift : forall chain element, reaches rest chain element ->
                                        reaches (e :: rest) chain element).
  { intros chain element. apply reaches_weaken. intros y Hy. by right. }
  assert (Hvisit :
    (forall x, x ∈ idShort (visitElement descend ids sems required requiredOnly pathSets e) ->
       x ∈ idShort pathSets
       \/ exists chain element s,
            reaches (e :: rest) chain element
            /\ usable (asString (get element "idShort")) = Some s
            /\ x = join "/" (ids ++ flat_map idSegment chain ++ [s])%list)
    /\ (forall x, x ∈ semantic (visitElement descend ids sems required requiredOnly pathSets e) ->
       x ∈ semantic pathSets
       \/ exists chain element s,
            reaches (e :: rest) chain element
            /\ usable (getSemanticIdValue (get element "semanticId")) = Some s
            /\ x = join "/" (sems ++ flat_map semanticSegment chain ++ [s])%list)).
  { unfold visitElement.
    destruct (negb (truthy e) || negb (typeofObject e)) eqn:Hskip;
      [split; intros x Hx; by left |].
    apply orb_false_iff in Hskip as [Ht Ho].
    apply negb_false_iff in Ht, Ho.
    set (added := if negb requiredOnly || _ then _ else pathSets).
    assert (Hadded :
      (forall x, x ∈ idShort added ->
         x ∈ idShort pathSets
         \/ exists s, usable (asString (get e "idShort")) = Some s
                      /\ x = join "/" (ids ++ [s])%list)
      /\ (forall x, x ∈ semantic added ->
         x ∈ semantic pathSets
         \/ exists s, usable (getSemanticIdValue (get e "semanticId")) = Some s
                      /\ x = join "/" (sems ++ [s])%list)).
    { subst added. destruct (negb requiredOnly || _); [| split; intros x Hx; by left].
      simpl. split; intros x Hx.
      - destruct (usable (asString (get e "idShort"))) as [s |]; [| by left].
        apply elem_of_setAdd in Hx as [-> | Hx]; [right; by exists s | by left].
      - destruct (usable (getSemanticIdValue (get e "semanticId"))) as [s |]; [| by left].
        apply elem_of_setAdd in Hx as [-> | Hx]; [right; by exists s | by left]. }
    destruct Hadded as [Haid Hasem].
    assert (Hown_id : forall x, x ∈ idShort added ->
       x ∈ idShort pathSets
       \/ exists chain element s,
            reaches (e :: rest) chain element
            /\ usable (asString (get element "idShort")) = Some s
            /\ x = join "/" (ids ++ flat_map idSegment chain ++ [s])%list).
    { intros x Hx. destruct (Haid x Hx) as [? | (s & Hs & ->)]; [by left |].
      right. exists [], e, s. split; [by left | by split]. }
    assert (Hown_sem : forall x, x ∈ semantic added ->
       x ∈ semantic pathSets
       \/ exists chain element s,
            reaches (e :: rest) chain element
            /\ usable (getSemanticIdValue (get element "semanticId")) = Some s
            /\ x = join "/" (sems ++ flat_map semanticSegment chain ++ [s])%list).
    { intros x Hx. destruct (Hasem x Hx) as [? | (s & Hs & ->)]; [by left |].
      right. exists [], e, s. split; [by left | by split]. }
    destruct (0 <? List.length (extractChildElements e))%nat; [| by split].
    match goal with |- context [descend ?c ?a ?b ?r added] =>
      destruct (IH c a b r added requiredOnly) as [Hcid Hcsem];
      fold (descend c a b r added) in Hcid, Hcsem;
      assert (Ha : a = (ids ++ idSegment e)%list)
        by (unfold idSegment; destruct (usable (asString _)); by rewrite ?app_nil_r);
      assert (Hb : b = (sems ++ semanticSegment e)%list)
        by (unfold semanticSegment; destruct (usable (getSemanticIdValue _));
            by rewrite ?app_nil_r)
    end.
    split; intros x Hx.
    - destruct (Hcid x Hx) as [Hx' | (chain & element & s & Hr & Hs & ->)];
        [by apply Hown_id |].
      right. exists (e :: chain), element, s. split; [| split; [done |]].
      + simpl. split; [by left | by split].
      + rewrite Ha. simpl flat_map. by rewrite <- !app_assoc.
    - destruct (Hcsem x Hx) as [Hx' | (chain & element & s & Hr & Hs & ->)];
        [by apply Hown_sem |].
      right. exists (e :: chain), element, s. split; [| split; [done |]].
      + simpl. split; [by left | by split].
      + rewrite Hb. simpl flat_map. by rewrite <- !app_assoc. }
  destruct Hvisit as [Hvid Hvsem].
  split; intros x Hx.
  - destruct (Hid x Hx) as [Hx' | (chain & element & s & Hr & Hs & ->)];
      [by apply Hvid |].
    right. exists chain, element, s. split; [by apply Hlift | by split].
  - destruct (Hsem x Hx) as [Hx' | (chain & element & s & Hr & Hs & ->)];
      [by apply Hvsem |].
    right. exists chain, element, s. split; [by apply Hlift | by split].
Qed.

(** X11. What the instance walk collects is exactly what the document
    contains: a string is in the idShort set of [collectInstancePaths] if
    and only if it is the idShort path of an element of the tree, and in
    the semantic set if and only if it is the semantic path of one.
    Qualifiers play no part in instance mode. *)
Theorem instance_paths_are_the_element_paths (roots : list json) (path : string) :
  (path ∈ idShort (collectInstancePaths roots) <-> isIdShortPathOf roots path)
  /\ (path ∈ semantic (collectInstancePaths roots) <-> isSemanticPathOf roots path).
Proof.
  unfold collectInstancePaths, isIdShortPathOf, isSemanticPathOf.
  destruct (walk_sound (S (depthAll roots)) roots [] [] true emptyPathSets false)
    as [Hid Hsem].
  split; split.
  - intros Hx. destruct (Hid path Hx) as [Hx' | H]; [by apply elem_of_nil in Hx' | exact H].
  - intros (chain & element & s & Hr & Hs & ->).
    by apply (instance_walk_complete chain element roots (S (depthAll roots)) [] []
                emptyPathSets Hr ltac:(lia)).
  - intros Hx. destruct (Hsem path Hx) as [Hx' | H]; [by apply elem_of_nil in Hx' | exact H].
  - intros (chain & element & s & Hr & Hs & ->).
    by apply (instance_walk_complete chain element roots (S (depthAll roots)) [] []
                emptyPathSets Hr ltac:(lia)).
Qed.

(** X12. Every required path of a template is the path of an element of
    the template, so a document checked against the template that was
    built from it lacks nothing: the required paths of a submodel are
    among its own instance paths, and [checkSubmodel] against the index
    made of that submodel alone returns no finding. *)
Theorem a_template_conforms_to_itself (submodel : json) (file file' : string)
    (ip : option string) (i : nat) :
  included (collectTemplatePaths (arrayOrEmpty (get submodel "submodelElements")))
           (collectInstancePaths (arrayOrEmpty (get submodel "submodelElements")))
  /\ checkSubmodel (indexSubmodel file ∅ submodel) file' ip i submodel = [].
Proof.
  set (elements := arrayOrEmpty (get submodel "submodelElements")).
  assert (Hinc : included (collectTemplatePaths elements) (collectInstancePaths elements)).
  { destruct (walk_sound (S (depthAll elements)) elements [] [] true emptyPathSets true)
      as [Hid Hsem].
    split; intros x Hx.
    - destruct (Hid x Hx) as [Hx' | (chain & element & s & Hr & Hs & ->)];
        [by apply elem_of_nil in Hx' |].
      by apply (instance_walk_complete chain element elements (S (depthAll elements))
                  [] [] emptyPathSets Hr ltac:(lia)).
    - destruct (Hsem x Hx) as [Hx' | (chain & element & s & Hr & Hs & ->)];
        [by apply elem_of_nil in Hx' |].
      by apply (instance_walk_complete chain element elements (S (depthAll elements))
                  [] [] emptyPathSets Hr ltac:(lia)). }
  split; [exact Hinc |].
  unfold checkSubmodel, matchTemplate, indexSubmodel.
  destruct (usable (getSemanticIdValue (get submodel "semanticId"))) as [k |]; [| done].
  rewrite lookup_empty, lookup_insert_eq. simpl. fold elements.
  destruct Hinc as [Hi Hs].
  assert (Hnone : forall l, (forall x, x ∈ l -> x ∈ idShort (collectInstancePaths elements)
                                       \/ x ∈ semantic (collectInstancePaths elements)) ->
                            List.filter (missingFrom (collectInstancePaths elements)) l = []).
  { induction l as [| x rest IHl]; intros Hl; [reflexivity |]. simpl.
    assert (Hx : missingFrom (collectInstancePaths elements) x = false).
    { unfold missingFrom. destruct (Hl x ltac:(by left)) as [H | H];
        apply setHas_true in H; rewrite H; simpl; by rewrite ?andb_false_r. }
    rewrite Hx. apply IHl. intros y Hy. apply Hl. by right. }
  rewrite !Hnone; [reflexivity | |].
  - intros x Hx. right. by apply Hs.
  - intros x Hx. left. by apply Hi.
Qed.

End WalkExtras.

(** ** The template engine across calls *)

Module EngineExtras.
Import TemplateEngine EngineRuns Ordering ListFacts IndexFacts.

Section WithPlatform.
Context (p : Platform) (options : TemplateEngineOptions).

Lemma validate_unresolved_warned (file : string) (config : LintConfig) (st : EngineState) :
  usable (resolveTemplateDir p options config) = None ->
  warnedMissingTemplates st = true ->
  validate p options file config st = (Ok [], st).
Proof.
  intros Hdir Hw. unfold validate. by rewrite Hdir, Hw, orb_true_r.
Qed.

Lemma validateEach_warned (config : LintConfig) (files : list string) :
  usable (resolveTemplateDir p options config) = None ->
  forall st, warnedMissingTemplates st = true ->
    returned (fst (validateEach p options config files st)) = []
    /\ snd (validateEach p options config files st) = st.
Proof.
  intros Hdir. induction files as [| file rest IH]; intros st Hw; [by split |].
  simpl. rewrite (validate_unresolved_warned file config st Hdir Hw).
  destruct (IH st Hw) as [Hfs Hst].
  destruct (validateEach p options config rest st) as [rs st2]. simpl in *.
  by rewrite Hfs, Hst.
Qed.

(** X13. When no template directory is resolved, one engine instance
    reports that at most once, however many files it is given: over any
    sequence of calls the findings returned are none, or the single
    templates-not-found note located at the first file of the sequence
    for which the note was still due; no call throws. *)
Theorem templates_not_found_is_reported_once (config : LintConfig) (files : list string)
    (st : EngineState) :
  usable (resolveTemplateDir p options config) = None ->
  let outcomes := fst (validateEach p options config files st) in
  (forall r, r ∈ outcomes -> exists fs, r = Ok fs)
  /\ (List.length (returned outcomes) <= 1)%nat
  /\ (forall f, f ∈ returned outcomes ->
        exists file, file ∈ files /\ f = templatesNotFoundFinding file)
  /\ (warnedMissingTemplates st = true \/ hasExplicitTemplateConfig p options config = false ->
      returned outcomes = []).
Proof.
  intros Hdir. simpl. revert st.
  induction files as [| file rest IH]; intros st.
  - simpl. split; [intros r Hr; by apply elem_of_nil in Hr |].
    split; [lia |]. split; [intros f Hf; by apply elem_of_nil in Hf | done].
  - assert (Hv : validate p options file config st =
                  if negb (hasExplicitTemplateConfig p options config)
                     || warnedMissingTemplates st
                  then (Ok [], st)
                  else (Ok [templatesNotFoundFinding file],
                        {| templateIndex := templateIndex st;
                           loadedTemplateDir := loadedTemplateDir st;
                           loadedTemplateVersion := loadedTemplateVersion st;
                           warnedMissingTemplates := true |})).
    { unfold validate. by rewrite Hdir. }
    cbn [validateEach]. rewrite Hv. clear Hv.
    destruct (negb (hasExplicitTemplateConfig p options config)
              || warnedMissingTemplates st) eqn:Hquiet.
    + destruct (IH st) as (Hok & Hlen & Hshape & Hnone).
      destruct (validateEach p options config rest st) as [rs st2]. simpl in *.
      split; [| split; [exact Hlen | split]].
      * intros r Hr. apply elem_of_cons in Hr as [-> | Hr]; [by exists [] | by apply Hok].
      * intros f Hf. destruct (Hshape f Hf) as (file' & Hin & ->).
        exists file'. split; [by right | done].
      * exact Hnone.
    + apply orb_false_iff in Hquiet as [Hexp Hw]. apply negb_false_iff in Hexp.
      set (st1 := {| templateIndex := templateIndex st;
                     loadedTemplateDir := loadedTemplateDir st;
                     loadedTemplateVersion := loadedTemplateVersion st;
                     warnedMissingTemplates := true |}).
      destruct (validateEach_warned config rest Hdir st1 eq_refl) as [Hfs _].
      destruct (IH st1) as (Hok & _).
      destruct (validateEach p options config rest st1) as [rs st2]. simpl in *.
      rewrite Hfs. split; [| split; [simpl; lia | split]].
      * intros r Hr. apply elem_of_cons in Hr as [-> | Hr]; [by eexists | by apply Hok].
      * intros f Hf. apply list_elem_of_singleton in Hf. subst f.
        exists file. split; [by left | done].
      * intros [H | H]; congruence.
Qed.

(** X14. The index is built once per directory and version: after a call
    that obtained an index, the engine answers every later request for the
    same directory and the same [templateVersion] from its state alone,
    whatever has become of the files since (any platform), and leaves its
    state as it is. *)
Theorem template_index_is_cached (dir : string) (config : LintConfig)
    (st st' : EngineState) (index' : gmap string TemplateSpec) :
  ensureTemplateIndex p dir config st = Ok (index', st') ->
  templateIndex st' = Some index'
  /\ loadedTemplateDir st' = Some dir
  /\ loadedTemplateVersion st' = templateVersion config
  /\ warnedMissingTemplates st' = warnedMissingTemplates st
  /\ forall (later : Platform) (config' : LintConfig),
       templateVersion config' = templateVersion config ->
       ensureTemplateIndex later dir config' st' = Ok (index', st').
Proof.
  intros H.
  assert (Hst : templateIndex st' = Some index'
                /\ loadedTemplateDir st' = Some dir
                /\ loadedTemplateVersion st' = templateVersion config
                /\ warnedMissingTemplates st' = warnedMissingTemplates st).
  { unfold ensureTemplateIndex in H.
    destruct (templateIndex st) as [cached |] eqn:Ec.
    - destruct (bool_decide (loadedTemplateDir st = Some dir)
                && bool_decide (loadedTemplateVersion st = templateVersion config)) eqn:Eb.
      + injection H as <- <-. apply andb_true_iff in Eb as [E1 E2].
        apply bool_decide_eq_true in E1, E2. by repeat split.
      + destruct (loadTemplates p dir (templateVersion config)); [| discriminate].
        injection H as <- <-. by repeat split.
    - destruct (loadTemplates p dir (templateVersion config)); [| discriminate].
      injection H as <- <-. by repeat split. }
  destruct Hst as (H1 & H2 & H3 & H4). repeat split; try done.
  intros later config' Hv. unfold ensureTemplateIndex.
  rewrite H1, H2, H3, Hv. by rewrite !bool_decide_eq_true_2.
Qed.

Lemma usable_nonEmpty (sid : option string) (k : string) :
  usable sid = Some k -> nonEmpty k = true.
Proof.
  unfold usable. destruct sid as [s |]; [| discriminate].
  destruct (nonEmpty s) eqn:E; [| discriminate]. by intros [= <-].
Qed.

Section Index.
Import IndexVocabulary.
Context (version : option string) (files : list string).


Lemma indexSubmodel_sound (file : string) (submodels : list json) (submodel : json)
    (idx : gmap string TemplateSpec) :
  isTemplateFile p version files file submodels -> submodel ∈ submodels ->
  wellIndexed p version files idx ->
  wellIndexed p version files (indexSubmodel file idx submodel).
Proof.
  intros Hfile Hin Hinv k spec. unfold indexSubmodel.
  destruct (usable (getSemanticIdValue (get submodel "semanticId"))) as [tid |] eqn:Hid;
    [| apply Hinv].
  destruct (idx !! tid) eqn:Hold; [apply Hinv |].
  destruct (decide (tid = k)) as [-> | Hne].
  - rewrite lookup_insert_eq. intros [= <-]. split; [done |].
    split; [by eapply usable_nonEmpty |].
    exists submodels, submodel. simpl. split; [exact Hfile |]. by repeat split.
  - rewrite lookup_insert_ne; [apply Hinv | done].
Qed.

Lemma indexSubmodels_sound (file : string) (submodels : list json) (l : list json) :
  isTemplateFile p version files file submodels ->
  (forall x, x ∈ l -> x ∈ submodels) ->
  forall idx, wellIndexed p version files idx ->
              wellIndexed p version files (fold_left (indexSubmodel file) l idx).
Proof.
  intros Hfile. induction l as [| x rest IH]; intros Hsub idx Hinv; [done |].
  simpl. apply IH; [intros y Hy; apply Hsub; by right |].
  eapply indexSubmodel_sound; [exact Hfile | apply Hsub; by left | done].
Qed.

Lemma indexFile_sound (file : string) (idx : gmap string TemplateSpec) :
  file ∈ files -> wellIndexed p version files idx ->
  wellIndexed p version files (indexFile p (normalizeVersion version) idx file).
Proof.
  intros Hin Hinv. unfold indexFile.
  destruct (match normalizeVersion version with
            | Some v => negb (includes file v) | None => false end) eqn:Hskip; [done |].
  unfold safeReadJson. destruct (fs_readJson p file) as [data |] eqn:Hread; [| done].
  destruct (negb (truthy data)) eqn:Ht; [done |].
  destruct (get data "submodels") as [[| | | | submodels |] |] eqn:Hs; try done.
  apply (indexSubmodels_sound file submodels); [| done | done].
  split; [done |]. split.
  - intros v Hv. rewrite Hv in Hskip. by apply negb_false_iff in Hskip.
  - exists data. apply negb_false_iff in Ht. by repeat split.
Qed.

Lemma indexFiles_sound (l : list string) :
  (forall f, f ∈ l -> f ∈ files) ->
  forall idx, wellIndexed p version files idx ->
              wellIndexed p version files
                (fold_left (indexFile p (normalizeVersion version)) l idx).
Proof.
  induction l as [| f rest IH]; intros Hsub idx Hinv; [done |].
  simpl. apply IH; [intros y Hy; apply Hsub; by right |].
  apply indexFile_sound; [apply Hsub; by left | done].
Qed.

Lemma indexFile_registers (file : string) (submodels : list json) (submodel : json)
    (k : string) (idx : gmap string TemplateSpec) :
  isTemplateFile p version files file submodels -> submodel ∈ submodels ->
  usable (getSemanticIdValue (get submodel "semanticId")) = Some k ->
  is_Some (indexFile p (normalizeVersion version) idx file !! k).
Proof.
  intros (Hin & Hver & data & Hread & Ht & Hs) Hsm Hk. unfold indexFile.
  assert (Hskip : match normalizeVersion version with
                  | Some v => negb (includes file v) | None => false end = false).
  { destruct (normalizeVersion version) as [v |]; [| done]. by rewrite (Hver v eq_refl). }
  rewrite Hskip. unfold safeReadJson. rewrite Hread, Ht, Hs. simpl.
  apply list_elem_of_split in Hsm as (before & after & ->).
  rewrite fold_left_app. simpl.
  destruct (indexSubmodel_registers file (fold_left (indexSubmodel file) before idx)
              submodel k Hk) as (spec & Hspec & _).
  exists spec. by apply indexSubmodels_keep.
Qed.

End Index.

(** X15. What the template index holds. Every entry was made from a
    submodel of an enumerated template file (one whose path contains the
    pinned version, when a version other than [latest] is pinned): its key
    is the submodel's non-empty semantic identifier, and it records that
    submodel's idShort, the file, and the required paths of its elements.
    Conversely every semantic identifier carried by a submodel of such a
    file has an entry. *)
Theorem template_index_contents (dir : string) (version : option string)
    (index' : gmap string TemplateSpec) :
  loadTemplates p dir version = Ok index' ->
  exists files,
    fastGlob p [path_join p [dir; "**/*.json"]]
      {| glob_cwd := None; glob_absolute := true; glob_followSymbolicLinks := true;
         glob_ignore := []; glob_onlyFiles := true |} = Ok files
    /\ (forall k spec, index' !! k = Some spec ->
          IndexVocabulary.indexedFrom p version files k spec)
    /\ (forall file submodels submodel k,
          IndexVocabulary.isTemplateFile p version files file submodels ->
          submodel ∈ submodels ->
          usable (getSemanticIdValue (get submodel "semanticId")) = Some k ->
          is_Some (index' !! k)).
Proof.
  unfold loadTemplates. destruct (fastGlob p _ _) as [files | e]; [| discriminate].
  intros [= <-]. exists files. split; [reflexivity |]. split.
  - apply (indexFiles_sound version files files); [done |].
    intros k spec Hk. by rewrite lookup_empty in Hk.
  - intros file submodels submodel k Hfile Hsm Hk.
    pose proof Hfile as (Hin & _).
    apply list_elem_of_split in Hin as (before & after & Hsplit).
    rewrite Hsplit, fold_left_app. simpl.
    destruct (indexFile_registers version files file submodels submodel k
                (fold_left (indexFile p (normalizeVersion version)) before ∅)
                Hfile Hsm Hk) as (spec & Hspec).
    exists spec. by apply indexFiles_first_wins.
Qed.

(** X16. Which directory templates are read from. The directory resolved
    is always an existing one. A directory named by the engine option, the
    configuration or the environment (in that order of precedence) is made
    absolute against the working directory; if it does not exist nothing
    is resolved, and the cache directory is not tried; if it has a
    [published] subdirectory, that one is taken. An option that is the
    empty string hides the configuration and the environment: the cache
    directory is then tried. *)
Theorem template_directory_resolution (config : LintConfig) :
  (forall d, resolveTemplateDir p options config = Some d -> fs_isDirectory p d = true)
  /\ (forall e,
        orElse (opt_templateDir options)
          (orElse (templateDir config) (env_AAS_CI_LINT_TEMPLATE_DIR p)) = Some e ->
        nonEmpty e = true ->
        let root := if path_isAbsolute p e then e else path_resolve p (process_cwd p) e in
        let published := path_join p [root; "published"] in
        resolveTemplateDir p options config =
          if fs_isDirectory p root
          then Some (if fs_isDirectory p published then published else root)
          else None)
  /\ (opt_templateDir options = Some EmptyString ->
      resolveTemplateDir p options config =
        if fs_isDirectory p (getDefaultTemplateDir p)
        then Some (getDefaultTemplateDir p) else None).
Proof.
  assert (Hroot : forall e d, resolveTemplateRoot p e = Some d -> fs_isDirectory p d = true).
  { intros e d. unfold resolveTemplateRoot, dirExistsSync.
    destruct (fs_isDirectory p e) eqn:E1; simpl; [| discriminate].
    destruct (fs_isDirectory p (path_join p [e; "published"])) eqn:E2;
      intros [= <-]; done. }
  split; [| split].
  - intros d. unfold resolveTemplateDir, dirExistsSync.
    destruct (orElse _ _) as [e |].
    + destruct (nonEmpty e).
      * destruct (path_isAbsolute p e); apply Hroot.
      * destruct (fs_isDirectory p (getDefaultTemplateDir p)) eqn:E; [| discriminate].
        by intros [= <-].
    + destruct (fs_isDirectory p (getDefaultTemplateDir p)) eqn:E; [| discriminate].
      by intros [= <-].
  - intros e He Hne. simpl. unfold resolveTemplateDir. rewrite He, Hne.
    unfold resolveTemplateRoot, dirExistsSync.
    destruct (path_isAbsolute p e);
      destruct (fs_isDirectory p _) eqn:E1; simpl; try reflexivity;
      by destruct (fs_isDirectory p (path_join p _)).
  - intros Hempty. unfold resolveTemplateDir, dirExistsSync. rewrite Hempty. reflexivity.
Qed.

Lemma validate_rule_and_path (file : string) (config : LintConfig)
    (st st' : EngineState) (fs : list Finding) (f : Finding) :
  validate p options file config st = (Ok fs, st') -> f ∈ fs ->
  filePath (location f) = file
  /\ (ruleId f = "template-conformance/templates-not-found"
      \/ ruleId f = "template-conformance/missing-element").
Proof.
  unfold validate.
  destruct (usable (resolveTemplateDir p options config)) as [dir |].
  - destruct (ensureTemplateIndex p dir config st) as [[index' st1] | e]; [| discriminate].
    destruct (size index' =? 0)%nat.
    { intros [= <- _] Hf. by apply elem_of_nil in Hf. }
    destruct (loadEnvironment p file) as [[[data ip] |] | e]; [| | discriminate].
    + intros [= <- _] Hf.
      apply TemplateClaims.elem_of_checkSubmodels in Hf as (i & submodel & _ & Hf).
      apply TemplateClaims.elem_of_checkSubmodel in Hf
        as (template & rp & _ & Hrp & _ & ->).
      split; [reflexivity | by right].
    + intros [= <- _] Hf. by apply elem_of_nil in Hf.
  - destruct (negb (hasExplicitTemplateConfig p options config)
              || warnedMissingTemplates st).
    + intros [= <- _] Hf. by apply elem_of_nil in Hf.
    + intros [= <- _] Hf. apply list_elem_of_singleton in Hf. subst f.
      split; [reflexivity | by left].
Qed.

Lemma ensureTemplateIndex_recorded (dir : string) (config : LintConfig)
    (st st' : EngineState) (index' : gmap string TemplateSpec) :
  ensureTemplateIndex p dir config st = Ok (index', st') ->
  templateIndex st' = Some index'.
Proof.
  unfold ensureTemplateIndex. destruct (templateIndex st) as [cached |] eqn:Ec.
  - destruct (bool_decide (loadedTemplateDir st = Some dir)
              && bool_decide (loadedTemplateVersion st = templateVersion config)).
    + by intros [= <- <-].
    + destruct (loadTemplates p dir (templateVersion config)); [| discriminate].
      by intros [= <- <-].
  - destruct (loadTemplates p dir (templateVersion config)); [| discriminate].
    by intros [= <- <-].
Qed.

(** X17. What [validate] can return. Every finding is located at the file
    that was validated, without line or column, and attributed to the
    engine. It is the templates-not-found note, or a missing-element
    error for a submodel of the document that was loaded from the file:
    the submodel stands at the index that the pointer names, the template
    is the entry that the engine's index holds for the submodel's
    semantic identifier, and the path, given as [expectedPath] in the
    details and quoted in the message, is a required path of that
    template that is in neither set of paths collected from the
    submodel. *)
Theorem template_findings_are_about_the_file (file : string) (config : LintConfig)
    (st st' : EngineState) (fs : list Finding) :
  validate p options file config st = (Ok fs, st') ->
  forall f, f ∈ fs ->
    filePath (location f) = file
    /\ source f = engineName
    /\ line (location f) = None
    /\ column (location f) = None
    /\ (f = templatesNotFoundFinding file
        \/ exists index' data ip i submodel template requiredPath,
             templateIndex st' = Some index'
             /\ loadEnvironment p file = Ok (Some (data, ip))
             /\ arrayOrEmpty (get data "submodels") !! i = Some submodel
             /\ matchTemplate index' submodel = Some template
             /\ (requiredPath ∈ requiredIdShortPaths template
                 \/ requiredPath ∈ requiredSemanticPaths template)
             /\ missingFrom
                  (collectInstancePaths (arrayOrEmpty (get submodel "submodelElements")))
                  requiredPath = true
             /\ ruleId f = "template-conformance/missing-element"
             /\ ruleName f = "Missing Template Element"
             /\ severity f = error
             /\ internalPath (location f) = ip
             /\ jsonPointer (location f) = Some ("/submodels/" +:+ natToString i)
             /\ details f = Some [("templateId", Some (JStr (id template)));
                                  ("templateName", tname template);
                                  ("expectedPath", Some (JStr requiredPath));
                                  ("templateSource", Some (JStr (sourcePath template)))]
             /\ (forall shown,
                   tname template = Some (JStr shown) \/
                   (tname template = None /\ shown = id template) ->
                   message f = "Missing required template element " +:+ dquote
                               +:+ requiredPath +:+ dquote +:+ " for template "
                               +:+ shown +:+ ".")).
Proof.
  unfold validate.
  destruct (usable (resolveTemplateDir p options config)) as [dir |].
  - destruct (ensureTemplateIndex p dir config st) as [[index' st1] | e] eqn:Eidx;
      [| discriminate].
    apply ensureTemplateIndex_recorded in Eidx.
    destruct (size index' =? 0)%nat.
    { intros [= <- _] f Hf. by apply elem_of_nil in Hf. }
    destruct (loadEnvironment p file) as [[[data ip] |] | e] eqn:Eenv; [| | discriminate].
    + intros [= <- <-] f Hf.
      apply TemplateClaims.elem_of_checkSubmodels in Hf as (i & submodel & Hi & Hf).
      apply TemplateClaims.elem_of_checkSubmodel in Hf
        as (template & rp & Hmatch & Hrp & Hmiss & ->).
      repeat split; try reflexivity. right.
      exists index', data, ip, i, submodel, template, rp.
      repeat split; try done.
      intros shown [Hname | [Hname ->]]; simpl; unfold displayName; by rewrite Hname.
    + intros [= <- _] f Hf. by apply elem_of_nil in Hf.
  - destruct (negb (hasExplicitTemplateConfig p options config)
              || warnedMissingTemplates st).
    + intros [= <- _] f Hf. by apply elem_of_nil in Hf.
    + intros [= <- _] f Hf. apply list_elem_of_singleton in Hf. subst f.
      repeat split; try reflexivity. by left.
Qed.

(** X18. When [loadEnvironment] yields a document and when it fails. It
    throws only for packages. A document it yields is a truthy JSON value;
    it comes with no internal path from a [.json] file, and from a package
    with the path, relative to the extracted directory, of an environment
    file whose extension is [.json]. Any other extension yields nothing. *)
Theorem environment_loading (file : string) :
  let ext := toLowerCase (path_extname p file) in
  (forall e, loadEnvironment p file = Throw e -> ext = ".aasx")
  /\ (ext <> ".json" -> ext <> ".aasx" -> loadEnvironment p file = Ok None)
  /\ (forall data ip,
        loadEnvironment p file = Ok (Some (data, ip)) ->
        truthy data = true
        /\ ((ext = ".json" /\ ip = None /\ fs_readJson p file = Some data)
            \/ (ext = ".aasx"
                /\ exists tempDir dir tree envPath,
                     Discovery.unpackAasx p file tempDir = Ok (dir, tree)
                     /\ Discovery.findAasEnvironmentInAasx p tree dir = Some envPath
                     /\ toLowerCase (path_extname p envPath) = ".json"
                     /\ tree_readJson tree envPath = Some data
                     /\ ip = Some (path_relative p dir envPath)))).
Proof.
  simpl. unfold loadEnvironment, safeReadJson.
  destruct (String.eqb (toLowerCase (path_extname p file)) ".xml") eqn:Exml.
  { apply String.eqb_eq in Exml. rewrite Exml.
    split; [discriminate |]. split; [done | discriminate]. }
  destruct (String.eqb (toLowerCase (path_extname p file)) ".json") eqn:Ejson.
  { apply String.eqb_eq in Ejson. rewrite Ejson.
    split; [| split; [done |]].
    - intros e. destruct (fs_readJson p file) as [data |]; [| discriminate].
      destruct (truthy data); discriminate.
    - intros data ip. destruct (fs_readJson p file) as [d |] eqn:Hread; [| discriminate].
      destruct (truthy d) eqn:Ht; [| discriminate].
      intros [= <- <-]. split; [done |]. left. by repeat split. }
  destruct (String.eqb (toLowerCase (path_extname p file)) ".aasx") eqn:Eaasx.
  - apply String.eqb_eq in Eaasx. split; [done |]. split; [done |].
    intros data ip.
    destruct (fs_mkdtemp p _) as [tempDir | e]; [| discriminate].
    destruct (Discovery.unpackAasx p file tempDir) as [[dir tree] | e] eqn:Eun;
      [| discriminate].
    destruct (Discovery.findAasEnvironmentInAasx p tree dir) as [envPath |] eqn:Efind;
      [| discriminate].
    destruct (negb (String.eqb (toLowerCase (path_extname p envPath)) ".json")) eqn:Eenv;
      [discriminate |].
    destruct (tree_readJson tree envPath) as [d |] eqn:Hread; [| discriminate].
    destruct (truthy d) eqn:Ht; [| discriminate].
    intros [= <- <-]. split; [done |]. right. split; [done |].
    exists tempDir, dir, tree, envPath.
    apply negb_false_iff, String.eqb_eq in Eenv. by repeat split.
  - apply String.eqb_neq in Ejson, Eaasx.
    split; [discriminate |]. split; [done | discriminate].
Qed.

End WithPlatform.

Lemma templates_not_found_is_reported_once_witness :
  usable (resolveTemplateDir (Sample.platform [] [] []) Sample.noOptions
            Sample.pinnedConfig) = None
  /\ returned (fst (validateEach (Sample.platform [] [] []) Sample.noOptions
                      Sample.pinnedConfig ["/repo/a.json"; "/repo/b.json"] initialState))
     = [templatesNotFoundFinding "/repo/a.json"]
  /\ (List.length
        (returned (fst (validateEach (Sample.platform [] [] []) Sample.noOptions
                          Sample.pinnedConfig ["/repo/a.json"; "/repo/b.json"]
                          initialState))) <= 1)%nat.
Proof.
  split; [reflexivity |]. split; [reflexivity |].
  destruct (templates_not_found_is_reported_once (Sample.platform [] [] [])
              Sample.noOptions Sample.pinnedConfig ["/repo/a.json"; "/repo/b.json"]
              initialState eq_refl) as (_ & Hlen & _).
  exact Hlen.
Defined.

Lemma template_index_is_cached_witness :
  exists index' st',
    ensureTemplateIndex Sample.templated "/templates" Sample.templatedConfig initialState
      = Ok (index', st')
    /\ forall (later : Platform),
         ensureTemplateIndex later "/templates" Sample.templatedConfig st'
           = Ok (index', st').
Proof.
  destruct (ensureTemplateIndex Sample.templated "/templates" Sample.templatedConfig
              initialState) as [[index' st'] | e] eqn:E; [| discriminate E].
  exists index', st'. split; [reflexivity |].
  destruct (template_index_is_cached Sample.templated "/templates"
              Sample.templatedConfig initialState st' index' E) as (_ & _ & _ & _ & H).
  intros later. by apply H.
Defined.

Lemma template_index_contents_witness :
  exists index',
    loadTemplates Sample.templated "/templates" None = Ok index'
    /\ is_Some (index' !! "urn:nameplate").
Proof.
  destruct (loadTemplates Sample.templated "/templates" None) as [index' | e] eqn:E;
    [| discriminate E].
  exists index'. split; [reflexivity |].
  destruct (template_index_contents Sample.templated "/templates" None index' E)
    as (files & Hfiles & _ & Hall).
  injection Hfiles as <-.
  apply (Hall "/templates/nameplate.json"
           [JObj [("idShort", JStr "Nameplate");
                  ("semanticId", JStr "urn:nameplate");
                  ("submodelElements",
                   JArr [Sample.optionalElement; Sample.requiredElement])]]
           (JObj [("idShort", JStr "Nameplate");
                  ("semanticId", JStr "urn:nameplate");
                  ("submodelElements",
                   JArr [Sample.optionalElement; Sample.requiredElement])])).
  - split; [by left |]. split; [discriminate |].
    exists Sample.templateDoc. by repeat split.
  - by left.
  - reflexivity.
Defined.

Lemma template_findings_are_about_the_file_witness :
  exists fs st',
    validate Sample.templated Sample.noOptions "/repo/plate.json" Sample.templatedConfig
      initialState = (Ok fs, st')
    /\ fs <> []
    /\ forall f, f ∈ fs ->
         filePath (location f) = "/repo/plate.json" /\ source f = engineName.
Proof.
  destruct (validate Sample.templated Sample.noOptions "/repo/plate.json"
              Sample.templatedConfig initialState) as [[fs | e] st'] eqn:E;
    [| vm_compute in E; discriminate E].
  exists fs, st'. split; [reflexivity |]. split.
  - intros ->. vm_compute in E. discriminate E.
  - intros f Hf.
    destruct (template_findings_are_about_the_file Sample.templated Sample.noOptions
                "/repo/plate.json" Sample.templatedConfig initialState st' fs E f Hf)
      as (Hpath & Hsource & _).
    by split.
Defined.

End EngineExtras.

(** ** Strings *)

Module StringFacts.
Import JsText.

Lemma length_append (a b : string) :
  String.length (a +:+ b) = (String.length a + String.length b)%nat.
Proof.
  induction a as [| c a IH]; [reflexivity |].
  change (S (String.length (a +:+ b)) = S (String.length a + String.length b)).
  by rewrite IH.
Qed.

Lemma length_substring_0 (n : nat) (s : string) :
  String.length (substring 0 n s) = Nat.min n (String.length s).
Proof.
  revert s. induction n as [| n IH]; intros s; destruct s as [| c s]; simpl; try reflexivity.
  by rewrite IH.
Qed.

Lemma takeUntil_none (stop : ascii -> bool) (s : string) :
  Forall (fun c => stop c = false) (list_ascii_of_string s) -> takeUntil stop s = s.
Proof.
  induction s as [| c s IH]; [reflexivity |]. simpl. intros H.
  apply Forall_cons in H as [Hc Hs]. rewrite Hc. by rewrite IH.
Qed.

Lemma takeUntil_stops (stop : ascii -> bool) (s : string) :
  Forall (fun c => stop c = false) (list_ascii_of_string (takeUntil stop s)).
Proof.
  induction s as [| c s IH]; [constructor |]. simpl.
  destruct (stop c) eqn:E; [constructor |]. simpl. by constructor.
Qed.

Lemma length_takeUntil (stop : ascii -> bool) (s : string) :
  (String.length (takeUntil stop s) <= String.length s)%nat.
Proof.
  induction s as [| c s IH]; [reflexivity |]. simpl.
  destruct (stop c); simpl; lia.
Qed.

Lemma length_repeatChar (c : ascii) (n : nat) : String.length (repeatChar c n) = n.
Proof. induction n as [| n IH]; [reflexivity |]. simpl. by rewrite IH. Qed.

Lemma list_ascii_append (a b : string) :
  list_ascii_of_string (a +:+ b) = (list_ascii_of_string a ++ list_ascii_of_string b)%list.
Proof.
  induction a as [| c a IH]; [reflexivity |].
  change (c :: list_ascii_of_string (a +:+ b)
          = c :: (list_ascii_of_string a ++ list_ascii_of_string b)%list).
  by rewrite IH.
Qed.

End StringFacts.

(** ** The wrapper of the AAS test engines *)

Module WrapperExtras.
Import AasTestEngines JsText Ordering ListFacts StringFacts.

Lemma generateRuleId_cases (message' : string) :
  generateRuleId message' ∈
    ["aas-test-engines/constraint/required-property";
     "aas-test-engines/constraint/type-mismatch";
     "aas-test-engines/semantic/invalid-reference";
     "aas-test-engines/structure/invalid-structure";
     "aas-test-engines/validation/generic"].
Proof.
  unfold generateRuleId.
  repeat (match goal with |- context [if ?b then _ else _] => destruct b end);
    rewrite !list_elem_of_In; vm_compute; tauto.
Qed.

Lemma generateRuleId_format (message' : string) :
  hasRuleFormat engineName (generateRuleId message').
Proof.
  pose proof (generateRuleId_cases message') as H.
  repeat (apply elem_of_cons in H as [-> | H]);
    [.. | by apply elem_of_nil in H]; eexists _, _; vm_compute; reflexivity.
Qed.

Lemma extractRuleName_length (message' : string) :
  (String.length (extractRuleName message') <= 50)%nat.
Proof.
  unfold extractRuleName.
  destruct (String.length (takeUntil endsSentence message') <=? 50)%nat eqn:E.
  - by apply Nat.leb_le in E.
  - apply Nat.leb_gt in E. rewrite length_append, length_substring_0.
    change (String.length "...") with 3%nat. lia.
Qed.

(** X19. The rule identifier that the wrapper derives from a message is
    one of five fixed identifiers, each the engine name followed by a
    category and a code; the rule name is at most 50 characters long,
    and is the message itself when the message is no longer than that
    and holds no full stop, exclamation mark or question mark. *)
Theorem wrapper_rules_are_well_formed (message' : string) :
  hasRuleFormat engineName (generateRuleId message')
  /\ generateRuleId message' ∈
       ["aas-test-engines/constraint/required-property";
        "aas-test-engines/constraint/type-mismatch";
        "aas-test-engines/semantic/invalid-reference";
        "aas-test-engines/structure/invalid-structure";
        "aas-test-engines/validation/generic"]
  /\ (String.length (extractRuleName message') <= 50)%nat
  /\ ((String.length message' <= 50)%nat ->
      Forall (fun c => endsSentence c = false) (list_ascii_of_string message') ->
      extractRuleName message' = message').
Proof.
  split; [apply generateRuleId_format |]. split; [apply generateRuleId_cases |].
  split; [apply extractRuleName_length |].
  intros Hlen Hnone. unfold extractRuleName. rewrite (takeUntil_none _ _ Hnone).
  apply Nat.leb_le in Hlen. by rewrite Hlen.
Qed.

Lemma elem_of_imap_findings (file : string) (vs : list TestEngineViolation) (f : Finding) :
  f ∈ imap (violationFinding file) vs ->
  exists i v, vs !! i = Some v /\ f = violationFinding file i v.
Proof.
  intros Hf. apply list_elem_of_lookup in Hf as [i Hi].
  rewrite list_lookup_imap in Hi.
  destruct (vs !! i) as [v |] eqn:E; [| discriminate].
  injection Hi as <-. by exists i, v.
Qed.

Lemma parseOutput_located (output : TestEngineOutput) (file : string) (f : Finding) :
  f ∈ parseOutput output file -> filePath (location f) = file.
Proof.
  unfold parseOutput. intros Hf.
  destruct (out_violations output) as [vs |]; [| by apply elem_of_nil in Hf].
  destruct (out_valid output || (List.length vs =? 0)%nat);
    [by apply elem_of_nil in Hf |].
  by apply elem_of_imap_findings in Hf as (i & v & _ & ->).
Qed.

(** X20. What [parseOutput] makes of the tool's verdict: nothing when the
    verdict is valid or lists no violation, and otherwise one finding per
    violation, in order. The finding of the i-th violation carries its
    message, its path as the pointer and i as the violation index; it is
    located at the validated file, without a line, attributed to the
    engine, and its rule identifier has the three-part form. A level
    other than [warning] and [info], or none, counts as an error. *)
Theorem wrapper_findings (output : TestEngineOutput) (file : string) :
  let result := parseOutput output file in
  (out_valid output = true \/ out_violations output = None
   \/ out_violations output = Some [] -> result = [])
  /\ (forall vs, out_valid output = false -> out_violations output = Some vs ->
        List.length result = List.length vs
        /\ forall i v, vs !! i = Some v ->
             exists f, result !! i = Some f
               /\ message f = v_message v
               /\ jsonPointer (location f) = v_path v
               /\ details f = Some [("violationIndex", Some (JNum (Z.of_nat i)))]
               /\ (severity f = warning <-> v_level v = Some "warning")
               /\ (severity f = note <-> v_level v = Some "info"))
  /\ (forall f, f ∈ result ->
        filePath (location f) = file
        /\ line (location f) = None
        /\ source f = engineName
        /\ hasRuleFormat engineName (ruleId f)).
Proof.
  simpl. unfold parseOutput. split; [| split].
  - intros [Hv | [Hn | He]].
    + rewrite Hv. by destruct (out_violations output).
    + by rewrite Hn.
    + rewrite He. simpl. by rewrite orb_true_r.
  - intros vs Hv Hvs. rewrite Hv, Hvs. simpl.
    destruct vs as [| v0 rest]; [split; [reflexivity |]; intros i v Hi; by destruct i |].
    simpl (List.length (v0 :: rest) =? 0)%nat. cbv iota.
    split; [by rewrite length_imap |].
    intros i v Hi. exists (violationFinding file i v).
    split; [by rewrite list_lookup_imap, Hi |].
    repeat split; simpl; unfold mapSeverity.
    + destruct (v_level v) as [l |]; [| discriminate].
      destruct (String.eqb l "error") eqn:E1; [discriminate |].
      destruct (String.eqb l "warning") eqn:E2;
        [apply String.eqb_eq in E2; by subst l |].
      destruct (String.eqb l "info"); discriminate.
    + intros ->. reflexivity.
    + destruct (v_level v) as [l |]; [| discriminate].
      destruct (String.eqb l "error") eqn:E1; [discriminate |].
      destruct (String.eqb l "warning") eqn:E2; [discriminate |].
      destruct (String.eqb l "info") eqn:E3; [| discriminate].
      apply String.eqb_eq in E3. by subst l.
    + intros ->. reflexivity.
  - intros f Hf.
    destruct (out_violations output) as [vs |]; [| by apply elem_of_nil in Hf].
    destruct (out_valid output || (List.length vs =? 0)%nat);
      [by apply elem_of_nil in Hf |].
    apply elem_of_imap_findings in Hf as (i & v & _ & ->).
    repeat split. apply generateRuleId_format.
Qed.

Lemma skipParameters_length (s : string) :
  (String.length (skipParameters s) <= String.length s)%nat.
Proof.
  induction s as [| c s IH]; [reflexivity |]. simpl.
  destruct (isParameter c); simpl; lia.
Qed.

Lemma codeAt_shorter (s rest : string) :
  codeAt s = Some rest -> (String.length rest < String.length s)%nat.
Proof.
  unfold codeAt. destruct s as [| c0 [| c1 s]]; try discriminate.
  destruct (Ascii.eqb c0 escapeChar && Ascii.eqb c1 "["); [| discriminate].
  pose proof (skipParameters_length s) as Hlen.
  destruct (skipParameters s) as [| c2 rest']; [discriminate |].
  destruct (Ascii.eqb c2 "m"); [| discriminate].
  intros [= <-]. simpl in *. lia.
Qed.

Lemma stripFrom_S (fuel : nat) (s : string) :
  stripFrom (S fuel) s =
    match codeAt s with
    | Some rest => stripFrom fuel rest
    | None =>
        match s with
        | EmptyString => EmptyString
        | String c rest => String c (stripFrom fuel rest)
        end
    end.
Proof. reflexivity. Qed.

(** The fuel that [stripAnsi] supplies is never used up: more changes
    nothing. *)
Lemma stripFrom_enough (n : nat) :
  forall s fuel fuel',
    (String.length s <= n)%nat -> (String.length s <= fuel)%nat ->
    (String.length s <= fuel')%nat ->
    stripFrom fuel s = stripFrom fuel' s.
Proof.
  induction n as [| n IH]; intros s fuel fuel' Hn Hf Hf'.
  - destruct s; [| simpl in Hn; lia]. by destruct fuel, fuel'.
  - destruct s as [| c rest]; [by destruct fuel, fuel' |].
    destruct fuel as [| fuel]; [simpl in Hf; lia |].
    destruct fuel' as [| fuel']; [simpl in Hf'; lia |].
    rewrite !stripFrom_S.
    destruct (codeAt (String c rest)) as [after |] eqn:E.
    + apply codeAt_shorter in E. simpl in *. apply IH; lia.
    + f_equal. simpl in *. apply IH; lia.
Qed.

Lemma skipParameters_all (parameters tail : string) :
  Forall (fun c => isParameter c = true) (list_ascii_of_string parameters) ->
  skipParameters (parameters +:+ String "m" tail) = String "m" tail.
Proof.
  induction parameters as [| c ps IH]; intros H; [reflexivity |].
  simpl in H. apply Forall_cons in H as [Hc Hps].
  change (String c ps +:+ String "m" tail) with (String c (ps +:+ String "m" tail)).
  simpl. rewrite Hc. by apply IH.
Qed.

(** X7. What the removal of colour codes keeps and what it drops. A text
    without an escape character is left as it is; an escape character
    followed by an opening bracket, any digits and semicolons, and the
    letter m is dropped together with them; any character that is not an
    escape character is kept, and the removal goes on behind it. *)
Theorem colour_codes_are_removed :
  (forall s, Forall (fun c => Ascii.eqb c escapeChar = false) (list_ascii_of_string s) ->
             stripAnsi s = s)
  /\ (forall parameters tail,
        Forall (fun c => isParameter c = true) (list_ascii_of_string parameters) ->
        stripAnsi (String escapeChar (String "[" (parameters +:+ String "m" tail)))
          = stripAnsi tail)
  /\ (forall c tail, Ascii.eqb c escapeChar = false ->
        stripAnsi (String c tail) = String c (stripAnsi tail)).
Proof.
  assert (Hkeep : forall c tail, Ascii.eqb c escapeChar = false ->
                    stripAnsi (String c tail) = String c (stripAnsi tail)).
  { intros c tail Hc. unfold stripAnsi. simpl String.length. rewrite stripFrom_S.
    assert (codeAt (String c tail) = None) as ->
      by (unfold codeAt; destruct tail; [done | by rewrite Hc]).
    reflexivity. }
  split; [| split; [| exact Hkeep]].
  - induction s as [| c s IH]; intros H; [reflexivity |].
    simpl in H. apply Forall_cons in H as [Hc Hs].
    rewrite (Hkeep c s Hc). by rewrite IH.
  - intros parameters tail Hps. unfold stripAnsi at 1.
    simpl String.length. rewrite stripFrom_S.
    assert (codeAt (String escapeChar (String "[" (parameters +:+ String "m" tail)))
            = Some tail) as Hcode.
    { unfold codeAt. rewrite (skipParameters_all parameters tail Hps). reflexivity. }
    rewrite Hcode. pose proof (codeAt_shorter _ _ Hcode) as Hlen. simpl in Hlen.
    unfold stripAnsi. apply (stripFrom_enough (String.length tail)); lia.
Qed.

Section Engine.
Context {W : Type} (p : Platform).
Context (spawn : string -> list string -> ProcessResult).
Context (parseJsonOutput : string -> option TestEngineOutput).
Context (executablePath : string).

(** X21. When the tool's output holds no JSON payload, the findings are
    the lines of the two outputs that read like an issue, whatever the
    exit code: a run that exits with a failure but prints no such line
    yields no finding, and a run that exits with success but prints one
    yields a finding. Every such finding is an error without a pointer. *)
Theorem text_findings_ignore_the_exit_code (file : string) (code : option Z)
    (stdout stderr : string) (config : LintConfig) (w : W) :
  spawn executablePath ["check_file"; file; "--format"; inputFormatOf p file]
    = Closed code stdout stderr ->
  parseJsonOutput (stdout +:+ String lineFeed EmptyString +:+ stderr) = None ->
  parseJsonOutput stdout = None ->
  parseJsonOutput stderr = None ->
  let lines := parseTextOutput (stdout +:+ String lineFeed EmptyString +:+ stderr) in
  validate p spawn parseJsonOutput executablePath file config w
    = (Ok (imap (violationFinding file) lines), w)
  /\ forall f, f ∈ imap (violationFinding file) lines ->
       severity f = error /\ jsonPointer (location f) = None
       /\ nonEmpty (message f) = true /\ reportsIssue (message f) = true
       /\ skipped (message f) = false.
Proof.
  intros Hspawn H1 H2 H3. simpl. split.
  - unfold validate, invokeTestEngines. rewrite Hspawn, H1, H2, H3. simpl.
    unfold parseOutput. simpl.
    destruct (parseTextOutput _) as [| v0 rest]; simpl.
    + by rewrite orb_true_r.
    + destruct code as [n |]; [destruct (n =? 0) |]; reflexivity.
  - intros f Hf. apply elem_of_imap_findings in Hf as (i & v & Hi & ->).
    apply list_elem_of_lookup_2 in Hi. unfold parseTextOutput in Hi.
    apply list_elem_of_In, in_flat_map in Hi as (line' & _ & Hv).
    destruct (skipped (trim line')) eqn:Hskip; [destruct Hv |].
    destruct (reportsIssue (trim line')) eqn:Hissue; [| destruct Hv].
    destruct Hv as [<- | []]. simpl. repeat split; try done.
    unfold skipped in Hskip. apply orb_false_iff in Hskip as [Hskip _].
    apply orb_false_iff in Hskip as [Hskip _]. apply orb_false_iff in Hskip as [Hskip _].
    by apply negb_false_iff in Hskip.
Qed.

(** X22. A tool that cannot be started does not stop the run: the
    orchestrator turns the wrapper's failure into one error finding for
    the file, whose message names the engine and repeats the reason with
    the hint to install the tool. *)
Theorem missing_tool_is_reported_as_a_finding (file reason : string)
    (config : LintConfig) (w : W) :
  canValidate p file = true ->
  spawn executablePath ["check_file"; file; "--format"; inputFormatOf p file]
    = SpawnError reason ->
  Orchestrator.validateFile file
    [engine (W := W) p spawn parseJsonOutput executablePath] config w
  = ([{| ruleId := "aas-test-engines/internal/engine-error";
         ruleName := "Engine Error";
         severity := error;
         message := "Validation engine " +:+ dquote +:+ "aas-test-engines" +:+ dquote
                    +:+ " failed: Failed to invoke aas_test_engines: " +:+ reason
                    +:+ ". Is it installed? Run: pip install aas-test-engines";
         location := fileLocation file;
         source := "aas-test-engines";
         details := None |}], w).
Proof.
  intros Hcan Hspawn. unfold Orchestrator.validateFile. simpl. rewrite Hcan. simpl.
  unfold Orchestrator.runEngine. simpl. unfold validate, invokeTestEngines.
  rewrite Hspawn. simpl. unfold Orchestrator.engineErrorFinding. simpl.
  reflexivity.
Qed.

End Engine.

Lemma text_findings_ignore_the_exit_code_witness :
  fst (validate (W := unit) Cases.oneFile Cases.printing Cases.noPayload
         "aas_test_engines" "/repo/a.xml" Sample.config tt)
  = Ok [violationFinding "/repo/a.xml" 0
          {| v_message := "Property idShort is missing @ /submodels/0";
             v_level := Some "error"; v_path := None |}].
Proof.
  destruct (text_findings_ignore_the_exit_code (W := unit) Cases.oneFile Cases.printing
              Cases.noPayload "aas_test_engines" "/repo/a.xml" (Some 0)
              ("Check meta model" +:+ String lineFeed
                 "  Property idShort is missing @ /submodels/0")
              EmptyString Sample.config tt eq_refl eq_refl eq_refl eq_refl) as [H _].
  rewrite H. reflexivity.
Defined.

Lemma missing_tool_is_reported_as_a_finding_witness :
  canValidate Cases.oneFile "/repo/a.xml" = true
  /\ List.length
       (fst (Orchestrator.validateFile "/repo/a.xml"
               [engine (W := unit) Cases.oneFile Cases.absent Cases.noPayload
                  "aas_test_engines"] Sample.config tt)) = 1%nat.
Proof.
  split; [reflexivity |].
  rewrite (missing_tool_is_reported_as_a_finding (W := unit) Cases.oneFile Cases.absent
             Cases.noPayload "aas_test_engines" "/repo/a.xml"
             "spawn aas_test_engines ENOENT" Sample.config tt eq_refl eq_refl).
  reflexivity.
Defined.

End WrapperExtras.

(** ** SARIF *)

Module SarifExtras.
Import Sarif JsText SarifVocabulary Ordering ListFacts SortFacts StringFacts.

Lemma hasRule_true (rules : list SarifRule) (id' : string) :
  hasRule rules id' = true <-> exists r, r ∈ rules /\ rule_id r = id'.
Proof.
  unfold hasRule. rewrite existsb_exists. split.
  - intros (r & Hin & Heq). apply String.eqb_eq in Heq. exists r.
    by rewrite list_elem_of_In.
  - intros (r & Hin & Heq). exists r. rewrite <- list_elem_of_In.
    split; [done |]. by apply String.eqb_eq.
Qed.

Lemma collect_covers (l : list Finding) :
  forall pre acc, covers pre acc ->
    covers (pre ++ l)
      (fold_left
         (fun rules finding =>
            if hasRule rules (ruleId finding) then rules
            else (rules ++ [ruleOf finding])%list) l acc).
Proof.
  induction l as [| f rest IH]; intros pre acc Hc; [by rewrite app_nil_r |].
  simpl. replace (pre ++ f :: rest)%list with ((pre ++ [f]) ++ rest)%list
    by (by rewrite <- app_assoc).
  apply IH. destruct Hc as (Hnd & Hcov & Hfirst).
  destruct (hasRule acc (ruleId f)) eqn:Hhas.
  - split; [done |]. split.
    + intros g Hg. apply elem_of_app in Hg as [Hg | Hg]; [by apply Hcov |].
      apply list_elem_of_singleton in Hg. subst g. by apply hasRule_true.
    + intros r Hr. destruct (Hfirst r Hr) as (g & (before & after & -> & Hb) & ->).
      exists g. split; [| done]. exists before, (after ++ [f])%list.
      split; [by rewrite <- app_assoc | done].
  - assert (Hfresh : forall g, g ∈ pre -> ruleId g <> ruleId f).
    { intros g Hg Heq. destruct (Hcov g Hg) as (r & Hr & Hid).
      assert (hasRule acc (ruleId f) = true) as Hyes
        by (apply hasRule_true; exists r; split; [done | congruence]).
      congruence. }
    split; [| split].
    + rewrite map_app. apply NoDup_app. split; [done |]. split; [| apply NoDup_singleton].
      intros id' Hin Hnew. apply list_elem_of_singleton in Hnew. subst id'.
      apply elem_of_List_map in Hin as (r & Hid & Hr).
      assert (hasRule acc (ruleId f) = true) as Hyes
        by (apply hasRule_true; exists r; split; [done | by rewrite <- Hid]).
      congruence.
    + intros g Hg. apply elem_of_app in Hg as [Hg | Hg].
      * destruct (Hcov g Hg) as (r & Hr & Hid). exists r.
        split; [apply elem_of_app; by left | done].
      * apply list_elem_of_singleton in Hg. subst g. exists (ruleOf f).
        split; [apply elem_of_app; right; by apply list_elem_of_singleton | done].
    + intros r Hr. apply elem_of_app in Hr as [Hr | Hr].
      * destruct (Hfirst r Hr) as (g & (before & after & -> & Hb) & ->).
        exists g. split; [| done]. exists before, (after ++ [f])%list.
        split; [by rewrite <- app_assoc | done].
      * apply list_elem_of_singleton in Hr. subst r. exists f. split; [| done].
        exists pre, []. by split.
Qed.

Lemma collectRules_covers (l : list Finding) : covers l (collectRules l).
Proof.
  apply (collect_covers l [] []). split; [constructor |].
  split; intros x Hx; by apply elem_of_nil in Hx.
Qed.

(** X23. The rules of a SARIF log are those of its results: every result
    names a rule that is listed, no rule identifier is listed twice, and
    every listed rule takes its name and its default level from the first
    finding that has its identifier. The results are the findings, one
    for one; with a consistent collation the rules ascend by identifier. *)
Theorem sarif_rules_match_results (p : Platform) (path_sep : ascii)
    (result : LintResult) (options : SarifOptions) :
  let log := generateSarif p path_sep result options in
  NoDup (List.map rule_id (driver_rules log))
  /\ (forall r, r ∈ run_results log ->
        exists rule, rule ∈ driver_rules log /\ rule_id rule = res_ruleId r)
  /\ (forall rule, rule ∈ driver_rules log ->
        exists f, firstOfItsRule (findings result) f
          /\ rule_id rule = ruleId f
          /\ rule_name rule = ruleName f
          /\ rule_shortDescription rule = ruleName f
          /\ rule_level rule = severityToSarifLevel (severity f))
  /\ List.map res_ruleId (run_results log) = List.map ruleId (findings result)
  /\ List.map res_message (run_results log) = List.map message (findings result)
  /\ (Consistent (localeCompare p) ->
      StronglySorted (fun a b => localeCompare p (rule_id a) (rule_id b) <= 0)
        (driver_rules log)).
Proof.
  simpl. unfold extractRules.
  destruct (collectRules_covers (findings result)) as (Hnd & Hcov & Hfirst).
  split; [| split; [| split; [| split; [| split]]]].
  - assert (List.map rule_id
              (sort (fun a b => localeCompare p (rule_id a) (rule_id b))
                 (collectRules (findings result)))
            ≡ₚ List.map rule_id (collectRules (findings result))) as Hp
      by apply Permutation_map, sort_perm.
    by rewrite Hp.
  - intros r Hr. apply elem_of_List_map in Hr as (f & -> & Hf).
    destruct (Hcov f Hf) as (rule & Hrule & Hid). exists rule.
    split; [by apply elem_of_sort | done].
  - intros rule Hrule. apply elem_of_sort in Hrule.
    destruct (Hfirst rule Hrule) as (f & Hf & ->). by exists f.
  - rewrite List.map_map. reflexivity.
  - rewrite List.map_map. reflexivity.
  - intros Hc. apply sort_sorted.
    + intros a b. pose proof (compare_swap _ Hc (rule_id a) (rule_id b)). lia.
    + intros a b c. apply (compare_trans _ Hc).
Qed.

Lemma toInt32_range (z : Z) : int32 (toInt32 z).
Proof.
  unfold int32, toInt32.
  pose proof (Z.mod_pos_bound (z + 2147483648) 4294967296 ltac:(lia)). lia.
Qed.

Lemma hashString_range (str : string) : forall h, int32 h -> int32 (hashString h str).
Proof.
  induction str as [| c rest IH]; intros h Hh; [exact Hh |].
  simpl. apply IH. apply toInt32_range.
Qed.

Lemma hexDigit_lower (d : Z) : 0 <= d < 16 -> isLowerHex (hexDigit d) = true.
Proof.
  intros Hd.
  assert (d = 0 \/ d = 1 \/ d = 2 \/ d = 3 \/ d = 4 \/ d = 5 \/ d = 6 \/ d = 7 \/ d = 8
          \/ d = 9 \/ d = 10 \/ d = 11 \/ d = 12 \/ d = 13 \/ d = 14 \/ d = 15) as H by lia.
  repeat (destruct H as [-> | H]; [reflexivity |]). by subst d.
Qed.

Lemma toHex_digits (fuel : nat) :
  forall n k, 0 <= n < 16 ^ Z.of_nat k -> (1 <= k <= fuel)%nat ->
    (String.length (toHex fuel n) <= k)%nat
    /\ Forall (fun c => isLowerHex c = true) (list_ascii_of_string (toHex fuel n)).
Proof.
  induction fuel as [| fuel IH]; intros n k Hn Hk; [lia |].
  simpl. destruct (n <? 16) eqn:E.
  - apply Z.ltb_lt in E. simpl. split; [lia |].
    constructor; [apply hexDigit_lower; lia | constructor].
  - apply Z.ltb_ge in E.
    assert (2 <= k)%nat as Hk2.
    { destruct k as [| [| k]]; [lia | | lia]. simpl in Hn. lia. }
    destruct (IH (n / 16) (k - 1)%nat) as [Hlen Hall].
    + replace (Z.of_nat k) with (Z.succ (Z.of_nat (k - 1))) in Hn by lia.
      rewrite Z.pow_succ_r in Hn by lia.
      split; [apply Z.div_pos; lia |]. apply Z.div_lt_upper_bound; lia.
    + lia.
    + rewrite length_append, list_ascii_append. simpl. split; [lia |].
      apply Forall_app. split; [exact Hall |].
      constructor; [| constructor]. apply hexDigit_lower.
      apply Z.mod_pos_bound. lia.
Qed.

(** X24. The fingerprint of a finding is always eight characters long and
    made of digits and the letters a to f, whatever the rule identifier,
    the position and the message are. *)
Theorem fingerprint_is_eight_hex_digits (finding : Finding) :
  String.length (generateFingerprint finding) = 8%nat
  /\ Forall (fun c => isLowerHex c = true)
       (list_ascii_of_string (generateFingerprint finding)).
Proof.
  unfold generateFingerprint. cbv zeta.
  set (hash := hashString 0 _).
  assert (int32 hash) as Hh by (apply hashString_range; unfold int32; lia).
  destruct (toHex_digits 16 (Z.abs hash) 8) as [Hlen Hall].
  { unfold int32 in Hh. change (16 ^ Z.of_nat 8) with 4294967296. lia. }
  { lia. }
  unfold padStart. rewrite length_append, length_repeatChar, list_ascii_append.
  split; [lia |]. apply Forall_app. split; [| exact Hall].
  generalize (8 - String.length (toHex 16 (Z.abs hash)))%nat. intros n.
  induction n as [| n IHn]; [constructor |]. simpl. by constructor.
Qed.

End SarifExtras.

(** ** The command line *)

Module CliExtras.
Import Cli Orchestrator Ordering ListFacts JsText.

Section WithPlatform.
Context (p : Platform) (path_sep : ascii).
Context (spawn : string -> list string -> AasTestEngines.ProcessResult).
Context (parseJsonOutput : string -> option AasTestEngines.TestEngineOutput).
Context (writeFile : string -> Sarif.SarifLog -> outcome unit).

Lemma registryOf_cases (options : Options) (engine : ValidationEngine TemplateEngine.EngineState) :
  engine ∈ registryOf p spawn parseJsonOutput options ->
  engine = AasTestEngines.engine p spawn parseJsonOutput "aas_test_engines"
  \/ engine = TemplateEngine.engine p
                {| TemplateEngine.opt_templateDir := o_templateDir options |}.
Proof.
  unfold registryOf, registerEngine. case_bool_decide; simpl; intros Hin.
  - apply list_elem_of_singleton in Hin. by left.
  - apply elem_of_cons in Hin as [-> | Hin]; [by left |].
    apply list_elem_of_singleton in Hin. by right.
Qed.

Lemma registry_reports_on_given_file (options : Options) (config : LintConfig) :
  reportOnGivenFile (registryOf p spawn parseJsonOutput options) config.
Proof.
  intros engine file w fs w' Hin Hval f Hf.
  apply registryOf_cases in Hin as [-> | ->].
  - simpl in Hval. unfold AasTestEngines.validate in Hval.
    destruct (AasTestEngines.invokeTestEngines _ _ _ _ _) as [output | e];
      [| discriminate].
    injection Hval as <- _. by eapply WrapperExtras.parseOutput_located.
  - simpl in Hval.
    by destruct (EngineExtras.validate_rule_and_path p _ file config w w' fs f Hval Hf).
Qed.

Lemma all_enabled (paths' : list string) (options : Options)
    (registry : list (ValidationEngine TemplateEngine.EngineState)) :
  List.filter (enabled (configOf paths' options)) registry = registry.
Proof.
  induction registry as [| e rest IH]; [reflexivity |]. simpl.
  unfold enabled at 1. simpl. rewrite lookup_empty. simpl. by rewrite IH.
Qed.

Lemma hasFailingFindings_true (failOn' : list string) (result : LintResult) :
  hasFailingFindings failOn' result = true <->
  exists f, f ∈ findings result /\ severityName (severity f) ∈ failOn'.
Proof.
  unfold hasFailingFindings. rewrite existsb_exists. split.
  - intros (f & Hf & Hs). exists f. rewrite list_elem_of_In. split; [done |].
    apply existsb_exists in Hs as (s & Hs & Heq). apply String.eqb_eq in Heq.
    rewrite Heq. by apply list_elem_of_In.
  - intros (f & Hf & Hs). exists f. rewrite <- list_elem_of_In. split; [done |].
    apply existsb_exists. exists (severityName (severity f)).
    rewrite <- list_elem_of_In. split; [done | apply String.eqb_refl].
Qed.



(** X27. In a result of the command every finding is located at one of
    the discovered files, so that the number of files with findings never
    exceeds the number of files scanned. *)
Theorem cli_findings_are_about_scanned_files (paths' : list string) (options : Options)
    (result : LintResult) :
  lintOf p spawn parseJsonOutput paths' options = Ok result ->
  (filesWithFindings (summary result) <= filesScanned (summary result))%nat
  /\ exists files,
       Discovery.discoverFiles p paths'
         {| Discovery.d_basePath := o_basePath options;
            Discovery.d_exclude := option_map (fun text => List.map trim (splitOn "," text))
                                     (o_exclude options);
            Discovery.d_followSymlinks := None |} = Ok files
       /\ filesScanned (summary result) = List.length files
       /\ forall f, f ∈ findings result -> filePath (location f) ∈ files.
Proof.
  unfold lintOf, lint. simpl.
  change (option_map commaList (o_exclude options))
    with (option_map (fun text => List.map trim (splitOn "," text)) (o_exclude options)).
  destruct (Discovery.discoverFiles p paths' _) as [files | e0] eqn:Hd; [| discriminate].
  destruct (validateFiles files _ _ _) as [allFindings w1] eqn:E. simpl.
  intros [= <-]. simpl.
  assert (Hloc : forall f, f ∈ normalizeFindings p allFindings ->
                           filePath (location f) ∈ files).
  { intros f Hf. apply OrchestratorFacts.normalizeFindings_subset in Hf.
    eapply OrchestratorClaims.validateFiles_paths; [| exact E | exact Hf].
    intros engine file w0 fs w0' Hin. apply elem_of_List_filter in Hin as [_ Hin].
    by eapply registry_reports_on_given_file. }
  split.
  - etrans; [| apply OrchestratorClaims.size_list_to_set_le].
    apply subseteq_size. intros path Hpath.
    apply elem_of_list_to_set in Hpath. apply elem_of_list_to_set.
    apply elem_of_List_map in Hpath as (f & -> & Hf). by apply Hloc.
  - exists files. by repeat split.
Qed.

Lemma discovered_is_accepted (patterns : list string)
    (discoveryOptions : Discovery.DiscoveryOptions) (files : list string) (file : string)
    (options : Options) (engine : ValidationEngine TemplateEngine.EngineState) :
  Discovery.discoverFiles p patterns discoveryOptions = Ok files -> file ∈ files ->
  engine ∈ registryOf p spawn parseJsonOutput options ->
  canValidate engine file = true.
Proof.
  intros Hd Hf Hin.
  pose proof (DiscoveryClaims.discoverFiles_supported p _ _ _ _ Hd Hf) as Hext.
  apply list_elem_of_In in Hext.
  apply registryOf_cases in Hin as [-> | ->]; simpl;
    unfold AasTestEngines.canValidate, TemplateEngine.canValidate;
    apply existsb_exists; exists (toLowerCase (path_extname p file));
    (split; [exact Hext | apply String.eqb_refl]).
Qed.

Lemma filter_all {A : Type} (f : A -> bool) (l : list A) :
  (forall x, x ∈ l -> f x = true) -> List.filter f l = l.
Proof.
  induction l as [| x rest IH]; intros H; [reflexivity |]. simpl.
  rewrite (H x) by (by left). f_equal. apply IH. intros y Hy. apply H. by right.
Qed.

(** X28. No engine of the command turns a discovered file away: for a file
    that discovery returned, [validateFile] calls every registered engine,
    in registration order. This includes XML files. *)
Theorem discovered_files_reach_every_engine (patterns : list string)
    (discoveryOptions : Discovery.DiscoveryOptions) (files : list string) (file : string)
    (options : Options) (config : LintConfig) (w : TemplateEngine.EngineState) :
  Discovery.discoverFiles p patterns discoveryOptions = Ok files -> file ∈ files ->
  validateFile file (registryOf p spawn parseJsonOutput options) config w
  = (concat (fst (runEngines file config (registryOf p spawn parseJsonOutput options) w)),
     snd (runEngines file config (registryOf p spawn parseJsonOutput options) w)).
Proof.
  intros Hd Hf. unfold validateFile. rewrite filter_all.
  - by destruct (runEngines file config _ w).
  - intros engine Hin. by eapply discovered_is_accepted.
Qed.

Lemma missing_tool_throws (reason file : string) (config : LintConfig)
    (w : TemplateEngine.EngineState) :
  (forall executable args, spawn executable args = AasTestEngines.SpawnError reason) ->
  exists e,
    validate (AasTestEngines.engine p spawn parseJsonOutput "aas_test_engines")
      file config w = (Throw e, w).
Proof.
  intros Hspawn. simpl. unfold AasTestEngines.validate, AasTestEngines.invokeTestEngines.
  rewrite Hspawn. by eexists.
Qed.

(** X29. When the tool cannot be started and at least one file is
    discovered, the run ends with exit code 1 as soon as [error] is among
    the names given to [--fail-on] (as it is by default), provided no
    SARIF file is asked for: the failure of the wrapper counts as an
    error finding, not as a failure of the run. *)
Theorem missing_tool_fails_the_run (paths' : list string) (options : Options)
    (reason file : string) (rest : list string) :
  (forall executable args, spawn executable args = AasTestEngines.SpawnError reason) ->
  Discovery.discoverFiles p paths'
    {| Discovery.d_basePath := o_basePath options;
       Discovery.d_exclude := option_map (fun text => List.map trim (splitOn "," text))
                                (o_exclude options);
       Discovery.d_followSymlinks := None |} = Ok (file :: rest) ->
  "error" ∈ List.map trim (splitOn "," (o_failOn options)) ->
  o_sarif options = None ->
  exitCode p path_sep spawn parseJsonOutput writeFile paths' options = 1.
Proof.
  intros Hspawn Hd Herror Hsarif. unfold exitCode, run, lintOf, lint. simpl.
  change (option_map commaList (o_exclude options))
    with (option_map (fun text => List.map trim (splitOn "," text)) (o_exclude options)).
  rewrite Hd, all_enabled.
  destruct (validateFiles (file :: rest) _ _ _) as [allFindings w1] eqn:E. simpl.
  rewrite Hsarif.
  set (python := AasTestEngines.engine (W := TemplateEngine.EngineState)
                   p spawn parseJsonOutput "aas_test_engines").
  (* the first finding of the run reports the wrapper's failure *)
  assert (exists e0 more, allFindings = engineErrorFinding python file e0 :: more)
    as (e0 & more & Hall).
  { simpl in E.
    destruct (validateFile file _ _ _) as [fileFindings w2] eqn:E1.
    destruct (validateFiles rest _ _ w2) as [others w3]. injection E as <- _.
    unfold validateFile in E1. rewrite filter_all in E1.
    2:{ intros engine Hin.
        eapply discovered_is_accepted; [exact Hd | by left | exact Hin]. }
    assert (exists tail, registryOf p spawn parseJsonOutput options = python :: tail)
      as [tail Htail].
    { unfold registryOf, registerEngine. case_bool_decide; by eexists. }
    rewrite Htail in E1. simpl in E1. unfold runEngine at 1 in E1.
    destruct (missing_tool_throws reason file (configOf paths' options)
                TemplateEngine.initialState Hspawn) as [e0 He0].
    fold python in He0. rewrite He0 in E1.
    destruct (runEngines file _ tail _) as [rs w4]. injection E1 as <- _.
    by exists e0, (concat rs ++ others)%list. }
  (* normalization keeps a finding with its key *)
  destruct (OrchestratorExtras.deduplicate_covers
              (sort (compareFindings p) allFindings) ∅
              (engineErrorFinding python file e0)) as [Hin | (g & Hg & Hkey)].
  { apply SortFacts.elem_of_sort. rewrite Hall. by left. }
  { by apply not_elem_of_empty in Hin. }
  (* and every finding with that rule identifier is an error *)
  assert (severity g = error) as Hsev.
  { assert (ruleId g = "aas-test-engines/internal/engine-error") as Hrule
      by (injection Hkey as _ _ _ Hr _; exact Hr).
    assert (g ∈ allFindings) as Hgall
      by (apply OrchestratorFacts.deduplicate_subset in Hg;
          by apply SortFacts.elem_of_sort in Hg).
    destruct (OrchestratorExtras.validateFiles_provenance
                (registryOf p spawn parseJsonOutput options)
                (registryOf p spawn parseJsonOutput options)
                (configOf paths' options) (file :: rest)) with
      (w := TemplateEngine.initialState) (fs := allFindings) (w' := w1) (f := g)
      as (file' & _ & engine & r & Hreg & _ & _ & (w & w' & Hc) & Hgr);
      [| exact E | exact Hgall |].
    { intros engine Hin. split; [done |]. unfold enabled. simpl.
      by rewrite lookup_empty. }
    destruct Hc as [Hok | (e & _ & ->)];
      [| apply list_elem_of_singleton in Hgr; by subst g].
    apply registryOf_cases in Hreg as [-> | ->].
    - destruct (missing_tool_throws reason file' (configOf paths' options) w Hspawn)
        as [e He].
      rewrite He in Hok. discriminate.
    - simpl in Hok.
      destruct (EngineExtras.validate_rule_and_path p _ file' _ w w' r g Hok Hgr)
        as [_ [Hr | Hr]]; rewrite Hr in Hrule; discriminate. }
  assert (hasFailingFindings (commaList (o_failOn options))
            {| findings := normalizeFindings p allFindings;
               summary := computeSummary (normalizeFindings p allFindings) (file :: rest);
               metadata_version := VERSION;
               metadata_config := configOf paths' options |} = true) as Hfail.
  { apply hasFailingFindings_true. exists g. split; [exact Hg |]. by rewrite Hsev. }
  by rewrite Hfail.
Qed.

End WithPlatform.


Lemma cli_findings_are_about_scanned_files_witness :
  exists result,
    lintOf Cases.oneFile Cases.absent Cases.noPayload ["**/*"] Cases.defaults = Ok result
    /\ (filesWithFindings (summary result) <= filesScanned (summary result))%nat.
Proof.
  destruct (lintOf Cases.oneFile Cases.absent Cases.noPayload ["**/*"] Cases.defaults)
    as [result | e] eqn:E; [| vm_compute in E; discriminate E].
  exists result. split; [reflexivity |].
  destruct (cli_findings_are_about_scanned_files Cases.oneFile Cases.absent
              Cases.noPayload ["**/*"] Cases.defaults result E) as [H _].
  exact H.
Defined.

Lemma discovered_files_reach_every_engine_witness :
  Discovery.discoverFiles Cases.oneFile ["**/*"] Sample.discoveryOptions
    = Ok ["/repo/a.xml"]
  /\ validateFile "/repo/a.xml"
       (registryOf Cases.oneFile Cases.absent Cases.noPayload Cases.defaults)
       Sample.config TemplateEngine.initialState
     = (concat (fst (runEngines "/repo/a.xml" Sample.config
                       (registryOf Cases.oneFile Cases.absent Cases.noPayload
                          Cases.defaults) TemplateEngine.initialState)),
        snd (runEngines "/repo/a.xml" Sample.config
               (registryOf Cases.oneFile Cases.absent Cases.noPayload Cases.defaults)
               TemplateEngine.initialState)).
Proof.
  split; [reflexivity |].
  apply (discovered_files_reach_every_engine Cases.oneFile Cases.absent Cases.noPayload
           ["**/*"] Sample.discoveryOptions ["/repo/a.xml"] "/repo/a.xml" Cases.defaults
           Sample.config TemplateEngine.initialState eq_refl).
  by left.
Defined.

Lemma missing_tool_fails_the_run_witness :
  exitCode Cases.oneFile "/" Cases.absent Cases.noPayload Cases.writable ["**/*"]
    Cases.defaults = 1.
Proof.
  apply (missing_tool_fails_the_run Cases.oneFile "/" Cases.absent Cases.noPayload
           Cases.writable ["**/*"] Cases.defaults "spawn aas_test_engines ENOENT"
           "/repo/a.xml" []).
  - intros executable args. reflexivity.
  - reflexivity.
  - apply list_elem_of_In. vm_compute. left. reflexivity.
  - reflexivity.
Defined.

End CliExtras.
